(** * The SASL layer of the proton-c engine and the C++ connection driver

    A shallow embedding of [proton-c/src/sasl/sasl.c] and of
    [connection_driver::disconnected] from
    [proton-c/bindings/cpp/src/io/connection_driver.cpp], with the properties
    the specification states about them.

    Conventions of the embedding.
    - A C function that mutates the transport becomes a function from the
      transport to the new transport.
    - A C operation whose behaviour is undefined (a null dereference, a store
      past the end of an array) yields [Undefined]; everything that can reach
      such an operation lives in the [res] monad.
    - A [const char *] is a [string]; C reads it up to the first NUL, which is
      what [cstr] computes.  A null [char *] is [None]. *)

From Stdlib Require Import ZArith List String Ascii Bool Lia.
Import ListNotations.

Local Open Scope string_scope.
Local Open Scope list_scope.
Local Open Scope Z_scope.

(** ** Results of C operations *)

Inductive fault : Type :=
| NullDeref      (* a null pointer is read through *)
| OutOfBounds    (* an array is written past its last element *)
| Dangling.      (* an address that holds no object *)

Inductive res (A : Type) : Type :=
| Ok (a : A)
| Undefined (f : fault)
| OutOfFuel.     (* only the loop of [pni_post_sasl_frame] is fuelled *)

Arguments Ok {A} a.
Arguments Undefined {A} f.
Arguments OutOfFuel {A}.

Definition bind {A B : Type} (m : res A) (k : A -> res B) : res B :=
  match m with
  | Ok a => k a
  | Undefined f => Undefined f
  | OutOfFuel => OutOfFuel
  end.

Declare Scope res_scope.
Delimit Scope res_scope with res.
Notation "x <- m ;; k" := (bind m (fun x => k))
  (at level 61, m at next level, right associativity) : res_scope.
Notation "' p <- m ;; k" := (bind m (fun p => k))
  (at level 61, p pattern, m at next level, right associativity) : res_scope.
Local Open Scope res_scope.

(** [p->field] for a pointer that may be null. *)
Definition deref {A : Type} (p : option A) : res A :=
  match p with
  | Some a => Ok a
  | None => Undefined NullDeref
  end.

(** ** C strings *)

Definition NUL : ascii := Ascii.zero.
Definition SP : ascii := " "%char.

Definition is_nul (c : ascii) : bool := Ascii.eqb c NUL.
Definition is_sp (c : ascii) : bool := Ascii.eqb c SP.

(** What C sees of a character buffer: the characters before the first NUL. *)
Fixpoint cstr (s : string) : string :=
  match s with
  | EmptyString => EmptyString
  | String c r => if is_nul c then EmptyString else String c (cstr r)
  end.

Fixpoint nul_free (s : string) : bool :=
  match s with
  | EmptyString => true
  | String c r => negb (is_nul c) && nul_free r
  end.

(** [s[i]], where the position just past the characters holds the
    terminator. *)
Definition char_at (s : string) (i : nat) : ascii :=
  match String.get i s with
  | Some c => c
  | None => NUL
  end.

(** [*s] and [s + 1]; reading at the end of the characters gives the
    terminator. *)
Definition str_head (s : string) : ascii :=
  match s with
  | String c _ => c
  | EmptyString => NUL
  end.

Definition str_tail (s : string) : string :=
  match s with
  | String _ r => r
  | EmptyString => EmptyString
  end.

(** [strcmp(a, b) == 0] *)
Definition strcmp_eq (a b : string) : bool := String.eqb (cstr a) (cstr b).

(** Modelled from the spec: [pn_strdup] is defined in util.c, which is not
    among the sources; the context "owns" its strings, so the copy holds the
    characters of the C string. *)
Definition pn_strdup (s : string) : string := cstr s.

(** [tolower] in the C locale. *)
Definition tolower (c : ascii) : ascii :=
  let n := nat_of_ascii c in
  if (Nat.leb 65 n && Nat.leb n 90)%bool then ascii_of_nat (n + 32) else c.

Definition char_code (c : ascii) : Z := Z.of_nat (nat_of_ascii c).

(** Modelled from the spec: [pn_strncasecmp] is defined in util.c, which is
    not among the sources.  The spec asks for a "case-insensitive match";
    this is the [strncasecmp] contract: compare at most [len] characters
    without regard to case, stop at a difference or at the terminator, and
    return the difference. *)
Fixpoint pn_strncasecmp (a b : string) (len : nat) : Z :=
  match len with
  | O => 0
  | S n =>
      let ca := str_head a in
      let cb := str_head b in
      let d := char_code (tolower ca) - char_code (tolower cb) in
      if negb (d =? 0) then d
      else if is_nul ca then 0
      else pn_strncasecmp (str_tail a) (str_tail b) n
  end.

(** ** The data model *)

(** [enum pni_sasl_state].  The declaration lives in sasl-internal.h, which is
    not among the sources, so the numeric value of each enumerator is a
    parameter of the development ([state_code] below).  The [switch] of
    [pni_post_sasl_frame] has one [case] per enumerator, so the values are
    pairwise distinct and [==] on the enum is equality of enumerators. *)
Inductive pni_sasl_state : Type :=
| SASL_NONE
| SASL_POSTED_INIT
| SASL_POSTED_MECHANISMS
| SASL_POSTED_RESPONSE
| SASL_POSTED_CHALLENGE
| SASL_PRETEND_OUTCOME
| SASL_RECVED_OUTCOME
| SASL_POSTED_OUTCOME.

Definition state_eqb (a b : pni_sasl_state) : bool :=
  match a, b with
  | SASL_NONE, SASL_NONE
  | SASL_POSTED_INIT, SASL_POSTED_INIT
  | SASL_POSTED_MECHANISMS, SASL_POSTED_MECHANISMS
  | SASL_POSTED_RESPONSE, SASL_POSTED_RESPONSE
  | SASL_POSTED_CHALLENGE, SASL_POSTED_CHALLENGE
  | SASL_PRETEND_OUTCOME, SASL_PRETEND_OUTCOME
  | SASL_RECVED_OUTCOME, SASL_RECVED_OUTCOME
  | SASL_POSTED_OUTCOME, SASL_POSTED_OUTCOME => true
  | _, _ => false
  end.

(** [pn_sasl_outcome_t] *)
Inductive pn_sasl_outcome_t : Type :=
| PN_SASL_NONE
| PN_SASL_OK
| PN_SASL_AUTH
| PN_SASL_SYS
| PN_SASL_PERM
| PN_SASL_TEMP.

Definition outcome_eqb (a b : pn_sasl_outcome_t) : bool :=
  match a, b with
  | PN_SASL_NONE, PN_SASL_NONE
  | PN_SASL_OK, PN_SASL_OK
  | PN_SASL_AUTH, PN_SASL_AUTH
  | PN_SASL_SYS, PN_SASL_SYS
  | PN_SASL_PERM, PN_SASL_PERM
  | PN_SASL_TEMP, PN_SASL_TEMP => true
  | _, _ => false
  end.

(** [pni_sasl_t], field for field as [pn_sasl] initialises it. *)
Record pni_sasl_t : Type := mk_sasl {
  impl_context : option nat;
  client : bool;
  selected_mechanism : option string;
  included_mechanisms : option string;
  username : option string;
  password : option string;
  config_name : option string;
  config_dir : option string;
  remote_fqdn : option string;
  external_auth : option string;
  external_ssf : Z;
  outcome : pn_sasl_outcome_t;
  bytes_out : string;
  desired_state : pni_sasl_state;
  last_state : pni_sasl_state;
  input_bypass : bool;
  output_bypass : bool
}.

Definition with_last_state (s : pni_sasl_t) (v : pni_sasl_state) : pni_sasl_t :=
  mk_sasl (impl_context s) (client s) (selected_mechanism s)
    (included_mechanisms s) (username s) (password s) (config_name s)
    (config_dir s) (remote_fqdn s) (external_auth s) (external_ssf s)
    (outcome s) (bytes_out s) (desired_state s) v (input_bypass s)
    (output_bypass s).

Definition with_desired_state (s : pni_sasl_t) (v : pni_sasl_state) : pni_sasl_t :=
  mk_sasl (impl_context s) (client s) (selected_mechanism s)
    (included_mechanisms s) (username s) (password s) (config_name s)
    (config_dir s) (remote_fqdn s) (external_auth s) (external_ssf s)
    (outcome s) (bytes_out s) v (last_state s) (input_bypass s)
    (output_bypass s).

Definition with_outcome (s : pni_sasl_t) (v : pn_sasl_outcome_t) : pni_sasl_t :=
  mk_sasl (impl_context s) (client s) (selected_mechanism s)
    (included_mechanisms s) (username s) (password s) (config_name s)
    (config_dir s) (remote_fqdn s) (external_auth s) (external_ssf s)
    v (bytes_out s) (desired_state s) (last_state s) (input_bypass s)
    (output_bypass s).

Definition with_included_mechanisms (s : pni_sasl_t) (v : option string) : pni_sasl_t :=
  mk_sasl (impl_context s) (client s) (selected_mechanism s)
    v (username s) (password s) (config_name s)
    (config_dir s) (remote_fqdn s) (external_auth s) (external_ssf s)
    (outcome s) (bytes_out s) (desired_state s) (last_state s) (input_bypass s)
    (output_bypass s).

Definition with_external (s : pni_sasl_t) (ssf : Z) (auth : option string) : pni_sasl_t :=
  mk_sasl (impl_context s) (client s) (selected_mechanism s)
    (included_mechanisms s) (username s) (password s) (config_name s)
    (config_dir s) (remote_fqdn s) auth ssf
    (outcome s) (bytes_out s) (desired_state s) (last_state s) (input_bypass s)
    (output_bypass s).

(** Modelled from the spec: the mechanism backend is outside the sources.
    The engine "calls it through a capability set", and "the backend may
    write outgoing payload by setting [bytes_out] on the context".  This is
    what a backend call leaves in the fields the backend owns. *)
Record backend_writes : Type := mk_writes {
  w_impl_context : option nat;
  w_selected_mechanism : option string;
  w_bytes_out : string
}.

Definition with_backend (s : pni_sasl_t) (w : backend_writes) : pni_sasl_t :=
  mk_sasl (w_impl_context w) (client s) (w_selected_mechanism w)
    (included_mechanisms s) (username s) (password s) (config_name s)
    (config_dir s) (remote_fqdn s) (external_auth s) (external_ssf s)
    (outcome s) (w_bytes_out w) (desired_state s) (last_state s) (input_bypass s)
    (output_bypass s).

(** The four SASL io layers of sasl.c and the two of the engine that the
    SASL code installs. *)
Inductive pn_io_layer_t : Type :=
| sasl_header_layer
| sasl_write_header_layer
| sasl_read_header_layer
| sasl_layer
| pni_passthru_layer
| pni_error_layer
| other_layer (id : nat).

Definition layer_eqb (a b : pn_io_layer_t) : bool :=
  match a, b with
  | sasl_header_layer, sasl_header_layer
  | sasl_write_header_layer, sasl_write_header_layer
  | sasl_read_header_layer, sasl_read_header_layer
  | sasl_layer, sasl_layer
  | pni_passthru_layer, pni_passthru_layer
  | pni_error_layer, pni_error_layer => true
  | other_layer i, other_layer j => Nat.eqb i j
  | _, _ => false
  end.

(** Events the SASL code hands to the collector. *)
Inductive pn_event_type_t : Type :=
| PN_TRANSPORT
| PN_EVENT_OTHER (n : nat).

(** Modelled from the spec: [pn_collector_put] belongs to the engine's event
    code, which is not among the sources.  The collector is the sequence of
    events it was asked to record, "in the order state transitions occur". *)
Definition pn_collector_t : Type := list pn_event_type_t.

Record pn_connection_t : Type := mk_connection {
  collector : option pn_collector_t
}.

(** Modelled from the spec: [pn_transport_logf] is defined in transport.c,
    which is not among the sources.  A rejected request is "logged": one
    entry holds the format of the call and its arguments. *)
Inductive log_arg : Type :=
| ArgInt (n : Z)
| ArgStr (s : string).

Record log_entry : Type := Logf { log_fmt : string; log_args : list log_arg }.

(** Modelled from the spec: [pn_post_frame] belongs to the frame codec, which
    is not among the sources.  One call with type [SASL_FRAME_TYPE] on channel
    0 posts one of the five SASL performatives with the fields passed. *)
Inductive sasl_frame : Type :=
| SASL_INIT (mechanism : option string) (initial_response : string)
| SASL_MECHANISMS (symbols : list (option string))
| SASL_CHALLENGE (challenge : string)
| SASL_RESPONSE (response : string)
| SASL_OUTCOME (code : pn_sasl_outcome_t).

(** Calls into the mechanism backend, in the order they were made. *)
Inductive backend_call : Type :=
| Call_init_client
| Call_process_mechanisms (mechs : string)
| Call_list_mechs.

(** The part of [pn_transport_t] the SASL code touches. *)
Record pn_transport_t : Type := mk_transport {
  sasl : option pni_sasl_t;
  server : bool;
  connection : option pn_connection_t;
  trace : Z;
  close_sent : bool;
  io_layers : list pn_io_layer_t;
  condition : option (string * string);
  log : list log_entry;
  frames : list sasl_frame;
  backend_calls : list backend_call
}.

Definition with_sasl (t : pn_transport_t) (s : pni_sasl_t) : pn_transport_t :=
  mk_transport (Some s) (server t) (connection t) (trace t) (close_sent t)
    (io_layers t) (condition t) (log t) (frames t) (backend_calls t).

Definition with_connection (t : pn_transport_t) (c : option pn_connection_t) : pn_transport_t :=
  mk_transport (sasl t) (server t) c (trace t) (close_sent t)
    (io_layers t) (condition t) (log t) (frames t) (backend_calls t).

Definition with_close_sent (t : pn_transport_t) (b : bool) : pn_transport_t :=
  mk_transport (sasl t) (server t) (connection t) (trace t) b
    (io_layers t) (condition t) (log t) (frames t) (backend_calls t).

Definition with_io_layers (t : pn_transport_t) (l : list pn_io_layer_t) : pn_transport_t :=
  mk_transport (sasl t) (server t) (connection t) (trace t) (close_sent t)
    l (condition t) (log t) (frames t) (backend_calls t).

Definition with_condition (t : pn_transport_t) (c : option (string * string)) : pn_transport_t :=
  mk_transport (sasl t) (server t) (connection t) (trace t) (close_sent t)
    (io_layers t) c (log t) (frames t) (backend_calls t).

Definition pn_transport_logf (t : pn_transport_t) (fmt : string) (args : list log_arg) : pn_transport_t :=
  mk_transport (sasl t) (server t) (connection t) (trace t) (close_sent t)
    (io_layers t) (condition t) (log t ++ [Logf fmt args]) (frames t)
    (backend_calls t).

Definition pn_post_frame (t : pn_transport_t) (f : sasl_frame) : pn_transport_t :=
  mk_transport (sasl t) (server t) (connection t) (trace t) (close_sent t)
    (io_layers t) (condition t) (log t) (frames t ++ [f]) (backend_calls t).

Definition record_call (t : pn_transport_t) (c : backend_call) : pn_transport_t :=
  mk_transport (sasl t) (server t) (connection t) (trace t) (close_sent t)
    (io_layers t) (condition t) (log t) (frames t) (backend_calls t ++ [c]).

(** The events recorded so far; none when there is no collector. *)
Definition events (t : pn_transport_t) : list pn_event_type_t :=
  match connection t with
  | Some c => match collector c with Some q => q | None => [] end
  | None => []
  end.

Definition has_collector (t : pn_transport_t) : bool :=
  match connection t with
  | Some c => match collector c with Some _ => true | None => false end
  | None => false
  end.

(** ** The state machine *)

Definition pni_sasl_is_server_state (state : pni_sasl_state) : bool :=
  state_eqb state SASL_NONE
  || state_eqb state SASL_POSTED_MECHANISMS
  || state_eqb state SASL_POSTED_CHALLENGE
  || state_eqb state SASL_POSTED_OUTCOME.

Definition pni_sasl_is_client_state (state : pni_sasl_state) : bool :=
  state_eqb state SASL_NONE
  || state_eqb state SASL_POSTED_INIT
  || state_eqb state SASL_POSTED_RESPONSE
  || state_eqb state SASL_PRETEND_OUTCOME
  || state_eqb state SASL_RECVED_OUTCOME.

Definition pni_sasl_is_final_input_state (s : pni_sasl_t) : bool :=
  state_eqb (last_state s) SASL_RECVED_OUTCOME
  || state_eqb (desired_state s) SASL_POSTED_OUTCOME.

Definition pni_sasl_is_final_output_state (s : pni_sasl_t) : bool :=
  state_eqb (last_state s) SASL_PRETEND_OUTCOME
  || state_eqb (last_state s) SASL_RECVED_OUTCOME
  || state_eqb (last_state s) SASL_POSTED_OUTCOME.

Definition pni_emit (t : pn_transport_t) : pn_transport_t :=
  match connection t with
  | Some c =>
      match collector c with
      | Some q => with_connection t (Some (mk_connection (Some (q ++ [PN_TRANSPORT]))))
      | None => t
      end
  | None => t
  end.

(** ** The mechanism allow-list *)

(** The loop of [pni_included_mech]: [c] is the rest of the list from the
    current word on, [s] the symbol.  [strchr(c, ' ')] and the step past the
    space are the inner [fix]. *)
Fixpoint pni_included_mech_loop (c : string) (s : string) {struct c} : bool :=
  if Nat.ltb (String.length c) (String.length s) then false
  else if (pn_strncasecmp c s (String.length s) =? 0)
          && (is_sp (char_at c (String.length s)) || is_nul (char_at c (String.length s)))
  then true
  else
    (fix strchr_sp (r : string) : bool :=
       match r with
       | EmptyString => false
       | String ch r' => if is_sp ch then pni_included_mech_loop r' s else strchr_sp r'
       end) c.

Definition pni_included_mech (included_mech_list : option string) (s : string) : bool :=
  match included_mech_list with
  | None => true
  | Some l => pni_included_mech_loop (cstr l) s
  end.

(** ** Splitting the backend's mechanism list *)

(** A [char *mechs[n]]: a slot holds [None] until it is written. *)
Definition mech_array : Type := list (option string).

Definition uninitialised (n : nat) : mech_array := repeat None n.

Fixpoint array_set (a : mech_array) (i : nat) (v : string) : mech_array :=
  match a, i with
  | [], _ => []
  | _ :: r, O => Some v :: r
  | x :: r, S j => x :: array_set r j v
  end.

(** The store [mechs[n] = start] at [n], the value of the counter, which is
    then incremented. *)
Definition store_mech (mechs : mech_array) (count : Z) (start : string)
  : res (mech_array * Z) :=
  if (0 <=? count) && (count <? Z.of_nat (List.length mechs))
  then Ok (array_set mechs (Z.to_nat count) start, count + 1)
  else Undefined OutOfBounds.

Definition keep_mech (included_mechs : option string) (tok : string)
    (mechs : mech_array) (count : Z) : res (mech_array * Z) :=
  if pni_included_mech included_mechs tok
  then store_mech mechs count tok
  else Ok (mechs, count).

(** The [while] loop of [pni_split_mechs] and the code after it.
    [rest] is the list from [end] on, [tok] the characters between [start]
    and [end]; [start != end] is [tok] being non-empty. *)
Fixpoint pni_split_mechs_loop (rest : string) (tok : string)
    (included_mechs : option string) (mechs : mech_array) (count : Z)
  : res (mech_array * Z) :=
  match rest with
  | String ch rest' =>
      if is_nul ch then
        match tok with
        | EmptyString => Ok (mechs, count)
        | _ => keep_mech included_mechs tok mechs count
        end
      else if is_sp ch then
        match tok with
        | EmptyString => pni_split_mechs_loop rest' EmptyString included_mechs mechs count
        | _ =>
            ' (mechs', count') <- keep_mech included_mechs tok mechs count ;;
            pni_split_mechs_loop rest' EmptyString included_mechs mechs' count'
        end
      else
        pni_split_mechs_loop rest' (tok ++ String ch EmptyString)%string
          included_mechs mechs count
  | EmptyString =>
      match tok with
      | EmptyString => Ok (mechs, count)
      | _ => keep_mech included_mechs tok mechs count
      end
  end.

Definition pni_split_mechs (mechlist : string) (included_mechs : option string)
    (mechs : mech_array) (count : Z) : res (mech_array * Z) :=
  pni_split_mechs_loop mechlist EmptyString included_mechs mechs count.

(** Modelled from the spec: the classification [pni_sniff_header] returns is
    declared in transport/autodetect.h, which is not among the sources.  The
    spec lists the classes: "AMQP, AMQP-SASL, AMQP-TLS, insufficient, or
    other". *)
Inductive pni_protocol_type_t : Type :=
| PNI_PROTOCOL_INSUFFICIENT
| PNI_PROTOCOL_UNKNOWN
| PNI_PROTOCOL_AMQP_SSL
| PNI_PROTOCOL_AMQP_SASL
| PNI_PROTOCOL_AMQP1.

Definition SASL_HEADER_LEN : Z := 8.

(** Modelled from the spec: [pn_do_error] is defined in the engine's
    transport.c, which is not among the sources.  It "emits a transport
    error": the condition name and the formatted description are recorded on
    the transport. *)
Definition pn_do_error (t : pn_transport_t) (name description : string) : pn_transport_t :=
  with_condition t (Some (name, description)).

(** Modelled from the spec: [pn_set_error_layer] is defined in transport.c,
    which is not among the sources; after a framing error every slot of the
    layer stack holds the error layer. *)
Definition pn_set_error_layer (t : pn_transport_t) : pn_transport_t :=
  with_io_layers t (map (fun _ => pni_error_layer) (io_layers t)).

(** [a[i] = v] on the layer stack. *)
Fixpoint layers_set (a : list pn_io_layer_t) (i : nat) (v : pn_io_layer_t)
  : res (list pn_io_layer_t) :=
  match a, i with
  | [], _ => Undefined OutOfBounds
  | _ :: r, O => Ok (v :: r)
  | x :: r, S j => r' <- layers_set r j v ;; Ok (x :: r')
  end.

Definition layers_get (a : list pn_io_layer_t) (i : nat) : res pn_io_layer_t :=
  match nth_error a i with
  | Some l => Ok l
  | None => Undefined OutOfBounds
  end.

(** Modelled from the spec: [pn_data_scan], [pn_data_next] and
    [pn_data_get_symbol] belong to the codec, which is not among the sources.
    The decoded argument of a "MECHANISMS{symbols}" frame is the result of
    the scan that enters the array and the symbols then read from it, each
    NUL-terminated in the decoder's buffer. *)
Record mechanisms_args : Type := mk_args {
  scan_err : Z;
  symbols : list string
}.

(** Modelled from the spec: [pn_string_addf] belongs to the engine's string
    object, which is not among the sources; the symbols are "concatenated
    space-separated".  With the format ["%*s "] it appends the symbol, read as
    a C string and right-justified in a field [s.size] wide, then a space. *)
Definition addf_symbol (mechs : string) (s : string) : string :=
  let a := cstr s in
  (mechs ++ string_of_list_ascii (repeat SP (String.length s - String.length a))
         ++ a ++ String SP EmptyString)%string.

(** [pn_string_buffer(mechs)[pn_string_size(mechs)-1] = 0], on the
    characters of the string object. *)
Fixpoint nul_last (s : string) : string :=
  match s with
  | EmptyString => EmptyString
  | String c EmptyString => String NUL EmptyString
  | String c r => String c (nul_last r)
  end.

Definition log_later_state : string :=
  "Trying to send SASL frame (%d), but illegal: already in later state (%d)".
Definition log_server_frame_on_client : string :=
  "Trying to send server SASL frame (%d) on a client".
Definition log_client_frame_on_server : string :=
  "Trying to send client SASL frame (%d) on a server".
Definition log_frame_in : string := "  <- %s".

Definition framing_error : string := "amqp:connection:framing-error".

(** The text [pn_do_error] formats from
    ["%s header mismatch: %s ['%s']%s"]. *)
Definition header_mismatch (protocol_name quoted : string) (eos : bool) : string :=
  ("SASL" ++ " header mismatch: " ++ protocol_name ++ " ['" ++ quoted ++ "']"
     ++ (if negb eos then "" else " (connection aborted)"))%string.

Section Engine.

(** The integer value of each enumerator of [enum pni_sasl_state]. *)
Variable state_code : pni_sasl_state -> Z.

(** The mechanism backend (cyrus or the built-in one), outside the sources:
    each call returns its verdict and what it leaves in the fields it owns. *)
Variable pni_init_client : pn_transport_t -> bool * backend_writes.
Variable pni_process_mechanisms : pn_transport_t -> string -> bool * backend_writes.
Variable pni_sasl_impl_list_mechs : pn_transport_t -> Z * option string.

(** The rest of the engine the header reader calls. *)
Variable PN_EOS : Z.
Variable PN_TRACE_FRM : Z.
Variable pn_transport_capacity : pn_transport_t -> Z.
Variable pni_sniff_header : string -> pni_protocol_type_t.
Variable pni_protocol_name : pni_protocol_type_t -> string.
Variable pn_quote_data : nat -> string -> string.
Variable pn_ssl_get_ssf : pn_transport_t -> Z.
Variable pn_ssl_get_remote_subject : pn_transport_t -> option string.

Definition backend_returns (t : pn_transport_t) (c : backend_call)
    (r : bool * backend_writes) : res (pn_transport_t * bool) :=
  s <- deref (sasl t) ;;
  Ok (record_call (with_sasl t (with_backend s (snd r))) c, fst r).

Definition pni_sasl_set_desired_state (t : pn_transport_t) (desired : pni_sasl_state)
  : res pn_transport_t :=
  s <- deref (sasl t) ;;
  if state_code (last_state s) >? state_code desired then
    Ok (pn_transport_logf t log_later_state
          [ArgInt (state_code desired); ArgInt (state_code (last_state s))])
  else if client s && negb (pni_sasl_is_client_state desired) then
    Ok (pn_transport_logf t log_server_frame_on_client [ArgInt (state_code desired)])
  else if negb (client s) && negb (pni_sasl_is_server_state desired) then
    Ok (pn_transport_logf t log_client_frame_on_server [ArgInt (state_code desired)])
  else
    let s1 :=
      if state_eqb (last_state s) desired && state_eqb desired SASL_POSTED_RESPONSE
      then with_last_state s SASL_POSTED_INIT else s in
    let s2 :=
      if state_eqb (last_state s1) desired && state_eqb desired SASL_POSTED_CHALLENGE
      then with_last_state s1 SASL_POSTED_MECHANISMS else s1 in
    let s3 := with_desired_state s2 desired in
    Ok (pni_emit (with_sasl t s3)).

(** The SASL_POSTED_MECHANISMS case of [pni_post_sasl_frame]: the array of 16
    pointers, the split of the backend's list into it, and the frame built
    from its first [count] slots. *)
Definition post_mechanisms (t : pn_transport_t) (s : pni_sasl_t) : res pn_transport_t :=
  let mechs := uninitialised 16 in
  let count := 0 in
  let r := pni_sasl_impl_list_mechs t in
  let t := record_call t Call_list_mechs in
  ' (mechs, count) <-
      (if fst r >? 0 then
         mechlist <- deref (snd r) ;;
         pni_split_mechs mechlist (included_mechanisms s) mechs count
       else Ok (mechs, count)) ;;
  Ok (pni_emit (pn_post_frame t (SASL_MECHANISMS (firstn (Z.to_nat count) mechs)))).

(** The loop of [pni_post_sasl_frame].  [desired] is the local
    [desired_state], [out] the local copy of [bytes_out].  A [continue] is the
    recursive call on the same transport; leaving the [switch] by [break]
    stores [desired] into [last_state] and reloads the local from the
    context. *)
Fixpoint pni_post_sasl_frame_loop (fuel : nat) (out : string) (t : pn_transport_t)
    (desired : pni_sasl_state) {struct fuel} : res pn_transport_t :=
  match fuel with
  | O => OutOfFuel
  | S fuel' =>
      s <- deref (sasl t) ;;
      let break (t' : pn_transport_t) : res pn_transport_t :=
        pni_post_sasl_frame_loop fuel' out
          (with_sasl t' (with_last_state s desired)) (desired_state s) in
      if state_code (desired_state s) >? state_code (last_state s) then
        match desired with
        | SASL_POSTED_INIT =>
            break (pni_emit (pn_post_frame t (SASL_INIT (selected_mechanism s) out)))
        | SASL_PRETEND_OUTCOME =>
            if state_code (last_state s) <? state_code SASL_POSTED_INIT
            then pni_post_sasl_frame_loop fuel' out t SASL_POSTED_INIT
            else break t
        | SASL_POSTED_MECHANISMS =>
            t' <- post_mechanisms t s ;; break t'
        | SASL_POSTED_RESPONSE =>
            break (pni_emit (pn_post_frame t (SASL_RESPONSE out)))
        | SASL_POSTED_CHALLENGE =>
            if state_code (last_state s) <? state_code SASL_POSTED_MECHANISMS
            then pni_post_sasl_frame_loop fuel' out t SASL_POSTED_MECHANISMS
            else break (pni_emit (pn_post_frame t (SASL_CHALLENGE out)))
        | SASL_POSTED_OUTCOME =>
            if state_code (last_state s) <? state_code SASL_POSTED_MECHANISMS
            then pni_post_sasl_frame_loop fuel' out t SASL_POSTED_MECHANISMS
            else break (pni_emit (pn_post_frame t (SASL_OUTCOME (outcome s))))
        | SASL_RECVED_OUTCOME =>
            if (state_code (last_state s) <? state_code SASL_POSTED_INIT)
               && outcome_eqb (outcome s) PN_SASL_OK
            then pni_post_sasl_frame_loop fuel' out t SASL_POSTED_INIT
            else break t
        | SASL_NONE => Ok t
        end
      else Ok t
  end.

Definition pni_post_sasl_frame (fuel : nat) (t : pn_transport_t) : res pn_transport_t :=
  s <- deref (sasl t) ;;
  pni_post_sasl_frame_loop fuel (bytes_out s) t (desired_state s).

(** [pn_sasl]: the context is allocated on the first call.
    [sasl_config_path] is [getenv("PN_SASL_CONFIG_PATH")]. *)
Definition pn_sasl (sasl_config_path : option string) (t : pn_transport_t) : pn_transport_t :=
  match sasl t with
  | Some _ => t
  | None =>
      with_sasl t
        {| impl_context := None;
           client := negb (server t);
           selected_mechanism := None;
           included_mechanisms := None;
           username := None;
           password := None;
           config_name := Some (if negb (server t) then "proton-client" else "proton-server");
           config_dir := option_map pn_strdup sasl_config_path;
           remote_fqdn := None;
           external_auth := None;
           external_ssf := 0;
           outcome := PN_SASL_NONE;
           bytes_out := EmptyString;
           desired_state := SASL_NONE;
           last_state := SASL_NONE;
           input_bypass := false;
           output_bypass := false |}
  end.

(** The failure branch shared by [pni_sasl_force_anonymous] and
    [pn_do_mechanisms]: [sasl->outcome = PN_SASL_PERM] and the request for
    SASL_RECVED_OUTCOME. *)
Definition fail_perm (t : pn_transport_t) : res pn_transport_t :=
  s <- deref (sasl t) ;;
  pni_sasl_set_desired_state (with_sasl t (with_outcome s PN_SASL_PERM)) SASL_RECVED_OUTCOME.

(** [pni_init_client(transport) && pni_process_mechanisms(transport, mechs)] *)
Definition init_and_process (t : pn_transport_t) (mechs : string)
  : res (pn_transport_t * bool) :=
  ' (t1, ok1) <- backend_returns t Call_init_client (pni_init_client t) ;;
  if ok1 : bool then
    backend_returns t1 (Call_process_mechanisms (cstr mechs))
      (pni_process_mechanisms t1 (cstr mechs))
  else Ok (t1, false).

Definition pni_sasl_force_anonymous (t : pn_transport_t) : res pn_transport_t :=
  s <- deref (sasl t) ;;
  if client s then
    ' (t', ok) <- init_and_process t "ANONYMOUS" ;;
    if ok : bool then pni_sasl_set_desired_state t' SASL_PRETEND_OUTCOME
    else fail_perm t'
  else Ok t.

Definition pni_sasl_set_external_security (t : pn_transport_t) (ssf : Z)
    (authid : option string) : res pn_transport_t :=
  s <- deref (sasl t) ;;
  Ok (with_sasl t (with_external s ssf (option_map pn_strdup authid))).

(** [pn_do_mechanisms], the handler of a received MECHANISMS frame. *)
Definition pn_do_mechanisms (t : pn_transport_t) (args : mechanisms_args)
  : res (pn_transport_t * Z) :=
  s <- deref (sasl t) ;;
  if state_eqb (last_state s) SASL_PRETEND_OUTCOME then Ok (t, 0)
  else if negb (scan_err args =? 0) then Ok (t, scan_err args)
  else
    let mechs :=
      fold_left
        (fun mechs sym =>
           if pni_included_mech (included_mechanisms s) sym
           then addf_symbol mechs sym else mechs)
        (symbols args) EmptyString in
    let mechs :=
      if negb (Nat.eqb (String.length mechs) 0) then nul_last mechs else mechs in
    ' (t', ok) <- init_and_process t mechs ;;
    t'' <- (if ok : bool then pni_sasl_set_desired_state t' SASL_POSTED_INIT
            else fail_perm t') ;;
    Ok (t'', 0).

(** [pn_input_read_sasl_header] *)
Definition pn_input_read_sasl_header (t : pn_transport_t) (layer : nat)
    (bytes : string) : res (pn_transport_t * Z) :=
  let available := String.length bytes in
  let eos := pn_transport_capacity t =? PN_EOS in
  let protocol := pni_sniff_header bytes in
  let mismatch :=
    let t1 := with_close_sent t true in
    let quoted := pn_quote_data 1024 bytes in
    let t2 := pn_do_error t1 framing_error
                (header_mismatch (pni_protocol_name protocol) quoted eos) in
    Ok (pn_set_error_layer t2, PN_EOS) in
  match protocol with
  | PNI_PROTOCOL_AMQP_SASL =>
      cur <- layers_get (io_layers t) layer ;;
      ls <- layers_set (io_layers t) layer
              (if layer_eqb cur sasl_read_header_layer then sasl_layer
               else sasl_write_header_layer) ;;
      let t1 := with_io_layers t ls in
      let t2 := if negb (Z.land (trace t1) PN_TRACE_FRM =? 0)
                then pn_transport_logf t1 log_frame_in [ArgStr "SASL"] else t1 in
      t3 <- pni_sasl_set_external_security t2 (pn_ssl_get_ssf t2)
              (pn_ssl_get_remote_subject t2) ;;
      Ok (t3, SASL_HEADER_LEN)
  | PNI_PROTOCOL_INSUFFICIENT =>
      if negb eos then Ok (t, 0) else mismatch
  | _ => mismatch
  end.

(** ** The public handle

    A [pn_sasl_t *] is the address of the enclosing transport, or null. *)
Definition heap : Type := nat -> option pn_transport_t.

Definition load (m : heap) (a : nat) : res pn_transport_t :=
  match m a with
  | Some t => Ok t
  | None => Undefined Dangling
  end.

Definition store (m : heap) (a : nat) (t : pn_transport_t) : heap :=
  fun a' => if Nat.eqb a' a then Some t else m a'.

(** [get_sasl_internal]: the context of the transport behind the handle, with
    the address it is owned at; null for a null handle. *)
Definition get_sasl_internal (m : heap) (sasl0 : option nat)
  : res (option (nat * pni_sasl_t)) :=
  match sasl0 with
  | Some a =>
      t <- load m a ;;
      Ok (match sasl t with Some s => Some (a, s) | None => None end)
  | None => Ok None
  end.

(** [get_transport_internal] *)
Definition get_transport_internal (sasl0 : option nat) : option nat := sasl0.

Definition pn_sasl_done (m : heap) (sasl0 : option nat) (o : pn_sasl_outcome_t)
  : res heap :=
  p <- get_sasl_internal m sasl0 ;;
  match p with
  | Some (a, s) => t <- load m a ;; Ok (store m a (with_sasl t (with_outcome s o)))
  | None => Ok m
  end.

Definition pn_sasl_outcome (m : heap) (sasl0 : option nat) : res pn_sasl_outcome_t :=
  p <- get_sasl_internal m sasl0 ;;
  match p with
  | Some (_, s) => Ok (outcome s)
  | None => Ok PN_SASL_NONE
  end.

Definition pn_sasl_allowed_mechs (m : heap) (sasl0 : option nat) (mechs : option string)
  : res heap :=
  p <- get_sasl_internal m sasl0 ;;
  ' (a, s) <- deref p ;;
  t <- load m a ;;
  let t1 := with_sasl t (with_included_mechanisms s (option_map pn_strdup mechs)) in
  let m1 := store m a t1 in
  arg <- deref mechs ;;
  if strcmp_eq arg "ANONYMOUS" then
    a' <- deref (get_transport_internal sasl0) ;;
    t' <- load m1 a' ;;
    t'' <- pni_sasl_force_anonymous t' ;;
    Ok (store m1 a' t'')
  else Ok m1.

(** ** Runs of the state machine

    One step of a run is a call of [pni_sasl_set_desired_state], a call of
    [pni_post_sasl_frame], or anything else the engine or the backend does to
    the transport, which leaves the role and the two state fields alone:
    these two functions and [pn_sasl] are the only code that assigns them. *)
Definition same_machine (s s' : pni_sasl_t) : Prop :=
  client s' = client s /\ last_state s' = last_state s
  /\ desired_state s' = desired_state s.

Inductive sasl_step : pn_transport_t -> pn_transport_t -> Prop :=
| step_set_desired_state (t t' : pn_transport_t) (st : pni_sasl_state) :
    pni_sasl_set_desired_state t st = Ok t' -> sasl_step t t'
| step_post_sasl_frame (t t' : pn_transport_t) (fuel : nat) :
    pni_post_sasl_frame fuel t = Ok t' -> sasl_step t t'
| step_elsewhere (t t' : pn_transport_t) (s s' : pni_sasl_t) :
    sasl t = Some s -> sasl t' = Some s' -> same_machine s s' -> sasl_step t t'.

Inductive reachable : pn_transport_t -> Prop :=
| reach_pn_sasl (cfg : option string) (t : pn_transport_t) :
    sasl t = None -> reachable (pn_sasl cfg t)
| reach_step (t t' : pn_transport_t) :
    reachable t -> sasl_step t t' -> reachable t'.

(** The states legal for a role: the client states on a client, the server
    states on a server. *)
Definition role_legal (is_client : bool) (st : pni_sasl_state) : bool :=
  if is_client then pni_sasl_is_client_state st else pni_sasl_is_server_state st.

(** A request is applied when it is no downgrade and the state is legal for
    the role of the context. *)
Definition request_applied (s : pni_sasl_t) (st : pni_sasl_state) : bool :=
  (state_code (last_state s) <=? state_code st) && role_legal (client s) st.

End Engine.

(** What the code relies on in the numbering of [enum pni_sasl_state]:
    SASL_NONE is the least value, a state that another one is rewound to or
    requires first has the smaller value, and (as the [case] labels of one
    [switch]) the values are pairwise distinct. *)
Definition well_numbered (state_code : pni_sasl_state -> Z) : Prop :=
  (forall st, state_code SASL_NONE <= state_code st)
  /\ (forall a b, state_code a = state_code b -> a = b)
  /\ state_code SASL_POSTED_INIT < state_code SASL_POSTED_RESPONSE
  /\ state_code SASL_POSTED_INIT < state_code SASL_PRETEND_OUTCOME
  /\ state_code SASL_POSTED_INIT < state_code SASL_RECVED_OUTCOME
  /\ state_code SASL_POSTED_MECHANISMS < state_code SASL_POSTED_CHALLENGE
  /\ state_code SASL_POSTED_MECHANISMS < state_code SASL_POSTED_OUTCOME.

(** A numbering to run the functions with on concrete contexts; it starts at
    0 for SASL_NONE and is [well_numbered].  The general theorems hold for
    every such numbering. *)
Definition enum_code (st : pni_sasl_state) : Z :=
  match st with
  | SASL_NONE => 0
  | SASL_POSTED_INIT => 1
  | SASL_POSTED_MECHANISMS => 2
  | SASL_POSTED_RESPONSE => 3
  | SASL_POSTED_CHALLENGE => 4
  | SASL_PRETEND_OUTCOME => 5
  | SASL_RECVED_OUTCOME => 6
  | SASL_POSTED_OUTCOME => 7
  end.

(** A transport before [pn_sasl], with a connection and a collector. *)
Definition fresh_transport (is_server : bool) : pn_transport_t :=
  {| sasl := None;
     server := is_server;
     connection := Some (mk_connection (Some []));
     trace := 0;
     close_sent := false;
     io_layers := [sasl_header_layer; other_layer 0];
     condition := None;
     log := [];
     frames := [];
     backend_calls := [] |}.

Definition new_client : pn_transport_t := pn_sasl None (fresh_transport false).
Definition new_server : pn_transport_t := pn_sasl None (fresh_transport true).

(** The same transport with the state machine put at [last] and [desired]. *)
Definition at_states (t : pn_transport_t) (last desired : pni_sasl_state) : pn_transport_t :=
  match sasl t with
  | Some s => with_sasl t (with_desired_state (with_last_state s last) desired)
  | None => t
  end.

(** ** Reference definitions

    What the specification says in its own terms, to compare the code with. *)

(** The fields of a space-separated list, empty ones included. *)
Fixpoint fields (s : string) : list string :=
  match s with
  | EmptyString => [EmptyString]
  | String c r =>
      if is_sp c then EmptyString :: fields r
      else match fields r with
           | f :: fs => String c f :: fs
           | [] => [String c EmptyString]
           end
  end.

Definition non_empty (s : string) : bool :=
  match s with
  | EmptyString => false
  | _ => true
  end.

(** The mechanisms a space-separated advertisement names. *)
Definition mech_tokens (mechlist : string) : list string :=
  filter non_empty (fields (cstr mechlist)).

(** Those of them the allow-list admits. *)
Definition admitted (included_mechs : option string) (mechlist : string) : list string :=
  filter (pni_included_mech included_mechs) (mech_tokens mechlist).

(** An array of [n] slots whose first slots hold [l]. *)
Definition filled (n : nat) (l : list string) : mech_array :=
  map Some l ++ repeat None (n - List.length l).

Section Drain.

Variable state_code : pni_sasl_state -> Z.
Variable pni_sasl_impl_list_mechs : pn_transport_t -> Z * option string.

(** The state a target must be preceded by, when the context has not yet got
    that far (the table of section 4.4 of the specification). *)
Definition prerequisite (s : pni_sasl_t) (target : pni_sasl_state) : option pni_sasl_state :=
  match target with
  | SASL_POSTED_CHALLENGE | SASL_POSTED_OUTCOME =>
      if state_code (last_state s) <? state_code SASL_POSTED_MECHANISMS
      then Some SASL_POSTED_MECHANISMS else None
  | SASL_PRETEND_OUTCOME =>
      if state_code (last_state s) <? state_code SASL_POSTED_INIT
      then Some SASL_POSTED_INIT else None
  | SASL_RECVED_OUTCOME =>
      if (state_code (last_state s) <? state_code SASL_POSTED_INIT)
         && outcome_eqb (outcome s) PN_SASL_OK
      then Some SASL_POSTED_INIT else None
  | _ => None
  end.

(** The states a drain passes through, in order. *)
Definition drain_plan (s : pni_sasl_t) : list pni_sasl_state :=
  if state_code (desired_state s) >? state_code (last_state s) then
    match prerequisite s (desired_state s) with
    | Some p => [p; desired_state s]
    | None => [desired_state s]
    end
  else [].

(** Posting the frame declared for a target state, with the transport event
    that goes with it; the two outcome targets have no frame. *)
Definition post_declared_frame (t : pn_transport_t) (s : pni_sasl_t)
    (target : pni_sasl_state) : res pn_transport_t :=
  match target with
  | SASL_POSTED_INIT =>
      Ok (pni_emit (pn_post_frame t (SASL_INIT (selected_mechanism s) (bytes_out s))))
  | SASL_POSTED_MECHANISMS => post_mechanisms pni_sasl_impl_list_mechs t s
  | SASL_POSTED_RESPONSE =>
      Ok (pni_emit (pn_post_frame t (SASL_RESPONSE (bytes_out s))))
  | SASL_POSTED_CHALLENGE =>
      Ok (pni_emit (pn_post_frame t (SASL_CHALLENGE (bytes_out s))))
  | SASL_POSTED_OUTCOME =>
      Ok (pni_emit (pn_post_frame t (SASL_OUTCOME (outcome s))))
  | SASL_PRETEND_OUTCOME | SASL_RECVED_OUTCOME | SASL_NONE => Ok t
  end.

(** One step of a drain: post the frame of the target and make the target
    the last state. *)
Definition pass_through (t : pn_transport_t) (target : pni_sasl_state) : res pn_transport_t :=
  s <- deref (sasl t) ;;
  t' <- post_declared_frame t s target ;;
  Ok (with_sasl t' (with_last_state s target)).

Fixpoint drain (plan : list pni_sasl_state) (t : pn_transport_t) : res pn_transport_t :=
  match plan with
  | [] => Ok t
  | target :: plan' => t' <- pass_through t target ;; drain plan' t'
  end.

(** The backend's advertisement fits the array of 16 pointers. *)
Definition mechs_fit (t : pn_transport_t) (s : pni_sasl_t) : Prop :=
  fst (pni_sasl_impl_list_mechs t) > 0 ->
  exists mechlist,
    snd (pni_sasl_impl_list_mechs t) = Some mechlist
    /\ (List.length (admitted (included_mechanisms s) mechlist) <= 16)%nat.

(** The symbols of the MECHANISMS frame a server in this state posts. *)
Definition advertised (t : pn_transport_t) (s : pni_sasl_t) : list (option string) :=
  if fst (pni_sasl_impl_list_mechs t) >? 0 then
    match snd (pni_sasl_impl_list_mechs t) with
    | Some mechlist => map Some (admitted (included_mechanisms s) mechlist)
    | None => []
    end
  else [].

(** The frame declared for a target state. *)
Definition declared_frame (t : pn_transport_t) (s : pni_sasl_t)
    (target : pni_sasl_state) : list sasl_frame :=
  match target with
  | SASL_POSTED_INIT => [SASL_INIT (selected_mechanism s) (bytes_out s)]
  | SASL_POSTED_MECHANISMS => [SASL_MECHANISMS (advertised t s)]
  | SASL_POSTED_RESPONSE => [SASL_RESPONSE (bytes_out s)]
  | SASL_POSTED_CHALLENGE => [SASL_CHALLENGE (bytes_out s)]
  | SASL_POSTED_OUTCOME => [SASL_OUTCOME (outcome s)]
  | SASL_PRETEND_OUTCOME | SASL_RECVED_OUTCOME | SASL_NONE => []
  end.

End Drain.

(** A state the drain stops at on the way to the desired state [D]. *)
Definition way_station (D d : pni_sasl_state) : Prop :=
  (d = SASL_POSTED_INIT /\ (D = SASL_PRETEND_OUTCOME \/ D = SASL_RECVED_OUTCOME))
  \/ (d = SASL_POSTED_MECHANISMS
      /\ (D = SASL_POSTED_CHALLENGE \/ D = SASL_POSTED_OUTCOME)).

(** States only one of the two roles may hold. *)
Definition server_only (st : pni_sasl_state) : bool :=
  pni_sasl_is_server_state st && negb (pni_sasl_is_client_state st).

Definition client_only (st : pni_sasl_state) : bool :=
  pni_sasl_is_client_state st && negb (pni_sasl_is_server_state st).

(** Calls of the two functions of the state machine, to run it with. *)
Inductive machine_call : Type :=
| Call_set_desired_state (st : pni_sasl_state)
| Call_post_sasl_frame.

Fixpoint run_calls (state_code : pni_sasl_state -> Z)
    (list_mechs : pn_transport_t -> Z * option string)
    (calls : list machine_call) (t : pn_transport_t) : res pn_transport_t :=
  match calls with
  | [] => Ok t
  | Call_set_desired_state st :: calls' =>
      t' <- pni_sasl_set_desired_state state_code t st ;;
      run_calls state_code list_mechs calls' t'
  | Call_post_sasl_frame :: calls' =>
      t' <- pni_post_sasl_frame state_code list_mechs 4 t ;;
      run_calls state_code list_mechs calls' t'
  end.

(** A backend with nothing to advertise, and one that advertises PLAIN and
    ANONYMOUS. *)
Definition no_mechs (t : pn_transport_t) : Z * option string := (0, None).
Definition two_mechs (t : pn_transport_t) : Z * option string :=
  (2, Some "PLAIN ANONYMOUS").

Definition after_calls (list_mechs : pn_transport_t -> Z * option string)
    (calls : list machine_call) (t : pn_transport_t) : pn_transport_t :=
  match run_calls enum_code list_mechs calls t with
  | Ok t' => t'
  | _ => t
  end.

(** A client that has sent INIT and one RESPONSE; a server that has sent
    MECHANISMS and one CHALLENGE. *)
Definition client_after_response : pn_transport_t :=
  Eval vm_compute in
    after_calls no_mechs
      [Call_set_desired_state SASL_POSTED_INIT; Call_post_sasl_frame;
       Call_set_desired_state SASL_POSTED_RESPONSE; Call_post_sasl_frame]
      new_client.

Definition server_after_challenge : pn_transport_t :=
  Eval vm_compute in
    after_calls two_mechs
      [Call_set_desired_state SASL_POSTED_MECHANISMS; Call_post_sasl_frame;
       Call_set_desired_state SASL_POSTED_CHALLENGE; Call_post_sasl_frame]
      new_server.

(** The allow-list in the words of the specification: "case-insensitive
    match against the allow-list, delimited by space or end-of-string". *)
Fixpoint lower (s : string) : string :=
  match s with
  | EmptyString => EmptyString
  | String c r => String (tolower c) (lower r)
  end.

(** What follows a listed word: the end of the list or a space. *)
Definition word_end (post : string) : Prop :=
  post = EmptyString \/ exists r, post = String SP r.

(** [c] begins with [sym], up to case, and a delimiter follows. *)
Definition matches_here (c sym : string) : Prop :=
  exists w post,
    c = (w ++ post)%string
    /\ String.length w = String.length sym
    /\ lower w = lower sym
    /\ word_end post.

(** [c] is the list [l] from the start of one of its words on: all of [l],
    or what follows one of its spaces. *)
Definition word_start_of (l c : string) : Prop :=
  c = l \/ exists pre, l = (pre ++ String SP c)%string.

Definition listed (l sym : string) : Prop :=
  exists c, word_start_of l c /\ matches_here c sym.

(** The space-separated concatenation of a list of symbols. *)
Fixpoint join_sp (l : list string) : string :=
  match l with
  | [] => EmptyString
  | [x] => x
  | x :: r => (x ++ String SP (join_sp r))%string
  end.

(** [strchr(c, ' ')], the step past the space, and the rest of the loop of
    [pni_included_mech]. *)
Definition after_first_space (s : string) : string -> bool :=
  fix strchr_sp (r : string) : bool :=
    match r with
    | EmptyString => false
    | String ch r' => if is_sp ch then pni_included_mech_loop r' s else strchr_sp r'
    end.

(** The transport after a backend call has returned [r]. *)
Definition after_backend (t : pn_transport_t) (s : pni_sasl_t) (c : backend_call)
    (r : bool * backend_writes) : pn_transport_t :=
  record_call (with_sasl t (with_backend s (snd r))) c.

(** A backend that accepts every offer and selects PLAIN. *)
Definition accepting_init (t : pn_transport_t) : bool * backend_writes :=
  (true, mk_writes (Some 1%nat) None "").
Definition accepting_mechs (t : pn_transport_t) (mechs : string) : bool * backend_writes :=
  (true, mk_writes (Some 1%nat) (Some "PLAIN") "").

(** A client before the MECHANISMS frame, allowing PLAIN and ANONYMOUS. *)
Definition client_allowing_two : pn_transport_t :=
  match sasl new_client with
  | Some s => with_sasl new_client (with_included_mechanisms s (Some "PLAIN ANONYMOUS"))
  | None => new_client
  end.

Definition three_symbols : mechanisms_args :=
  {| scan_err := 0; symbols := ["GSSAPI"; "PLAIN"; "ANONYMOUS"] |}.

(** [sub] occurs in [s]. *)
Definition contains (sub s : string) : Prop :=
  exists pre post, s = (pre ++ sub ++ post)%string.

(** Seventeen mechanisms, and a backend that advertises them. *)
Definition seventeen_mechs : string := "A B C D E F G H I J K L M N O P Q".
Definition many_mechs (t : pn_transport_t) : Z * option string :=
  (17, Some seventeen_mechs).

(** A memory holding one transport, at address 0. *)
Definition one_transport (t : pn_transport_t) : heap :=
  fun a => if Nat.eqb a 0 then Some t else None.

(** [SASL_HEADER], the eight bytes ["AMQP\x03\x01\x00\x00"]. *)
Definition SASL_HEADER : string :=
  String "A" (String "M" (String "Q" (String "P"
    (String (ascii_of_nat 3) (String (ascii_of_nat 1)
      (String NUL (String NUL EmptyString))))))).

(** An engine to run the header reader with.  Modelled from the spec: the
    sniffer "reads exactly 8 bytes" and tells the SASL header from other
    bytes; the transport has capacity left; printable bytes are quoted as
    they are. *)
Definition example_sniff (bytes : string) : pni_protocol_type_t :=
  if Nat.ltb (String.length bytes) 8 then PNI_PROTOCOL_INSUFFICIENT
  else if String.eqb (String.substring 0 8 bytes) SASL_HEADER then PNI_PROTOCOL_AMQP_SASL
  else PNI_PROTOCOL_UNKNOWN.

Definition example_protocol_name (p : pni_protocol_type_t) : string :=
  match p with
  | PNI_PROTOCOL_INSUFFICIENT => "Insufficient data to determine protocol"
  | PNI_PROTOCOL_UNKNOWN => "Unknown protocol"
  | PNI_PROTOCOL_AMQP_SSL => "AMQP SSL"
  | PNI_PROTOCOL_AMQP_SASL => "AMQP SASL"
  | PNI_PROTOCOL_AMQP1 => "AMQP"
  end.

Definition example_quote (size : nat) (bytes : string) : string := bytes.

Definition example_read_sasl_header
  : pn_transport_t -> nat -> string -> res (pn_transport_t * Z) :=
  pn_input_read_sasl_header (-1) 2 (fun _ => 1024) example_sniff
    example_protocol_name example_quote (fun _ => 0) (fun _ => None).

(** ** The C++ connection driver *)

Module ConnectionDriver.

(** Modelled from the spec: the class [proton::error_condition] is declared
    in a header that is not among the sources; a condition has a name and a
    description. *)
Record error_condition : Type := mk_error {
  name : string;
  description : string
}.

(** Modelled from the spec: [pn_condition_t] belongs to the C library.  The
    transport condition is unset, or holds what it was set to. *)
Definition pn_condition_t : Type := option error_condition.

(** The part of [pn_connection_driver_t] that [disconnected] reaches: the
    condition of the transport and the two halves of the connection. *)
Record pn_connection_driver_t : Type := mk_driver {
  transport_condition : pn_condition_t;
  read_closed : bool;
  write_closed : bool
}.

Section Disconnected.

(** The three functions [disconnected] calls are defined outside the
    sources. *)
Variable pn_condition_is_set : pn_condition_t -> bool.
Variable set_error_condition : error_condition -> pn_condition_t -> pn_condition_t.
Variable pn_connection_driver_close : pn_connection_driver_t -> pn_connection_driver_t.

(** [connection_driver::disconnected] *)
Definition disconnected (err : error_condition) (driver_ : pn_connection_driver_t)
  : pn_connection_driver_t :=
  let condition := transport_condition driver_ in
  let driver_ :=
    if negb (pn_condition_is_set condition)
    then mk_driver (set_error_condition err condition)
           (read_closed driver_) (write_closed driver_)
    else driver_ in
  pn_connection_driver_close driver_.

End Disconnected.

(** Modelled from the spec: [pn_condition_is_set], of the C library, tells
    whether the condition is set. *)
Definition condition_is_set (c : pn_condition_t) : bool :=
  match c with
  | Some _ => true
  | None => false
  end.

(** Modelled from the spec: [set_error_condition], of proton_bits.cpp, "sets
    the transport condition" to the given error. *)
Definition set_condition (err : error_condition) (c : pn_condition_t) : pn_condition_t :=
  Some err.

(** Modelled from the spec: [pn_connection_driver_close], of the C library,
    "closes both halves". *)
Definition close_driver (d : pn_connection_driver_t) : pn_connection_driver_t :=
  mk_driver (transport_condition d) true true.

Definition open_driver : pn_connection_driver_t := mk_driver None false false.
Definition first_error : error_condition := mk_error "amqp:connection:forced" "peer went away".
Definition second_error : error_condition := mk_error "amqp:internal-error" "late".

End ConnectionDriver.

(** The value [last_state] has after an applied request. *)
Definition rewound (s : pni_sasl_t) (st : pni_sasl_state) : pni_sasl_state :=
  if state_eqb (last_state s) st && state_eqb st SASL_POSTED_RESPONSE
  then SASL_POSTED_INIT
  else if state_eqb (last_state s) st && state_eqb st SASL_POSTED_CHALLENGE
  then SASL_POSTED_MECHANISMS
  else last_state s.

(** Storing the strings of [l] one after the other. *)
Fixpoint store_all (l : list string) (mechs : mech_array) (count : Z)
  : res (mech_array * Z) :=
  match l with
  | [] => Ok (mechs, count)
  | x :: r => ' (m, c) <- store_mech mechs count x ;; store_all r m c
  end.

(** The tokens still to come when [tok] has been read and [rest] lies
    ahead. *)
Definition pending (tok rest : string) : list string :=
  match fields (cstr rest) with
  | f :: fs => filter non_empty ((tok ++ f)%string :: fs)
  | [] => []
  end.

(** Both state fields are legal for the role of the context. *)
Definition machine_legal (t : pn_transport_t) : Prop :=
  exists s,
    sasl t = Some s
    /\ role_legal (client s) (last_state s) = true
    /\ role_legal (client s) (desired_state s) = true.

(** Each string followed by a space. *)
Fixpoint spaced (l : list string) : string :=
  match l with
  | [] => EmptyString
  | x :: r => (x ++ String SP (spaced r))%string
  end.

(** ** The rest of sasl.c *)

(** A call under an [assert]: the call returns, or the assertion fails and
    the process is aborted. *)
Inductive asserted (A : Type) : Type :=
| Passed (a : A)
| Assertion_failed.

Arguments Passed {A} a.
Arguments Assertion_failed {A}.

Definition log_frame_out : string := "  -> %s".

(** [memmove(bytes, SASL_HEADER, SASL_HEADER_LEN)] on a buffer of at least
    eight bytes. *)
Definition memmove_header (bytes : string) : string :=
  (SASL_HEADER ++ String.substring 8 (String.length bytes - 8) bytes)%string.

Definition with_user_password (s : pni_sasl_t) (user password : option string) : pni_sasl_t :=
  mk_sasl (impl_context s) (client s) (selected_mechanism s)
    (included_mechanisms s) user password (config_name s)
    (config_dir s) (remote_fqdn s) (external_auth s) (external_ssf s)
    (outcome s) (bytes_out s) (desired_state s) (last_state s) (input_bypass s)
    (output_bypass s).

Definition with_remote_fqdn (s : pni_sasl_t) (fqdn : option string) : pni_sasl_t :=
  mk_sasl (impl_context s) (client s) (selected_mechanism s)
    (included_mechanisms s) (username s) (password s) (config_name s)
    (config_dir s) fqdn (external_auth s) (external_ssf s)
    (outcome s) (bytes_out s) (desired_state s) (last_state s) (input_bypass s)
    (output_bypass s).

Section RestOfEngine.

Variable state_code : pni_sasl_state -> Z.
Variable pni_init_server : pn_transport_t -> bool * backend_writes.
Variable PN_TRACE_FRM : Z.

(** [pn_output_write_sasl_header]; [bytes] is the output buffer, [size] its
    length.  The result holds the buffer after the call and the number of
    bytes produced. *)
Definition pn_output_write_sasl_header (t : pn_transport_t) (layer : nat)
    (bytes : string) : asserted (res (pn_transport_t * string * Z)) :=
  let size := String.length bytes in
  let t1 := if negb (Z.land (trace t) PN_TRACE_FRM =? 0)
            then pn_transport_logf t log_frame_out [ArgStr "SASL"] else t in
  if Nat.ltb size 8 then Assertion_failed
  else
    Passed
      (cur <- layers_get (io_layers t1) layer ;;
       ls <- layers_set (io_layers t1) layer
               (if layer_eqb cur sasl_write_header_layer then sasl_layer
                else sasl_read_header_layer) ;;
       Ok (with_io_layers t1 ls, memmove_header bytes, SASL_HEADER_LEN)).

(** A call of [pni_init_server]: its verdict, and the fields of the context
    the backend owns as it leaves them. *)
Definition init_server_returns (t : pn_transport_t) : res (pn_transport_t * bool) :=
  s <- deref (sasl t) ;;
  Ok (with_sasl t (with_backend s (snd (pni_init_server t))), fst (pni_init_server t)).

Definition pni_sasl_server_init (t : pn_transport_t) : res pn_transport_t :=
  ' (t1, ok) <- init_server_returns t ;;
  if negb ok then Ok t1
  else pni_sasl_set_desired_state state_code t1 SASL_POSTED_MECHANISMS.

Definition pn_sasl_process (t : pn_transport_t) : res pn_transport_t :=
  s <- deref (sasl t) ;;
  if negb (client s) then
    if state_code (desired_state s) <? state_code SASL_POSTED_MECHANISMS
    then pni_sasl_server_init t
    else Ok t
  else Ok t.

Definition pni_sasl_set_remote_hostname (t : pn_transport_t) (fqdn : option string)
  : res pn_transport_t :=
  s <- deref (sasl t) ;;
  Ok (with_sasl t (with_remote_fqdn s fqdn)).

Definition pni_sasl_set_user_password (t : pn_transport_t) (user password : option string)
  : res pn_transport_t :=
  s <- deref (sasl t) ;;
  Ok (with_sasl t (with_user_password s user (option_map pn_strdup password))).

Definition pn_sasl_get_user (m : heap) (sasl0 : option nat) : res (option string) :=
  p <- get_sasl_internal m sasl0 ;;
  ' (_, s) <- deref p ;;
  Ok (username s).

Definition pn_sasl_get_mech (m : heap) (sasl0 : option nat) : res (option string) :=
  p <- get_sasl_internal m sasl0 ;;
  ' (_, s) <- deref p ;;
  Ok (selected_mechanism s).

End RestOfEngine.

(** ** Runs that keep track of the posted frames

    As [sasl_step], with the drain fuelled so that it returns, and with the
    frames left alone by everything but the drain: [pni_post_sasl_frame] is
    the only code that posts SASL frames. *)
Section PostingRuns.

Variable state_code : pni_sasl_state -> Z.
Variable list_mechs : pn_transport_t -> Z * option string.

Inductive posting_step : pn_transport_t -> pn_transport_t -> Prop :=
| posting_set_desired_state (t t' : pn_transport_t) (st : pni_sasl_state) :
    pni_sasl_set_desired_state state_code t st = Ok t' -> posting_step t t'
| posting_post_sasl_frame (t t' : pn_transport_t) (fuel : nat) :
    (4 <= fuel)%nat ->
    pni_post_sasl_frame state_code list_mechs fuel t = Ok t' -> posting_step t t'
| posting_elsewhere (t t' : pn_transport_t) (s s' : pni_sasl_t) :
    sasl t = Some s -> sasl t' = Some s' -> same_machine s s' ->
    frames t' = frames t -> posting_step t t'.

Inductive posting_run : pn_transport_t -> Prop :=
| posting_start (cfg : option string) (t : pn_transport_t) :
    sasl t = None -> frames t = [] -> posting_run (pn_sasl cfg t)
| posting_next (t t' : pn_transport_t) :
    posting_run t -> posting_step t t' -> posting_run t'.

End PostingRuns.

Definition is_mechanisms (f : sasl_frame) : bool :=
  match f with
  | SASL_MECHANISMS _ => true
  | _ => false
  end.

(** The frames a server sends after its MECHANISMS. *)
Definition follows_mechanisms (f : sasl_frame) : bool :=
  match f with
  | SASL_CHALLENGE _ | SASL_OUTCOME _ => true
  | _ => false
  end.

(** The frames of each role. *)
Definition client_frame (f : sasl_frame) : bool :=
  match f with
  | SASL_INIT _ _ | SASL_RESPONSE _ => true
  | _ => false
  end.

Definition server_frame (f : sasl_frame) : bool := negb (client_frame f).

(** Every CHALLENGE and OUTCOME of [fs] has a MECHANISMS before it; [seen]
    tells whether one came before [fs]. *)
Fixpoint mechanisms_first (seen : bool) (fs : list sasl_frame) : bool :=
  match fs with
  | [] => true
  | f :: r =>
      (if follows_mechanisms f then seen else true)
      && mechanisms_first (seen || is_mechanisms f) r
  end.

(** The transport events a drain hands to the collector for the frames
    [fs]. *)
Definition events_for (t : pn_transport_t) (fs : list sasl_frame) : list pn_event_type_t :=
  if has_collector t then repeat PN_TRANSPORT (List.length fs) else [].

(** A string without spaces. *)
Fixpoint space_free (s : string) : bool :=
  match s with
  | EmptyString => true
  | String c r => negb (is_sp c) && space_free r
  end.

(** A mechanism name as it can stand in a space-separated list. *)
Definition mech_name (s : string) : bool :=
  non_empty s && space_free s && nul_free s.

(** A backend whose initialisation of the server succeeds, and one whose
    initialisation fails. *)
Definition accepting_server_init (t : pn_transport_t) : bool * backend_writes :=
  (true, mk_writes (Some 1%nat) None "").
Definition refusing_init (t : pn_transport_t) : bool * backend_writes :=
  (false, mk_writes None None "").

(** What passing through a target state adds to the posted frames. *)
Definition posts (target : pni_sasl_state) (fs : list sasl_frame) : Prop :=
  match target with
  | SASL_POSTED_INIT => exists m r, fs = [SASL_INIT m r]
  | SASL_POSTED_MECHANISMS => exists l, fs = [SASL_MECHANISMS l]
  | SASL_POSTED_RESPONSE => exists r, fs = [SASL_RESPONSE r]
  | SASL_POSTED_CHALLENGE => exists c, fs = [SASL_CHALLENGE c]
  | SASL_POSTED_OUTCOME => exists o, fs = [SASL_OUTCOME o]
  | SASL_PRETEND_OUTCOME | SASL_RECVED_OUTCOME | SASL_NONE => fs = []
  end.

(** The frames of the role of a context. *)
Definition role_frame (is_client : bool) (f : sasl_frame) : bool :=
  if is_client then client_frame f else server_frame f.

(** The posted frames are those of the role, MECHANISMS comes before every
    CHALLENGE and OUTCOME, and a server at or past SASL_POSTED_MECHANISMS has
    posted its MECHANISMS. *)
Definition frames_ordered (state_code : pni_sasl_state -> Z) (t : pn_transport_t) : Prop :=
  exists s,
    sasl t = Some s
    /\ forallb (role_frame (client s)) (frames t) = true
    /\ mechanisms_first false (frames t) = true
    /\ (client s = false ->
        state_code SASL_POSTED_MECHANISMS <= state_code (last_state s) ->
        existsb is_mechanisms (frames t) = true).

(** ** The tables of the io layers

    The functions the four SASL layers hold in their [process_input] and
    [process_output] members; the layers of the rest of the engine hold
    functions that are not in sasl.c. *)
Inductive sasl_input_function : Type :=
| Fn_input_read_sasl_header
| Fn_input_read_sasl.

Inductive sasl_output_function : Type :=
| Fn_output_write_sasl_header
| Fn_output_write_sasl.

Definition process_input (l : pn_io_layer_t) : option sasl_input_function :=
  match l with
  | sasl_header_layer => Some Fn_input_read_sasl_header
  | sasl_write_header_layer => Some Fn_input_read_sasl
  | sasl_read_header_layer => Some Fn_input_read_sasl_header
  | sasl_layer => Some Fn_input_read_sasl
  | _ => None
  end.

Definition process_output (l : pn_io_layer_t) : option sasl_output_function :=
  match l with
  | sasl_header_layer => Some Fn_output_write_sasl_header
  | sasl_write_header_layer => Some Fn_output_write_sasl_header
  | sasl_read_header_layer => Some Fn_output_write_sasl
  | sasl_layer => Some Fn_output_write_sasl
  | _ => None
  end.

(** How many of the two headers a SASL layer has behind it. *)
Definition headers_done (l : pn_io_layer_t) : nat :=
  match l with
  | sasl_write_header_layer | sasl_read_header_layer => 1
  | sasl_layer => 2
  | _ => 0
  end.

(** A transport that traces frames, and the header writer run with
    PN_TRACE_FRM as bit 1. *)
Definition tracing (t : pn_transport_t) : pn_transport_t :=
  mk_transport (sasl t) (server t) (connection t) 2 (close_sent t)
    (io_layers t) (condition t) (log t) (frames t) (backend_calls t).

Definition example_write_sasl_header
  : pn_transport_t -> nat -> string -> asserted (res (pn_transport_t * string * Z)) :=
  pn_output_write_sasl_header 2.

(** A heap with the transport [t] at address [a] and nothing else. *)
Definition heap_with (a : nat) (t : pn_transport_t) : heap :=
  fun a' => if Nat.eqb a' a then Some t else None.

(** What the final states rely on in the numbering of
    [enum pni_sasl_state], beside [well_numbered]: the outcome states of a
    role have greater values than the states of the role that post a
    frame. *)
Definition outcomes_last (state_code : pni_sasl_state -> Z) : Prop :=
  state_code SASL_POSTED_RESPONSE < state_code SASL_PRETEND_OUTCOME
  /\ state_code SASL_POSTED_RESPONSE < state_code SASL_RECVED_OUTCOME
  /\ state_code SASL_POSTED_CHALLENGE < state_code SASL_POSTED_OUTCOME.

(** A client that has taken the short way to SASL_PRETEND_OUTCOME. *)
Definition client_after_pretend : pn_transport_t :=
  Eval vm_compute in
    after_calls no_mechs
      [Call_set_desired_state SASL_PRETEND_OUTCOME; Call_post_sasl_frame]
      new_client.

(** ** The SASL layer proper *)

Definition with_input_bypass (s : pni_sasl_t) (b : bool) : pni_sasl_t :=
  mk_sasl (impl_context s) (client s) (selected_mechanism s)
    (included_mechanisms s) (username s) (password s) (config_name s)
    (config_dir s) (remote_fqdn s) (external_auth s) (external_ssf s)
    (outcome s) (bytes_out s) (desired_state s) (last_state s) b
    (output_bypass s).

Definition with_output_bypass (s : pni_sasl_t) (b : bool) : pni_sasl_t :=
  mk_sasl (impl_context s) (client s) (selected_mechanism s)
    (included_mechanisms s) (username s) (password s) (config_name s)
    (config_dir s) (remote_fqdn s) (external_auth s) (external_ssf s)
    (outcome s) (bytes_out s) (desired_state s) (last_state s) (input_bypass s)
    b.

Definition connection_aborted : string := "connection aborted".

(** What a function of [sasl_layer] returns: a count (or PN_EOS) of its own,
    or whatever the passthru layer makes of the same call, with the
    transport as it is then. *)
Inductive layer_return : Type :=
| Return_count (t : pn_transport_t) (bytes : string) (n : Z)
| Return_passthru (t : pn_transport_t) (bytes : string).

Section SaslLayer.

Variable state_code : pni_sasl_state -> Z.
Variable pni_init_server : pn_transport_t -> bool * backend_writes.
Variable pni_sasl_impl_list_mechs : pn_transport_t -> Z * option string.

(** The engine around the layer, outside the sources: the capacity of the
    transport, the field [transport->available] (the posted bytes the
    dispatcher has not written out yet), the dispatcher in both directions,
    each call returning the transport as it leaves it, and
    [pn_transport_close_tail]. *)
Variable PN_EOS : Z.
Variable pn_transport_capacity : pn_transport_t -> Z.
Variable available : pn_transport_t -> Z.
Variable pn_dispatcher_input : pn_transport_t -> string -> pn_transport_t * Z.
Variable pn_dispatcher_output : pn_transport_t -> string -> pn_transport_t * string * Z.
Variable pn_transport_close_tail : pn_transport_t -> pn_transport_t.

(** [pn_sasl_input].  The context read after the dispatcher has returned is
    the one [sasl] pointed to before the call: the transport keeps its
    context. *)
Definition pn_sasl_input (t : pn_transport_t) (bytes : string)
  : res (pn_transport_t * Z) :=
  t1 <- pn_sasl_process state_code pni_init_server t ;;
  let t2 := fst (pn_dispatcher_input t1 bytes) in
  let n := snd (pn_dispatcher_input t1 bytes) in
  if n =? 0 then
    s <- deref (sasl t2) ;;
    if pni_sasl_is_final_input_state s then Ok (t2, PN_EOS) else Ok (t2, n)
  else Ok (t2, n).

(** [pn_sasl_output]; [fuel] bounds the loop of [pni_post_sasl_frame]. *)
Definition pn_sasl_output (fuel : nat) (t : pn_transport_t) (bytes : string)
  : res (pn_transport_t * string * Z) :=
  t1 <- pn_sasl_process state_code pni_init_server t ;;
  t2 <- pni_post_sasl_frame state_code pni_sasl_impl_list_mechs fuel t1 ;;
  s <- deref (sasl t2) ;;
  if (available t2 =? 0) && pni_sasl_is_final_output_state s then
    let t3 :=
      if negb (outcome_eqb (outcome s) PN_SASL_OK) && pni_sasl_is_final_input_state s
      then pn_transport_close_tail t2 else t2 in
    Ok (t3, bytes, PN_EOS)
  else Ok (pn_dispatcher_output t2 bytes).

(** [pn_input_read_sasl] *)
Definition pn_input_read_sasl (t : pn_transport_t) (layer : nat) (bytes : string)
  : res layer_return :=
  let eos := pn_transport_capacity t =? PN_EOS in
  if eos then
    let t1 := with_close_sent t true in
    let t2 := pn_do_error t1 framing_error connection_aborted in
    Ok (Return_count (pn_set_error_layer t2) bytes PN_EOS)
  else
    s <- deref (sasl t) ;;
    if negb (input_bypass s) then
      ' (t1, n) <- pn_sasl_input t bytes ;;
      if negb (n =? PN_EOS) then Ok (Return_count t1 bytes n)
      else
        s1 <- deref (sasl t1) ;;
        let t2 := with_sasl t1 (with_input_bypass s1 true) in
        s2 <- deref (sasl t2) ;;
        if output_bypass s2 then
          ls <- layers_set (io_layers t2) layer pni_passthru_layer ;;
          Ok (Return_passthru (with_io_layers t2 ls) bytes)
        else Ok (Return_passthru t2 bytes)
    else Ok (Return_passthru t bytes).

(** [pn_output_write_sasl] *)
Definition pn_output_write_sasl (fuel : nat) (t : pn_transport_t) (layer : nat)
    (bytes : string) : res layer_return :=
  s <- deref (sasl t) ;;
  if negb (output_bypass s) then
    ' (t1, out, n) <-
        (if close_sent t then Ok (t, bytes, PN_EOS)
         else pn_sasl_output fuel t bytes) ;;
    if negb (n =? PN_EOS) then Ok (Return_count t1 out n)
    else
      s1 <- deref (sasl t1) ;;
      let t2 := with_sasl t1 (with_output_bypass s1 true) in
      s2 <- deref (sasl t2) ;;
      if input_bypass s2 then
        ls <- layers_set (io_layers t2) layer pni_passthru_layer ;;
        Ok (Return_passthru (with_io_layers t2 ls) out)
      else Ok (Return_passthru t2 out)
  else Ok (Return_passthru t bytes).

End SaslLayer.

(** The transport a layer function leaves. *)
Definition transport_of (r : layer_return) : pn_transport_t :=
  match r with
  | Return_count t _ _ => t
  | Return_passthru t _ => t
  end.

(** How far a slot has come on its way from the header layer to the
    passthru layer; the error layer ends every way. *)
Definition layer_rank (l : pn_io_layer_t) : nat :=
  match l with
  | sasl_header_layer => 0
  | sasl_write_header_layer | sasl_read_header_layer => 1
  | sasl_layer => 2
  | pni_passthru_layer => 3
  | pni_error_layer => 4
  | other_layer _ => 0
  end.

(** No slot of [t'] is behind the slot of [t]. *)
Definition layers_forward (t t' : pn_transport_t) : Prop :=
  forall i l,
    nth_error (io_layers t) i = Some l ->
    exists l', nth_error (io_layers t') i = Some l'
               /\ (layer_rank l <= layer_rank l')%nat.

(** ** Calls through the tables of the layers

    The engine calls [io_layers[layer]->process_input] and
    [io_layers[layer]->process_output]: while a slot holds one of the four
    SASL layers, a call on the slot runs the function the table of that layer
    holds for the direction. *)
Section LayerCalls.

Variable state_code : pni_sasl_state -> Z.
Variable pni_init_server : pn_transport_t -> bool * backend_writes.
Variable pni_sasl_impl_list_mechs : pn_transport_t -> Z * option string.
Variable PN_EOS : Z.
Variable PN_TRACE_FRM : Z.
Variable pn_transport_capacity : pn_transport_t -> Z.
Variable pni_sniff_header : string -> pni_protocol_type_t.
Variable pni_protocol_name : pni_protocol_type_t -> string.
Variable pn_quote_data : nat -> string -> string.
Variable pn_ssl_get_ssf : pn_transport_t -> Z.
Variable pn_ssl_get_remote_subject : pn_transport_t -> option string.
Variable available : pn_transport_t -> Z.
Variable pn_dispatcher_input : pn_transport_t -> string -> pn_transport_t * Z.
Variable pn_dispatcher_output : pn_transport_t -> string -> pn_transport_t * string * Z.
Variable pn_transport_close_tail : pn_transport_t -> pn_transport_t.

Inductive layer_call (layer : nat) : pn_transport_t -> pn_transport_t -> Prop :=
| call_read_sasl_header (t t' : pn_transport_t) (cur : pn_io_layer_t)
    (bytes : string) (n : Z) :
    nth_error (io_layers t) layer = Some cur ->
    process_input cur = Some Fn_input_read_sasl_header ->
    pn_input_read_sasl_header PN_EOS PN_TRACE_FRM pn_transport_capacity
      pni_sniff_header pni_protocol_name pn_quote_data pn_ssl_get_ssf
      pn_ssl_get_remote_subject t layer bytes = Ok (t', n) ->
    layer_call layer t t'
| call_read_sasl (t : pn_transport_t) (cur : pn_io_layer_t) (bytes : string)
    (r : layer_return) :
    nth_error (io_layers t) layer = Some cur ->
    process_input cur = Some Fn_input_read_sasl ->
    pn_input_read_sasl state_code pni_init_server PN_EOS pn_transport_capacity
      pn_dispatcher_input t layer bytes = Ok r ->
    layer_call layer t (transport_of r)
| call_write_sasl_header (t t' : pn_transport_t) (cur : pn_io_layer_t)
    (bytes out : string) (n : Z) :
    nth_error (io_layers t) layer = Some cur ->
    process_output cur = Some Fn_output_write_sasl_header ->
    pn_output_write_sasl_header PN_TRACE_FRM t layer bytes = Passed (Ok (t', out, n)) ->
    layer_call layer t t'
| call_write_sasl (t : pn_transport_t) (cur : pn_io_layer_t) (bytes : string)
    (fuel : nat) (r : layer_return) :
    nth_error (io_layers t) layer = Some cur ->
    process_output cur = Some Fn_output_write_sasl ->
    pn_output_write_sasl state_code pni_init_server pni_sasl_impl_list_mechs PN_EOS
      available pn_dispatcher_output pn_transport_close_tail fuel t layer bytes = Ok r ->
    layer_call layer t (transport_of r).

Inductive layer_calls (layer : nat) : pn_transport_t -> pn_transport_t -> Prop :=
| calls_none (t : pn_transport_t) : layer_calls layer t t
| calls_more (t t1 t2 : pn_transport_t) :
    layer_calls layer t t1 -> layer_call layer t1 t2 -> layer_calls layer t t2.

End LayerCalls.

(** An engine with nothing to read and nothing left to write. *)
Definition idle_dispatcher_input (t : pn_transport_t) (bytes : string)
  : pn_transport_t * Z := (t, 0).
Definition idle_dispatcher_output (t : pn_transport_t) (bytes : string)
  : pn_transport_t * string * Z := (t, bytes, 0).

(** A client that has sent INIT and then received the outcome OK. *)
Definition client_authenticated : pn_transport_t :=
  Eval vm_compute in
    let t1 :=
      after_calls no_mechs
        [Call_set_desired_state SASL_POSTED_INIT; Call_post_sasl_frame] new_client in
    match sasl t1 with
    | Some s =>
        after_calls no_mechs
          [Call_set_desired_state SASL_RECVED_OUTCOME; Call_post_sasl_frame]
          (with_sasl t1 (with_outcome s PN_SASL_OK))
    | None => t1
    end.

(** A new server that has asked for its MECHANISMS frame; it is run with
    the backend of seventeen mechanisms. *)
Definition server_asked_for_mechanisms : pn_transport_t :=
  Eval vm_compute in
    after_calls many_mechs [Call_set_desired_state SASL_POSTED_MECHANISMS] new_server.

(** What ["%*s"] prints for a symbol: the C string at [s.start],
    right-justified in a field [s.size] wide. *)
Definition printed (s : string) : string :=
  (string_of_list_ascii (repeat SP (String.length s - String.length (cstr s)))
     ++ cstr s)%string.

(** What the failure branch of [pn_do_mechanisms] relies on in the numbering
    of [enum pni_sasl_state]: no client state has a greater value than
    SASL_RECVED_OUTCOME. *)
Definition recved_outcome_last (state_code : pni_sasl_state -> Z) : Prop :=
  forall st,
    pni_sasl_is_client_state st = true ->
    state_code st <= state_code SASL_RECVED_OUTCOME.

(** A MECHANISMS frame whose first symbol holds a NUL byte. *)
Definition symbol_with_nul : string :=
  String "P" (String "L" (String NUL "AIN")).
Definition nul_symbols : mechanisms_args :=
  {| scan_err := 0; symbols := [symbol_with_nul; "GSSAPI"] |}.

(** * Properties *)

Lemma bind_Ok_inv {A B : Type} (m : res A) (k : A -> res B) (b : B) :
  bind m k = Ok b -> exists a, m = Ok a /\ k a = Ok b.
Proof. destruct m; simpl; intros H; try discriminate. eauto. Qed.

Lemma state_eqb_eq (a b : pni_sasl_state) : state_eqb a b = true <-> a = b.
Proof. destruct a, b; simpl; split; intros H; congruence. Qed.

Lemma state_eqb_refl (a : pni_sasl_state) : state_eqb a a = true.
Proof. destruct a; reflexivity. Qed.

Lemma enum_code_well_numbered : well_numbered enum_code.
Proof.
  unfold well_numbered; repeat split; try reflexivity.
  - intros st; destruct st; simpl; lia.
  - intros a b; destruct a, b; simpl; intros H; solve [reflexivity | discriminate].
Qed.

(** ** Requests for a state *)

Section SetDesiredState.

Variable state_code : pni_sasl_state -> Z.

Lemma with_last_state_same (s : pni_sasl_t) : with_last_state s (last_state s) = s.
Proof. destruct s; reflexivity. Qed.

Lemma set_desired_state_applied (t : pn_transport_t) (s : pni_sasl_t) (st : pni_sasl_state) :
  sasl t = Some s -> request_applied state_code s st = true ->
  pni_sasl_set_desired_state state_code t st
  = Ok (pni_emit (with_sasl t (with_desired_state (with_last_state s (rewound s st)) st))).
Proof.
  intros Hs Ha. unfold pni_sasl_set_desired_state, request_applied, role_legal in *.
  rewrite Hs; simpl.
  apply andb_true_iff in Ha as [Hle Hrole]. apply Z.leb_le in Hle.
  destruct (Z.gtb_spec (state_code (last_state s)) (state_code st)); [lia|].
  destruct (client s); simpl in *; rewrite Hrole; simpl;
    unfold rewound;
    destruct (state_eqb (last_state s) st) eqn:E1; simpl;
    destruct st; simpl; rewrite ?with_last_state_same; try reflexivity;
    simpl in *; try discriminate;
    rewrite ?E1; simpl; rewrite ?with_last_state_same; reflexivity.
Qed.

Lemma set_desired_state_dropped (t : pn_transport_t) (s : pni_sasl_t) (st : pni_sasl_state) :
  sasl t = Some s -> request_applied state_code s st = false ->
  exists fmt args, pni_sasl_set_desired_state state_code t st = Ok (pn_transport_logf t fmt args).
Proof.
  intros Hs Ha. unfold pni_sasl_set_desired_state, request_applied, role_legal in *.
  rewrite Hs; simpl.
  destruct (Z.gtb_spec (state_code (last_state s)) (state_code st)); [eauto|].
  apply andb_false_iff in Ha as [Hle | Hrole].
  - apply Z.leb_gt in Hle. lia.
  - destruct (client s); simpl in *; rewrite Hrole; simpl; eauto.
Qed.

Lemma events_logf (t : pn_transport_t) (fmt : string) (args : list log_arg) :
  events (pn_transport_logf t fmt args) = events t.
Proof. reflexivity. Qed.

Lemma events_emit (t : pn_transport_t) :
  events (pni_emit t) = if has_collector t then events t ++ [PN_TRANSPORT] else events t.
Proof. destruct t as [? ? [[[q|]]|] ? ? ? ? ? ? ?]; reflexivity. Qed.

Lemma sasl_emit (t : pn_transport_t) : sasl (pni_emit t) = sasl t.
Proof. destruct t as [? ? [[[q|]]|] ? ? ? ? ? ? ?]; reflexivity. Qed.

Lemma frames_emit (t : pn_transport_t) : frames (pni_emit t) = frames t.
Proof. destruct t as [? ? [[[q|]]|] ? ? ? ? ? ? ?]; reflexivity. Qed.

Lemma log_emit (t : pn_transport_t) : log (pni_emit t) = log t.
Proof. destruct t as [? ? [[[q|]]|] ? ? ? ? ? ? ?]; reflexivity. Qed.

Lemma calls_emit (t : pn_transport_t) : backend_calls (pni_emit t) = backend_calls t.
Proof. destruct t as [? ? [[[q|]]|] ? ? ? ? ? ? ?]; reflexivity. Qed.

Lemma has_collector_emit (t : pn_transport_t) : has_collector (pni_emit t) = has_collector t.
Proof. destruct t as [? ? [[[q|]]|] ? ? ? ? ? ? ?]; reflexivity. Qed.

(** The state a rewind leaves is legal for the role the request is legal
    for. *)
Lemma rewound_role_legal (s : pni_sasl_t) (st : pni_sasl_state) :
  role_legal (client s) st = true ->
  role_legal (client s) (last_state s) = true ->
  role_legal (client s) (rewound s st) = true.
Proof.
  unfold rewound, role_legal. intros Hst Hl.
  destruct (state_eqb (last_state s) st); simpl; [|assumption].
  destruct (client s), st; simpl in *; solve [assumption | reflexivity | discriminate].
Qed.

End SetDesiredState.

(** ** Splitting the advertisement *)

Section SplitMechs.

Lemma array_set_filled (pre : list string) (k : nat) (x : string) :
  array_set (map Some pre ++ repeat None (S k)) (List.length pre) x
  = map Some (pre ++ [x]) ++ repeat None k.
Proof.
  induction pre as [|p pre IH]; simpl in *; [reflexivity|].
  now rewrite IH.
Qed.

Lemma store_all_filled (l pre : list string) (k : nat) :
  store_all l (map Some pre ++ repeat None k) (Z.of_nat (List.length pre))
  = if Nat.leb (List.length l) k
    then Ok (map Some (pre ++ l) ++ repeat None (k - List.length l),
             Z.of_nat (List.length pre + List.length l))
    else Undefined OutOfBounds.
Proof.
  revert pre k. induction l as [|x l IH]; intros pre k; simpl.
  - now rewrite app_nil_r, Nat.sub_0_r, Nat.add_0_r.
  - unfold store_mech. rewrite length_app, length_map, repeat_length.
    destruct k as [|k].
    + replace (Z.of_nat (List.length pre) <? Z.of_nat (List.length pre + 0)) with false
        by (symmetry; apply Z.ltb_ge; lia).
      now rewrite andb_false_r.
    + replace (0 <=? Z.of_nat (List.length pre)) with true
        by (symmetry; apply Z.leb_le; lia).
      replace (Z.of_nat (List.length pre) <? Z.of_nat (List.length pre + S k)) with true
        by (symmetry; apply Z.ltb_lt; lia).
      simpl bind. rewrite Nat2Z.id.
      change (None :: repeat None k) with (repeat (@None string) (S k)).
      rewrite array_set_filled.
      replace (Z.of_nat (List.length pre) + 1) with (Z.of_nat (List.length (pre ++ [x])))
        by (rewrite length_app; simpl; lia).
      rewrite IH. rewrite <- app_assoc. simpl app.
      rewrite length_app. simpl List.length.
      destruct (Nat.leb (List.length l) k); [|reflexivity].
      do 2 f_equal. lia.
Qed.

Lemma fields_not_nil (s : string) : fields s <> [].
Proof.
  destruct s as [|c r]; simpl; [discriminate|].
  destruct (is_sp c); [discriminate|].
  destruct (fields r); discriminate.
Qed.

Lemma append_assoc (a b c : string) : ((a ++ b) ++ c = a ++ (b ++ c))%string.
Proof. induction a as [|x a IH]; simpl; [reflexivity|]. now rewrite IH. Qed.

Lemma append_empty_r (a : string) : (a ++ "" = a)%string.
Proof. induction a as [|x a IH]; simpl; [reflexivity|]. now rewrite IH. Qed.

Lemma non_empty_snoc (a : string) (c : ascii) (b : string) :
  non_empty (a ++ String c b) = true.
Proof. destruct a; reflexivity. Qed.

Lemma split_loop_pending (rest tok : string) (incl : option string)
    (mechs : mech_array) (count : Z) :
  pni_split_mechs_loop rest tok incl mechs count
  = store_all (filter (pni_included_mech incl) (pending tok rest)) mechs count.
Proof.
  revert tok mechs count. induction rest as [|ch rest IH]; intros tok mechs count.
  - unfold pending; simpl. rewrite append_empty_r.
    destruct tok as [|c tok]; simpl; [reflexivity|].
    unfold keep_mech. destruct (pni_included_mech incl (String c tok)); simpl; [|reflexivity].
    destruct (store_mech mechs count (String c tok)) as [[m c']| |]; reflexivity.
  - simpl. unfold pending. simpl cstr. destruct (is_nul ch) eqn:En.
    + simpl. rewrite append_empty_r.
      destruct tok as [|c tok]; simpl; [reflexivity|].
      unfold keep_mech. destruct (pni_included_mech incl (String c tok)); simpl; [|reflexivity].
      destruct (store_mech mechs count (String c tok)) as [[m c']| |]; reflexivity.
    + simpl fields. destruct (is_sp ch) eqn:Es.
      * rewrite append_empty_r.
        destruct tok as [|c tok].
        -- rewrite IH. unfold pending. simpl.
           destruct (fields (cstr rest)) eqn:Ef; [now apply fields_not_nil in Ef|].
           reflexivity.
        -- simpl filter. unfold keep_mech.
           destruct (pni_included_mech incl (String c tok)); simpl.
           ++ destruct (store_mech mechs count (String c tok)) as [[m c']| |]; simpl;
                try reflexivity.
              rewrite IH. unfold pending.
              destruct (fields (cstr rest)) eqn:Ef; [now apply fields_not_nil in Ef|].
              reflexivity.
           ++ rewrite IH. unfold pending.
              destruct (fields (cstr rest)) eqn:Ef; [now apply fields_not_nil in Ef|].
              reflexivity.
      * rewrite IH. unfold pending.
        destruct (fields (cstr rest)) eqn:Ef; [now apply fields_not_nil in Ef|].
        rewrite append_assoc. reflexivity.
Qed.

(** [pni_split_mechs] into a fresh array of [n] slots stores the admitted
    tokens, in order, when there are at most [n] of them, and writes past the
    end of the array otherwise. *)
Lemma pni_split_mechs_fresh (mechlist : string) (incl : option string) (n : nat) :
  pni_split_mechs mechlist incl (uninitialised n) 0
  = if Nat.leb (List.length (admitted incl mechlist)) n
    then Ok (filled n (admitted incl mechlist),
             Z.of_nat (List.length (admitted incl mechlist)))
    else Undefined OutOfBounds.
Proof.
  unfold pni_split_mechs. rewrite split_loop_pending.
  assert (Hp : pending "" mechlist = mech_tokens mechlist).
  { unfold pending, mech_tokens.
    destruct (fields (cstr mechlist)) eqn:Ef; [now apply fields_not_nil in Ef|].
    reflexivity. }
  rewrite Hp. fold (admitted incl mechlist).
  apply (store_all_filled (admitted incl mechlist) [] n).
Qed.

End SplitMechs.

(** ** Draining towards the desired state *)

Section PostFrame.

Variable state_code : pni_sasl_state -> Z.
Variable list_mechs : pn_transport_t -> Z * option string.

Lemma sasl_post_mechanisms (t t' : pn_transport_t) (s : pni_sasl_t) :
  post_mechanisms list_mechs t s = Ok t' ->
  sasl t' = sasl t /\ connection t' = connection (pni_emit t)
  /\ log t' = log t /\ has_collector t' = has_collector t.
Proof.
  unfold post_mechanisms. intros H.
  apply bind_Ok_inv in H as [[m c] [_ H]]. injection H as <-.
  rewrite sasl_emit, log_emit, has_collector_emit.
  destruct t as [? ? [[[q|]]|] ? ? ? ? ? ? ?]; repeat split; reflexivity.
Qed.

Lemma post_mechanisms_fit (t : pn_transport_t) (s : pni_sasl_t) :
  mechs_fit list_mechs t s ->
  post_mechanisms list_mechs t s
  = Ok (pni_emit (pn_post_frame (record_call t Call_list_mechs)
                    (SASL_MECHANISMS (advertised list_mechs t s)))).
Proof.
  unfold mechs_fit, post_mechanisms, advertised. intros Hfit.
  destruct (Z.gtb_spec (fst (list_mechs t)) 0) as [Hpos|Hnp].
  - destruct Hfit as [ml [Hml Hlen]]; [lia|]. rewrite Hml. simpl deref. simpl bind at 2.
    rewrite pni_split_mechs_fresh.
    apply Nat.leb_le in Hlen. rewrite Hlen. simpl bind.
    rewrite Nat2Z.id. unfold filled.
    rewrite firstn_app, length_map, Nat.sub_diag, firstn_O, app_nil_r.
    rewrite <- (length_map (@Some string)) at 1. now rewrite firstn_all.
  - reflexivity.
Qed.

Lemma loop_done (fuel : nat) (out : string) (t : pn_transport_t) (s : pni_sasl_t)
    (d : pni_sasl_state) :
  sasl t = Some s ->
  state_code (desired_state s) <= state_code (last_state s) ->
  pni_post_sasl_frame_loop state_code list_mechs (S fuel) out t d = Ok t.
Proof.
  intros Hs Hle. simpl. rewrite Hs. simpl.
  destruct (Z.gtb_spec (state_code (desired_state s)) (state_code (last_state s)));
    [lia | reflexivity].
Qed.

Lemma loop_continue (fuel : nat) (out : string) (t : pn_transport_t) (s : pni_sasl_t)
    (d p : pni_sasl_state) :
  sasl t = Some s ->
  state_code (last_state s) < state_code (desired_state s) ->
  prerequisite state_code s d = Some p ->
  pni_post_sasl_frame_loop state_code list_mechs (S fuel) out t d
  = pni_post_sasl_frame_loop state_code list_mechs fuel out t p.
Proof.
  intros Hs Hlt Hp. simpl. rewrite Hs. simpl.
  destruct (Z.gtb_spec (state_code (desired_state s)) (state_code (last_state s)));
    [|lia].
  unfold prerequisite in Hp.
  destruct d; try discriminate;
    match type of Hp with
    | (if ?c then _ else _) = _ => destruct c; [injection Hp as <-; reflexivity | discriminate]
    end.
Qed.

Lemma loop_break (fuel : nat) (t : pn_transport_t) (s : pni_sasl_t) (d : pni_sasl_state) :
  sasl t = Some s ->
  state_code (last_state s) < state_code (desired_state s) ->
  prerequisite state_code s d = None ->
  d <> SASL_NONE ->
  pni_post_sasl_frame_loop state_code list_mechs (S fuel) (bytes_out s) t d
  = (t' <- post_declared_frame list_mechs t s d ;;
     pni_post_sasl_frame_loop state_code list_mechs fuel (bytes_out s)
       (with_sasl t' (with_last_state s d)) (desired_state s)).
Proof.
  intros Hs Hlt Hp Hd. simpl. rewrite Hs. simpl.
  destruct (Z.gtb_spec (state_code (desired_state s)) (state_code (last_state s)));
    [|lia].
  unfold prerequisite in Hp.
  destruct d; try congruence; try reflexivity;
    match type of Hp with
    | (if ?c then _ else _) = _ => destruct c; [discriminate | reflexivity]
    end.
Qed.

Lemma prerequisite_cases (s : pni_sasl_t) (d p : pni_sasl_state) :
  prerequisite state_code s d = Some p ->
  state_code (last_state s) < state_code p
  /\ ((p = SASL_POSTED_INIT /\ (d = SASL_PRETEND_OUTCOME \/ d = SASL_RECVED_OUTCOME))
      \/ (p = SASL_POSTED_MECHANISMS
          /\ (d = SASL_POSTED_CHALLENGE \/ d = SASL_POSTED_OUTCOME))).
Proof.
  unfold prerequisite. intros H.
  destruct d; try discriminate;
    match type of H with
    | (if ?c then _ else _) = _ => destruct c eqn:E; [injection H as <- | discriminate]
    end;
    try (apply andb_true_iff in E as [E _]); apply Z.ltb_lt in E; split; auto.
Qed.

(** With the prerequisite in place the target itself is due. *)
Lemma prerequisite_met (s : pni_sasl_t) (d p : pni_sasl_state) :
  prerequisite state_code s d = Some p ->
  prerequisite state_code (with_last_state s p) d = None.
Proof.
  intros H. destruct (prerequisite_cases _ _ _ H) as [_ [[-> [->| ->]] | [-> [->| ->]]]];
    unfold prerequisite; simpl; rewrite Z.ltb_irrefl; reflexivity.
Qed.

(** The loop of [pni_post_sasl_frame] is the drain along [drain_plan]. *)
Lemma post_sasl_frame_drain (fuel : nat) (t : pn_transport_t) (s : pni_sasl_t) :
  well_numbered state_code ->
  sasl t = Some s ->
  (4 <= fuel)%nat ->
  pni_post_sasl_frame state_code list_mechs fuel t
  = drain list_mechs (drain_plan state_code s) t.
Proof.
  intros (Hnone & Hinj & Hir & Hip & Hio & Hmc & Hmo) Hs Hfuel.
  unfold pni_post_sasl_frame. rewrite Hs. cbn [bind deref].
  do 4 (destruct fuel as [|fuel]; [lia|]). clear Hfuel.
  unfold drain_plan.
  destruct (Z.gtb_spec (state_code (desired_state s)) (state_code (last_state s)))
    as [Hgt|Hle].
  2:{ now rewrite (loop_done _ _ _ s). }
  assert (Hd : desired_state s <> SASL_NONE).
  { intros E. rewrite E in Hgt. specialize (Hnone (last_state s)). lia. }
  destruct (prerequisite state_code s (desired_state s)) as [p|] eqn:Hp.
  - rewrite (loop_continue _ _ _ s _ p) by (assumption || lia).
    pose proof (prerequisite_cases _ _ _ Hp) as [Hlp Hcases].
    assert (Hpd : state_code p < state_code (desired_state s)).
    { destruct Hcases as [[-> [E|E]] | [-> [E|E]]]; rewrite E; assumption. }
    assert (Hpn : prerequisite state_code s p = None).
    { destruct Hcases as [[-> _] | [-> _]]; reflexivity. }
    assert (Hp0 : p <> SASL_NONE).
    { destruct Hcases as [[-> _] | [-> _]]; discriminate. }
    rewrite loop_break by (assumption || lia).
    simpl drain. unfold pass_through at 1. rewrite Hs. cbn [bind deref].
    destruct (post_declared_frame list_mechs t s p) as [t1| |]; try reflexivity.
    cbn [bind deref].
    change (bytes_out s) with (bytes_out (with_last_state s p)).
    change (desired_state s) with (desired_state (with_last_state s p)).
    rewrite loop_break; try reflexivity; try assumption.
    2:{ apply prerequisite_met; assumption. }
    unfold pass_through. cbn [bind deref sasl with_sasl].
    destruct (post_declared_frame list_mechs _ (with_last_state s p) _) as [t2| |];
      try reflexivity.
    cbn [bind deref].
    erewrite loop_done; [reflexivity | reflexivity | simpl; lia].
  - rewrite loop_break by (assumption || lia).
    simpl drain. unfold pass_through. rewrite Hs. cbn [bind deref].
    destruct (post_declared_frame list_mechs t s (desired_state s)) as [t1| |];
      try reflexivity.
    cbn [bind deref].
    erewrite loop_done; [reflexivity | reflexivity | simpl; lia].
Qed.

Lemma with_last_state_twice (s : pni_sasl_t) (a b : pni_sasl_state) :
  with_last_state (with_last_state s a) b = with_last_state s b.
Proof. reflexivity. Qed.

(** Whatever the numbering and the fuel, a drain that returns has changed
    nothing of the context but [last_state], and has left there the old
    value, the desired state, or a way station of the desired state. *)
Lemma loop_machine (fuel : nat) :
  forall (out : string) (t t' : pn_transport_t) (s : pni_sasl_t) (d : pni_sasl_state),
    pni_post_sasl_frame_loop state_code list_mechs fuel out t d = Ok t' ->
    sasl t = Some s ->
    d = desired_state s \/ way_station (desired_state s) d ->
    exists x,
      sasl t' = Some (with_last_state s x)
      /\ (x = last_state s \/ x = desired_state s \/ way_station (desired_state s) x).
Proof.
  induction fuel as [|fuel IH]; intros out t t' s d H Hs Hd; [discriminate|].
  simpl in H. rewrite Hs in H. cbn [bind deref] in H.
  destruct (state_code (desired_state s) >? state_code (last_state s)).
  2:{ injection H as <-. exists (last_state s).
      rewrite with_last_state_same. auto. }
  assert (Hbreak : forall t1,
    pni_post_sasl_frame_loop state_code list_mechs fuel out
      (with_sasl t1 (with_last_state s d)) (desired_state s) = Ok t' ->
    exists x,
      sasl t' = Some (with_last_state s x)
      /\ (x = last_state s \/ x = desired_state s \/ way_station (desired_state s) x)).
  { intros t1 H1.
    destruct (IH _ _ _ (with_last_state s d) _ H1 eq_refl (or_introl eq_refl))
      as [x [Hx Hc]].
    exists x. split; [exact Hx|].
    simpl in Hc. destruct Hc as [->|[->|Hw]]; auto. }
  assert (Hcont : forall p,
    way_station (desired_state s) p ->
    pni_post_sasl_frame_loop state_code list_mechs fuel out t p = Ok t' ->
    exists x,
      sasl t' = Some (with_last_state s x)
      /\ (x = last_state s \/ x = desired_state s \/ way_station (desired_state s) x)).
  { intros p Hw H1. exact (IH _ _ _ s _ H1 Hs (or_intror Hw)). }
  assert (Hdd : forall D, d = D ->
    D = SASL_POSTED_INIT \/ D = SASL_POSTED_MECHANISMS \/ desired_state s = D).
  { intros D <-. destruct Hd as [->|[[-> _]|[-> _]]]; auto. }
  destruct d.
  - injection H as <-. exists (last_state s). rewrite with_last_state_same. auto.
  - eapply Hbreak; eassumption.
  - apply bind_Ok_inv in H as [t1 [_ H]]. eapply Hbreak; eassumption.
  - eapply Hbreak; eassumption.
  - destruct (state_code (last_state s) <? state_code SASL_POSTED_MECHANISMS).
    + apply (Hcont SASL_POSTED_MECHANISMS); [|assumption].
      right. split; [reflexivity|].
      destruct (Hdd _ eq_refl) as [E|[E|E]]; try discriminate; auto.
    + eapply Hbreak; eassumption.
  - destruct (state_code (last_state s) <? state_code SASL_POSTED_INIT).
    + apply (Hcont SASL_POSTED_INIT); [|assumption].
      left. split; [reflexivity|].
      destruct (Hdd _ eq_refl) as [E|[E|E]]; try discriminate; auto.
    + eapply Hbreak; eassumption.
  - destruct ((state_code (last_state s) <? state_code SASL_POSTED_INIT)
              && outcome_eqb (outcome s) PN_SASL_OK).
    + apply (Hcont SASL_POSTED_INIT); [|assumption].
      left. split; [reflexivity|].
      destruct (Hdd _ eq_refl) as [E|[E|E]]; try discriminate; auto.
    + eapply Hbreak; eassumption.
  - destruct (state_code (last_state s) <? state_code SASL_POSTED_MECHANISMS).
    + apply (Hcont SASL_POSTED_MECHANISMS); [|assumption].
      right. split; [reflexivity|].
      destruct (Hdd _ eq_refl) as [E|[E|E]]; try discriminate; auto.
    + eapply Hbreak; eassumption.
Qed.

Lemma post_sasl_frame_machine (fuel : nat) (t t' : pn_transport_t) (s : pni_sasl_t) :
  pni_post_sasl_frame state_code list_mechs fuel t = Ok t' ->
  sasl t = Some s ->
  exists x,
    sasl t' = Some (with_last_state s x)
    /\ (x = last_state s \/ x = desired_state s \/ way_station (desired_state s) x).
Proof.
  unfold pni_post_sasl_frame. intros H Hs. rewrite Hs in H. cbn [bind deref] in H.
  eapply loop_machine; eauto.
Qed.

Lemma way_station_role_legal (c : bool) (D d : pni_sasl_state) :
  way_station D d -> role_legal c D = true -> role_legal c d = true.
Proof.
  intros [[-> [->| ->]] | [-> [->| ->]]]; destruct c; simpl; intros H;
    solve [reflexivity | discriminate].
Qed.

Lemma way_station_below (D d : pni_sasl_state) :
  well_numbered state_code -> way_station D d -> state_code d < state_code D.
Proof.
  intros (_ & _ & _ & Hip & Hio & Hmc & Hmo) [[-> [->| ->]] | [-> [->| ->]]]; assumption.
Qed.

End PostFrame.

(** ** Runs *)

Section Runs.

Variable state_code : pni_sasl_state -> Z.
Variable list_mechs : pn_transport_t -> Z * option string.

Lemma set_desired_state_legal (t t' : pn_transport_t) (st : pni_sasl_state) :
  pni_sasl_set_desired_state state_code t st = Ok t' ->
  machine_legal t -> machine_legal t'.
Proof.
  intros H (s & Hs & Hl & Hd).
  destruct (request_applied state_code s st) eqn:Ha.
  - rewrite (set_desired_state_applied _ _ _ _ Hs Ha) in H. injection H as <-.
    eexists. rewrite sasl_emit. split; [reflexivity|]. simpl.
    apply andb_true_iff in Ha as [_ Hr].
    split; [apply rewound_role_legal|]; assumption.
  - destruct (set_desired_state_dropped _ _ _ _ Hs Ha) as (fmt & args & E).
    rewrite E in H. injection H as <-. exists s. auto.
Qed.

Lemma post_sasl_frame_legal (fuel : nat) (t t' : pn_transport_t) :
  pni_post_sasl_frame state_code list_mechs fuel t = Ok t' ->
  machine_legal t -> machine_legal t'.
Proof.
  intros H (s & Hs & Hl & Hd).
  destruct (post_sasl_frame_machine _ _ _ _ _ _ H Hs) as (x & Hx & Hc).
  eexists. split; [exact Hx|]. simpl. split; [|assumption].
  destruct Hc as [->|[->|Hw]]; try assumption.
  eapply way_station_role_legal; eassumption.
Qed.

Lemma reachable_legal (t : pn_transport_t) :
  reachable state_code list_mechs t -> machine_legal t.
Proof.
  induction 1 as [cfg t Hnone | t t' _ IH Hstep].
  - unfold pn_sasl. rewrite Hnone. eexists. split; [reflexivity|].
    simpl. destruct (negb (server t)); split; reflexivity.
  - destruct Hstep as [t t' st H | t t' fuel H | t t' s s' Hs Hs' (Hc & Hl & Hd)].
    + eapply set_desired_state_legal; eassumption.
    + eapply post_sasl_frame_legal; eassumption.
    + destruct IH as (s0 & Hs0 & Hl0 & Hd0).
      rewrite Hs in Hs0. injection Hs0 as <-.
      exists s'. rewrite Hc, Hl, Hd. auto.
Qed.

Lemma role_legal_not_foreign (c : bool) (st : pni_sasl_state) :
  role_legal c st = true ->
  (c = true -> server_only st = false) /\ (c = false -> client_only st = false).
Proof.
  unfold role_legal, server_only, client_only. intros H; split; intros ->;
    rewrite H; simpl; apply andb_false_r.
Qed.

(** C1.  A call of [pni_sasl_set_desired_state] with state [st] returns; it
    makes [st] the desired state exactly when [st] is not below [last_state]
    and is legal for the role of the context (client states on a client,
    server states on a server, SASL_NONE on both); otherwise it does nothing
    but append one log entry, so that [last_state] and [desired_state] keep
    their values.  Hence in every run of the state machine a client context
    never holds a server-only state and a server context never holds a
    client-only state, in either field. *)
Theorem set_desired_state_guards_role_and_order :
  (forall (t : pn_transport_t) (s : pni_sasl_t) (st : pni_sasl_state),
      sasl t = Some s ->
      exists t',
        pni_sasl_set_desired_state state_code t st = Ok t'
        /\ if (state_code (last_state s) <=? state_code st) && role_legal (client s) st
           then exists s',
                  sasl t' = Some s' /\ desired_state s' = st /\ client s' = client s
           else (exists fmt args, t' = pn_transport_logf t fmt args)
                /\ sasl t' = Some s)
  /\ role_legal true SASL_NONE = true /\ role_legal false SASL_NONE = true
  /\ (forall st, role_legal true st = true -> server_only st = false)
  /\ (forall st, role_legal false st = true -> client_only st = false)
  /\ (forall (t : pn_transport_t) (s : pni_sasl_t),
         reachable state_code list_mechs t -> sasl t = Some s ->
         (client s = true ->
          server_only (last_state s) = false /\ server_only (desired_state s) = false)
         /\ (client s = false ->
             client_only (last_state s) = false /\ client_only (desired_state s) = false)).
Proof.
  split; [|split; [reflexivity|split; [reflexivity|split; [|split]]]].
  - intros t s st Hs.
    fold (request_applied state_code s st).
    destruct (request_applied state_code s st) eqn:Ha.
    + rewrite (set_desired_state_applied _ _ _ _ Hs Ha). eexists. split; [reflexivity|].
      eexists. rewrite sasl_emit. split; [reflexivity|]. split; reflexivity.
    + destruct (set_desired_state_dropped _ _ _ _ Hs Ha) as (fmt & args & E).
      rewrite E. eexists. split; [reflexivity|]. split; [eauto|exact Hs].
  - intros st H. now apply (role_legal_not_foreign true st H).
  - intros st H. now apply (role_legal_not_foreign false st H).
  - intros t s Hr Hs. destruct (reachable_legal t Hr) as (s0 & Hs0 & Hl & Hd).
    rewrite Hs in Hs0. injection Hs0 as <-.
    destruct (role_legal_not_foreign _ _ Hl) as [Hl1 Hl2].
    destruct (role_legal_not_foreign _ _ Hd) as [Hd1 Hd2].
    split; intros Hc; auto.
Qed.

End Runs.

(** ** Events, rewinds and the drain *)

Section Requests.

Variable state_code : pni_sasl_state -> Z.
Variable list_mechs : pn_transport_t -> Z * option string.

Lemma run_calls_reachable (calls : list machine_call) :
  forall t t',
    reachable state_code list_mechs t ->
    run_calls state_code list_mechs calls t = Ok t' ->
    reachable state_code list_mechs t'.
Proof.
  induction calls as [|[st|] calls IH]; intros t t' Hr H; simpl in H.
  - now injection H as <-.
  - apply bind_Ok_inv in H as (t1 & H1 & H2).
    eapply IH; [|exact H2]. eapply reach_step; [exact Hr|].
    eapply step_set_desired_state; exact H1.
  - apply bind_Ok_inv in H as (t1 & H1 & H2).
    eapply IH; [|exact H2]. eapply reach_step; [exact Hr|].
    eapply step_post_sasl_frame; exact H1.
Qed.

(** C8, as the code has it.  A call of [pni_sasl_set_desired_state] hands a
    PN_TRANSPORT event to the collector exactly when the request is applied
    (no downgrade, legal for the role) and the transport has a connection
    with a collector; a request dropped as a downgrade or as a role violation
    is logged and emits nothing. *)
Theorem set_desired_state_emits_when_applied
    (t : pn_transport_t) (s : pni_sasl_t) (st : pni_sasl_state) :
  sasl t = Some s ->
  exists t',
    pni_sasl_set_desired_state state_code t st = Ok t'
    /\ events t'
       = if request_applied state_code s st && has_collector t
         then events t ++ [PN_TRANSPORT]
         else events t.
Proof.
  intros Hs. destruct (request_applied state_code s st) eqn:Ha.
  - rewrite (set_desired_state_applied _ _ _ _ Hs Ha). eexists. split; [reflexivity|].
    rewrite events_emit. reflexivity.
  - destruct (set_desired_state_dropped _ _ _ _ Hs Ha) as (fmt & args & E).
    rewrite E. eexists. split; reflexivity.
Qed.

Lemma set_desired_state_last_changes
    (t t' : pn_transport_t) (s s' : pni_sasl_t) (st : pni_sasl_state) :
  sasl t = Some s ->
  pni_sasl_set_desired_state state_code t st = Ok t' ->
  sasl t' = Some s' ->
  last_state s' <> last_state s ->
  (st = SASL_POSTED_RESPONSE /\ last_state s = SASL_POSTED_RESPONSE
   /\ last_state s' = SASL_POSTED_INIT)
  \/ (st = SASL_POSTED_CHALLENGE /\ last_state s = SASL_POSTED_CHALLENGE
      /\ last_state s' = SASL_POSTED_MECHANISMS).
Proof.
  intros Hs H Hs' Hne.
  destruct (request_applied state_code s st) eqn:Ha.
  - rewrite (set_desired_state_applied _ _ _ _ Hs Ha) in H. injection H as <-.
    rewrite sasl_emit in Hs'. injection Hs' as <-. simpl in *.
    unfold rewound in *.
    destruct (state_eqb (last_state s) st) eqn:E; simpl in *; [|congruence].
    apply state_eqb_eq in E. rewrite E in *.
    destruct st; simpl in *; try congruence; auto.
  - destruct (set_desired_state_dropped _ _ _ _ Hs Ha) as (fmt & args & E).
    rewrite E in H. injection H as <-. simpl in Hs'. congruence.
Qed.

(** A repeated request: [st] is asked for while it is the last state, on a
    context for whose role it is legal; [back] is where the code rewinds
    to. *)
Lemma repeated_request (t : pn_transport_t) (s : pni_sasl_t) (st back : pni_sasl_state) :
  sasl t = Some s ->
  last_state s = st ->
  role_legal (client s) st = true ->
  rewound s st = back ->
  pni_sasl_set_desired_state state_code t st
  = Ok (pni_emit (with_sasl t (with_desired_state (with_last_state s back) st))).
Proof.
  intros Hs Hl Hr <-. apply set_desired_state_applied; [exact Hs|].
  unfold request_applied. rewrite Hl, Hr, Z.leb_refl. reflexivity.
Qed.

Lemma frames_with_sasl (t : pn_transport_t) (s : pni_sasl_t) :
  frames (with_sasl t s) = frames t.
Proof. reflexivity. Qed.

(** After a rewind from [st] to [back] the drain posts the frame of [st]
    once more. *)
Lemma drain_after_rewind (t : pn_transport_t) (s : pni_sasl_t)
    (st back : pni_sasl_state) (f : sasl_frame) (fuel : nat) :
  well_numbered state_code ->
  state_code back < state_code st ->
  prerequisite state_code (with_desired_state (with_last_state s back) st) st = None ->
  (forall t0 s0, bytes_out s0 = bytes_out s -> outcome s0 = outcome s ->
     post_declared_frame list_mechs t0 s0 st = Ok (pni_emit (pn_post_frame t0 f))) ->
  (4 <= fuel)%nat ->
  exists t'' s'',
    pni_post_sasl_frame state_code list_mechs fuel
      (pni_emit (with_sasl t (with_desired_state (with_last_state s back) st))) = Ok t''
    /\ sasl t'' = Some s''
    /\ frames t'' = frames t ++ [f]
    /\ last_state s'' = st /\ desired_state s'' = st.
Proof.
  intros Hc Hlt Hp Hf Hfuel.
  erewrite post_sasl_frame_drain; [|exact Hc|rewrite sasl_emit; reflexivity|exact Hfuel].
  unfold drain_plan. simpl desired_state. simpl last_state.
  destruct (Z.gtb_spec (state_code st) (state_code back)); [|lia].
  rewrite Hp. simpl drain. unfold pass_through. rewrite sasl_emit.
  cbn [bind deref sasl with_sasl]. rewrite Hf by reflexivity.
  cbn [bind]. eexists. eexists. split; [reflexivity|].
  split; [reflexivity|]. simpl. rewrite !frames_emit. simpl.
  rewrite frames_emit. auto.
Qed.

(** C3.  On a context a run can reach, requesting SASL_POSTED_RESPONSE while
    it is the last state puts [last_state] back to SASL_POSTED_INIT, and
    requesting SASL_POSTED_CHALLENGE while it is the last state puts it back
    to SASL_POSTED_MECHANISMS; both are steps down in the numbering.  After
    the rewind [pni_post_sasl_frame] posts the RESPONSE (CHALLENGE) frame
    again and arrives at the requested state.  No other call of
    [pni_sasl_set_desired_state] changes [last_state] at all. *)
Theorem repeat_request_rewinds :
  well_numbered state_code ->
  (forall (t : pn_transport_t) (s : pni_sasl_t),
      reachable state_code list_mechs t -> sasl t = Some s ->
      last_state s = SASL_POSTED_RESPONSE ->
      exists t' s',
        pni_sasl_set_desired_state state_code t SASL_POSTED_RESPONSE = Ok t'
        /\ sasl t' = Some s'
        /\ last_state s' = SASL_POSTED_INIT
        /\ desired_state s' = SASL_POSTED_RESPONSE
        /\ state_code (last_state s') < state_code (last_state s)
        /\ forall fuel, (4 <= fuel)%nat ->
             exists t'' s'',
               pni_post_sasl_frame state_code list_mechs fuel t' = Ok t''
               /\ sasl t'' = Some s''
               /\ frames t'' = frames t ++ [SASL_RESPONSE (bytes_out s)]
               /\ last_state s'' = SASL_POSTED_RESPONSE
               /\ desired_state s'' = SASL_POSTED_RESPONSE)
  /\ (forall (t : pn_transport_t) (s : pni_sasl_t),
         reachable state_code list_mechs t -> sasl t = Some s ->
         last_state s = SASL_POSTED_CHALLENGE ->
         exists t' s',
           pni_sasl_set_desired_state state_code t SASL_POSTED_CHALLENGE = Ok t'
           /\ sasl t' = Some s'
           /\ last_state s' = SASL_POSTED_MECHANISMS
           /\ desired_state s' = SASL_POSTED_CHALLENGE
           /\ state_code (last_state s') < state_code (last_state s)
           /\ forall fuel, (4 <= fuel)%nat ->
                exists t'' s'',
                  pni_post_sasl_frame state_code list_mechs fuel t' = Ok t''
                  /\ sasl t'' = Some s''
                  /\ frames t'' = frames t ++ [SASL_CHALLENGE (bytes_out s)]
                  /\ last_state s'' = SASL_POSTED_CHALLENGE
                  /\ desired_state s'' = SASL_POSTED_CHALLENGE)
  /\ (forall (t t' : pn_transport_t) (s s' : pni_sasl_t) (st : pni_sasl_state),
         sasl t = Some s ->
         pni_sasl_set_desired_state state_code t st = Ok t' ->
         sasl t' = Some s' ->
         last_state s' <> last_state s ->
         (st = SASL_POSTED_RESPONSE /\ last_state s = SASL_POSTED_RESPONSE
          /\ last_state s' = SASL_POSTED_INIT)
         \/ (st = SASL_POSTED_CHALLENGE /\ last_state s = SASL_POSTED_CHALLENGE
             /\ last_state s' = SASL_POSTED_MECHANISMS)).
Proof.
  intros Hc. pose proof Hc as (Hnone & Hinj & Hir & Hip & Hio & Hmc & Hmo).
  split; [|split].
  - intros t s Hr Hs Hl.
    destruct (reachable_legal _ _ _ Hr) as (s0 & Hs0 & Hleg & _).
    rewrite Hs in Hs0. injection Hs0 as <-. rewrite Hl in Hleg.
    assert (Hrw : rewound s SASL_POSTED_RESPONSE = SASL_POSTED_INIT).
    { unfold rewound. rewrite Hl. reflexivity. }
    rewrite (repeated_request t s _ _ Hs Hl Hleg Hrw).
    eexists. eexists. split; [reflexivity|]. rewrite sasl_emit.
    split; [reflexivity|]. simpl. rewrite Hl.
    repeat split; try assumption.
    intros fuel Hfuel. apply drain_after_rewind; auto.
    intros t0 s0 Hb _. simpl. now rewrite Hb.
  - intros t s Hr Hs Hl.
    destruct (reachable_legal _ _ _ Hr) as (s0 & Hs0 & Hleg & _).
    rewrite Hs in Hs0. injection Hs0 as <-. rewrite Hl in Hleg.
    assert (Hrw : rewound s SASL_POSTED_CHALLENGE = SASL_POSTED_MECHANISMS).
    { unfold rewound. rewrite Hl. reflexivity. }
    rewrite (repeated_request t s _ _ Hs Hl Hleg Hrw).
    eexists. eexists. split; [reflexivity|]. rewrite sasl_emit.
    split; [reflexivity|]. simpl. rewrite Hl.
    repeat split; try assumption.
    intros fuel Hfuel. apply drain_after_rewind; auto.
    + unfold prerequisite. simpl. now rewrite Z.ltb_irrefl.
    + intros t0 s0 Hb _. simpl. now rewrite Hb.
  - intros t t' s s' st. apply set_desired_state_last_changes.
Qed.

End Requests.

Section DrainToDesired.

Variable state_code : pni_sasl_state -> Z.
Variable list_mechs : pn_transport_t -> Z * option string.

Lemma post_declared_frame_frames (t : pn_transport_t) (s : pni_sasl_t)
    (target : pni_sasl_state) :
  (target = SASL_POSTED_MECHANISMS -> mechs_fit list_mechs t s) ->
  exists t1,
    post_declared_frame list_mechs t s target = Ok t1
    /\ frames t1 = frames t ++ declared_frame list_mechs t s target.
Proof.
  intros Hfit. destruct target; simpl; try rewrite post_mechanisms_fit by auto;
    eexists; (split; [reflexivity|]); rewrite ?frames_emit; simpl;
    rewrite ?app_nil_r; reflexivity.
Qed.

Lemma declared_frame_later (t t1 : pn_transport_t) (s : pni_sasl_t)
    (p target : pni_sasl_state) :
  target <> SASL_POSTED_MECHANISMS ->
  declared_frame list_mechs t1 (with_last_state s p) target
  = declared_frame list_mechs t s target.
Proof. intros Hne. destruct target; try reflexivity. congruence. Qed.

(** In every run [last_state] stays at or below [desired_state]. *)
Lemma reachable_ordered (t : pn_transport_t) :
  well_numbered state_code ->
  reachable state_code list_mechs t ->
  exists s, sasl t = Some s
            /\ state_code (last_state s) <= state_code (desired_state s).
Proof.
  intros Hc. pose proof Hc as (Hnone & Hinj & Hir & Hip & Hio & Hmc & Hmo).
  induction 1 as [cfg t Hnone' | t t' _ IH Hstep].
  - unfold pn_sasl. rewrite Hnone'. eexists. split; [reflexivity|]. simpl. lia.
  - destruct IH as (s & Hs & Hle).
    destruct Hstep as [t t' st H | t t' fuel H | t t' s1 s' Hs1 Hs' (Hcl & Hl & Hd)].
    + destruct (request_applied state_code s st) eqn:Ha.
      * rewrite (set_desired_state_applied _ _ _ _ Hs Ha) in H. injection H as <-.
        eexists. rewrite sasl_emit. split; [reflexivity|]. simpl.
        apply andb_true_iff in Ha as [Hle' _]. apply Z.leb_le in Hle'.
        unfold rewound.
        destruct (state_eqb (last_state s) st) eqn:E; simpl; [|assumption].
        destruct st; simpl; lia.
      * destruct (set_desired_state_dropped _ _ _ _ Hs Ha) as (fmt & args & E).
        rewrite E in H. injection H as <-. exists s. auto.
    + destruct (post_sasl_frame_machine _ _ _ _ _ _ H Hs) as (x & Hx & Hcases).
      eexists. split; [exact Hx|]. simpl.
      destruct Hcases as [->|[->|Hw]]; try lia.
      pose proof (way_station_below _ _ _ Hc Hw). lia.
    + rewrite Hs in Hs1. injection Hs1 as <-. exists s'. rewrite Hl, Hd. auto.
Qed.

(** While the backend's advertisement fits the array of 16,
    [pni_post_sasl_frame] drains along [drain_plan]: it passes through
    the desired state, preceded by SASL_POSTED_MECHANISMS when the desired
    state is SASL_POSTED_CHALLENGE or SASL_POSTED_OUTCOME and the context has
    not reached SASL_POSTED_MECHANISMS, and by SASL_POSTED_INIT when the
    desired state is SASL_PRETEND_OUTCOME, or SASL_RECVED_OUTCOME with
    outcome OK, and the context has not reached SASL_POSTED_INIT.  At each
    state passed it posts the frame declared for it, and the loop ends, for
    any fuel from 4 on, with [last_state] equal to [desired_state].  The
    context starts at or below its desired state, as every context of a run
    does. *)
Lemma post_sasl_frame_drains_when_fit
    (t : pn_transport_t) (s : pni_sasl_t) (fuel : nat) :
  well_numbered state_code ->
  sasl t = Some s ->
  state_code (last_state s) <= state_code (desired_state s) ->
  (In SASL_POSTED_MECHANISMS (drain_plan state_code s) -> mechs_fit list_mechs t s) ->
  (4 <= fuel)%nat ->
  pni_post_sasl_frame state_code list_mechs fuel t
  = drain list_mechs (drain_plan state_code s) t
  /\ exists t' s',
       pni_post_sasl_frame state_code list_mechs fuel t = Ok t'
       /\ sasl t' = Some s'
       /\ s' = with_last_state s (desired_state s)
       /\ last_state s' = desired_state s'
       /\ frames t'
          = frames t ++ flat_map (declared_frame list_mechs t s) (drain_plan state_code s).
Proof.
  intros Hc Hs Hle Hfit Hfuel.
  pose proof Hc as (Hnone & Hinj & Hir & Hip & Hio & Hmc & Hmo).
  rewrite (post_sasl_frame_drain _ _ _ _ s Hc Hs Hfuel). split; [reflexivity|].
  unfold drain_plan in *.
  destruct (Z.gtb_spec (state_code (desired_state s)) (state_code (last_state s)))
    as [Hgt|Hngt].
  - destruct (prerequisite state_code s (desired_state s)) as [p|] eqn:Hp.
    + destruct (prerequisite_cases _ _ _ _ Hp) as [_ Hcases].
      assert (Hdm : desired_state s <> SASL_POSTED_MECHANISMS).
      { destruct Hcases as [[_ [E|E]] | [_ [E|E]]]; rewrite E; discriminate. }
      destruct (post_declared_frame_frames t s p) as (t1 & H1 & F1).
      { intros ->. apply Hfit. left. reflexivity. }
      simpl drain. unfold pass_through at 1. rewrite Hs. cbn [bind deref]. rewrite H1.
      cbn [bind]. unfold pass_through. cbn [sasl with_sasl bind deref].
      destruct (post_declared_frame_frames (with_sasl t1 (with_last_state s p))
                  (with_last_state s p) (desired_state s)) as (t2 & H2 & F2).
      { intros E. congruence. }
      rewrite H2. cbn [bind].
      eexists. eexists. split; [reflexivity|]. split; [reflexivity|].
      split; [reflexivity|]. split; [reflexivity|].
      simpl. rewrite F2, (declared_frame_later t _ s p _ Hdm). simpl.
      rewrite F1, app_nil_r, app_assoc. reflexivity.
    + destruct (post_declared_frame_frames t s (desired_state s)) as (t1 & H1 & F1).
      { intros E. apply Hfit. left. exact E. }
      simpl drain. unfold pass_through. rewrite Hs. cbn [bind deref]. rewrite H1.
      cbn [bind].
      eexists. eexists. split; [reflexivity|]. split; [reflexivity|].
      split; [reflexivity|]. split; [reflexivity|].
      simpl. rewrite F1, app_nil_r. reflexivity.
  - assert (E : last_state s = desired_state s) by (apply Hinj; lia).
    simpl. exists t, s. rewrite <- E, with_last_state_same, app_nil_r. auto.
Qed.

(** When the drain passes through SASL_POSTED_MECHANISMS it does so first. *)
Lemma plan_mechanisms_head (s : pni_sasl_t) :
  In SASL_POSTED_MECHANISMS (drain_plan state_code s) ->
  exists rest, drain_plan state_code s = SASL_POSTED_MECHANISMS :: rest.
Proof.
  unfold drain_plan.
  destruct (state_code (desired_state s) >? state_code (last_state s));
    [|contradiction].
  destruct (prerequisite state_code s (desired_state s)) as [p|] eqn:Hp.
  - intros [E|[E|[]]].
    + subst p. eauto.
    + rewrite E in Hp. discriminate.
  - intros [E|[]]. rewrite E. eauto.
Qed.

(** More than 16 admitted mechanisms: the store of the seventeenth is past
    the end of the array of [pni_post_sasl_frame]. *)
Lemma post_mechanisms_overrun (t : pn_transport_t) (s : pni_sasl_t) (mechlist : string) :
  fst (list_mechs t) > 0 ->
  snd (list_mechs t) = Some mechlist ->
  (16 < List.length (admitted (included_mechanisms s) mechlist))%nat ->
  post_mechanisms list_mechs t s = Undefined OutOfBounds.
Proof.
  intros Hpos Hl Hlen. unfold post_mechanisms.
  destruct (Z.gtb_spec (fst (list_mechs t)) 0); [|lia].
  rewrite Hl. cbn [deref bind]. rewrite pni_split_mechs_fresh.
  apply Nat.leb_gt in Hlen. rewrite Hlen. reflexivity.
Qed.

(** Without a list that fits, the MECHANISMS step is undefined. *)
Lemma post_mechanisms_without_fit (t : pn_transport_t) (s : pni_sasl_t) :
  ~ mechs_fit list_mechs t s ->
  exists f, post_mechanisms list_mechs t s = Undefined f.
Proof.
  intros Hnot. unfold post_mechanisms.
  destruct (Z.gtb_spec (fst (list_mechs t)) 0) as [Hpos|Hnp].
  - destruct (snd (list_mechs t)) as [mechlist|] eqn:Hl.
    + cbn [deref bind]. rewrite pni_split_mechs_fresh.
      destruct (Nat.leb (List.length (admitted (included_mechanisms s) mechlist)) 16)
        eqn:E.
      * exfalso. apply Hnot. intros _. exists mechlist. rewrite Hl.
        apply Nat.leb_le in E. auto.
      * cbn [bind]. eexists. reflexivity.
    + cbn [deref bind]. eexists. reflexivity.
  - exfalso. apply Hnot. intros H. lia.
Qed.

Lemma drain_mechanisms_undefined (t : pn_transport_t) (s : pni_sasl_t) (fuel : nat)
    (f : fault) :
  well_numbered state_code ->
  sasl t = Some s ->
  (4 <= fuel)%nat ->
  In SASL_POSTED_MECHANISMS (drain_plan state_code s) ->
  post_mechanisms list_mechs t s = Undefined f ->
  pni_post_sasl_frame state_code list_mechs fuel t = Undefined f.
Proof.
  intros Hc Hs Hfuel Hin Hpost.
  rewrite (post_sasl_frame_drain _ _ _ _ s Hc Hs Hfuel).
  destruct (plan_mechanisms_head s Hin) as (rest & ->).
  cbn [drain]. unfold pass_through. rewrite Hs. cbn [bind deref post_declared_frame].
  rewrite Hpost. reflexivity.
Qed.

End DrainToDesired.

(** ** The state machine on concrete contexts *)

Lemma new_client_reachable (list_mechs : pn_transport_t -> Z * option string) :
  reachable enum_code list_mechs new_client.
Proof. apply reach_pn_sasl. reflexivity. Qed.

Lemma new_server_reachable (list_mechs : pn_transport_t -> Z * option string) :
  reachable enum_code list_mechs new_server.
Proof. apply reach_pn_sasl. reflexivity. Qed.

Lemma client_after_response_reachable :
  reachable enum_code no_mechs client_after_response.
Proof.
  eapply run_calls_reachable; [apply new_client_reachable|].
  instantiate (1 := [Call_set_desired_state SASL_POSTED_INIT; Call_post_sasl_frame;
                     Call_set_desired_state SASL_POSTED_RESPONSE; Call_post_sasl_frame]).
  vm_compute. reflexivity.
Qed.

Lemma server_after_challenge_reachable :
  reachable enum_code two_mechs server_after_challenge.
Proof.
  eapply run_calls_reachable; [apply new_server_reachable|].
  instantiate (1 := [Call_set_desired_state SASL_POSTED_MECHANISMS; Call_post_sasl_frame;
                     Call_set_desired_state SASL_POSTED_CHALLENGE; Call_post_sasl_frame]).
  vm_compute. reflexivity.
Qed.

Lemma server_asked_for_mechanisms_reachable :
  reachable enum_code many_mechs server_asked_for_mechanisms.
Proof.
  eapply run_calls_reachable; [apply new_server_reachable|].
  instantiate (1 := [Call_set_desired_state SASL_POSTED_MECHANISMS]).
  vm_compute. reflexivity.
Qed.

(** C2, on the code.  For any fuel from 4 on [pni_post_sasl_frame] is the
    drain along [drain_plan]: the desired state, preceded by
    SASL_POSTED_MECHANISMS or SASL_POSTED_INIT when that prerequisite is
    unmet.  While the backend's advertisement fits the array of 16 it posts
    the frame declared for each state passed and ends with [last_state]
    equal to [desired_state].  When the drain passes through
    SASL_POSTED_MECHANISMS and the backend advertises more than 16 admitted
    mechanisms, the loop does not end so: it stores past the end of the
    array.  A new server that has asked for its MECHANISMS, with a backend of
    seventeen mechanisms, is a context of a run on which the drain fails
    with this store, for any fuel. *)
Theorem post_sasl_frame_drain_overruns_array :
  (forall state_code list_mechs (t : pn_transport_t) (s : pni_sasl_t) (fuel : nat),
      well_numbered state_code ->
      sasl t = Some s ->
      (4 <= fuel)%nat ->
      pni_post_sasl_frame state_code list_mechs fuel t
      = drain list_mechs (drain_plan state_code s) t)
  /\ (forall state_code list_mechs (t : pn_transport_t) (s : pni_sasl_t) (fuel : nat),
         well_numbered state_code ->
         sasl t = Some s ->
         state_code (last_state s) <= state_code (desired_state s) ->
         (4 <= fuel)%nat ->
         (In SASL_POSTED_MECHANISMS (drain_plan state_code s) ->
          mechs_fit list_mechs t s) ->
         exists t' s',
           pni_post_sasl_frame state_code list_mechs fuel t = Ok t'
           /\ sasl t' = Some s'
           /\ s' = with_last_state s (desired_state s)
           /\ last_state s' = desired_state s'
           /\ frames t'
              = frames t
                  ++ flat_map (declared_frame list_mechs t s) (drain_plan state_code s))
  /\ (forall state_code list_mechs (t : pn_transport_t) (s : pni_sasl_t) (fuel : nat)
             (mechlist : string),
         well_numbered state_code ->
         sasl t = Some s ->
         (4 <= fuel)%nat ->
         In SASL_POSTED_MECHANISMS (drain_plan state_code s) ->
         fst (list_mechs t) > 0 ->
         snd (list_mechs t) = Some mechlist ->
         (16 < List.length (admitted (included_mechanisms s) mechlist))%nat ->
         pni_post_sasl_frame state_code list_mechs fuel t = Undefined OutOfBounds)
  /\ reachable enum_code many_mechs server_asked_for_mechanisms
  /\ (forall fuel,
         (4 <= fuel)%nat ->
         pni_post_sasl_frame enum_code many_mechs fuel server_asked_for_mechanisms
         = Undefined OutOfBounds).
Proof.
  split; [|split; [|split; [|split]]].
  - intros state_code list_mechs t s fuel Hc Hs Hfuel.
    exact (post_sasl_frame_drain state_code list_mechs fuel t s Hc Hs Hfuel).
  - intros state_code list_mechs t s fuel Hc Hs Hle Hfuel Hfit.
    destruct (post_sasl_frame_drains_when_fit state_code list_mechs t s fuel
                Hc Hs Hle Hfit Hfuel) as [_ H].
    exact H.
  - intros state_code list_mechs t s fuel mechlist Hc Hs Hfuel Hin Hpos Hl Hlen.
    apply (drain_mechanisms_undefined state_code list_mechs t s fuel OutOfBounds
             Hc Hs Hfuel Hin).
    exact (post_mechanisms_overrun list_mechs t s mechlist Hpos Hl Hlen).
  - exact server_asked_for_mechanisms_reachable.
  - intros fuel Hfuel.
    apply (drain_mechanisms_undefined enum_code many_mechs server_asked_for_mechanisms
             _ fuel OutOfBounds enum_code_well_numbered eq_refl Hfuel).
    + left. reflexivity.
    + apply (post_mechanisms_overrun many_mechs server_asked_for_mechanisms _
               seventeen_mechs); [reflexivity|reflexivity|].
      vm_compute. repeat constructor.
Qed.

(** A server asked for a CHALLENGE before it has advertised anything, with a
    backend of two mechanisms, posts MECHANISMS, then the CHALLENGE. *)
Lemma post_sasl_frame_drain_overruns_array_witness :
  exists t' s',
    pni_post_sasl_frame enum_code two_mechs 4
      (at_states new_server SASL_NONE SASL_POSTED_CHALLENGE) = Ok t'
    /\ sasl t' = Some s'
    /\ last_state s' = desired_state s'
    /\ frames t' = [SASL_MECHANISMS [Some "PLAIN"; Some "ANONYMOUS"]; SASL_CHALLENGE ""].
Proof.
  destruct post_sasl_frame_drain_overruns_array as (_ & Hfit & _).
  edestruct (Hfit enum_code two_mechs
               (at_states new_server SASL_NONE SASL_POSTED_CHALLENGE))
    as (t' & s' & H1 & H2 & H3 & H4 & H5).
  - exact enum_code_well_numbered.
  - reflexivity.
  - vm_compute. discriminate.
  - apply (le_n 4).
  - intros _ _. exists "PLAIN ANONYMOUS". split; [reflexivity|].
    vm_compute. repeat constructor.
  - exists t', s'. repeat split; assumption.
Defined.

(** A client that repeats its RESPONSE. *)
Lemma repeat_request_rewinds_witness :
  exists t' s',
    pni_sasl_set_desired_state enum_code client_after_response SASL_POSTED_RESPONSE = Ok t'
    /\ sasl t' = Some s'
    /\ last_state s' = SASL_POSTED_INIT
    /\ desired_state s' = SASL_POSTED_RESPONSE.
Proof.
  destruct (repeat_request_rewinds enum_code no_mechs enum_code_well_numbered)
    as [H _].
  destruct (H client_after_response _ client_after_response_reachable eq_refl eq_refl)
    as (t' & s' & H1 & H2 & H3 & H4 & _).
  exists t', s'. repeat split; assumption.
Defined.

(** Two RESPONSE frames in succession: the second request finds
    [last_state] at SASL_POSTED_RESPONSE, rewinds it, and the drain posts the
    frame again. *)
Lemma second_response_is_posted :
  exists t',
    run_calls enum_code no_mechs
      [Call_set_desired_state SASL_POSTED_RESPONSE; Call_post_sasl_frame]
      client_after_response = Ok t'
    /\ frames t' = [SASL_INIT None ""; SASL_RESPONSE ""; SASL_RESPONSE ""]
    /\ option_map last_state (sasl t') = Some SASL_POSTED_RESPONSE.
Proof. eexists. split; [vm_compute; reflexivity|]. split; reflexivity. Qed.

(** A fresh client asking for SASL_POSTED_INIT emits one event. *)
Lemma set_desired_state_emits_when_applied_witness :
  exists t',
    pni_sasl_set_desired_state enum_code new_client SASL_POSTED_INIT = Ok t'
    /\ events t' = [PN_TRANSPORT].
Proof.
  destruct (set_desired_state_emits_when_applied enum_code new_client _
              SASL_POSTED_INIT eq_refl) as (t' & H1 & H2).
  exists t'. split; assumption.
Defined.

(** C8 as stated fails.  A fresh client with a collector asks for the server
    state SASL_POSTED_MECHANISMS: the request is logged as a role violation
    and no event is recorded.  A client that has sent its RESPONSE asks for
    SASL_POSTED_INIT: the request is logged as a downgrade and the recorded
    events stay as they were. *)
Lemma set_desired_state_dropped_emits_nothing :
  has_collector new_client = true
  /\ pni_sasl_set_desired_state enum_code new_client SASL_POSTED_MECHANISMS
     = Ok (pn_transport_logf new_client log_server_frame_on_client [ArgInt 2])
  /\ events (pn_transport_logf new_client log_server_frame_on_client [ArgInt 2]) = []
  /\ has_collector client_after_response = true
  /\ pni_sasl_set_desired_state enum_code client_after_response SASL_POSTED_INIT
     = Ok (pn_transport_logf client_after_response log_later_state [ArgInt 1; ArgInt 3])
  /\ events (pn_transport_logf client_after_response log_later_state [ArgInt 1; ArgInt 3])
     = events client_after_response.
Proof. repeat split. Qed.

(** ** The allow-list *)

Section AllowList.

Lemma included_loop_unfold (c s : string) :
  pni_included_mech_loop c s
  = if Nat.ltb (String.length c) (String.length s) then false
    else if (pn_strncasecmp c s (String.length s) =? 0)
            && (is_sp (char_at c (String.length s)) || is_nul (char_at c (String.length s)))
    then true
    else after_first_space s c.
Proof. destruct c; reflexivity. Qed.

Lemma is_nul_true (c : ascii) : is_nul c = true <-> c = NUL.
Proof. apply Ascii.eqb_eq. Qed.

Lemma is_sp_true (c : ascii) : is_sp c = true <-> c = SP.
Proof. apply Ascii.eqb_eq. Qed.

Lemma char_code_inj (a b : ascii) : char_code a - char_code b = 0 -> a = b.
Proof.
  unfold char_code. intros H.
  assert (E : nat_of_ascii a = nat_of_ascii b) by lia.
  rewrite <- (ascii_nat_embedding a), <- (ascii_nat_embedding b). now rewrite E.
Qed.

Lemma cstr_nul_free (s : string) : nul_free (cstr s) = true.
Proof.
  induction s as [|c r IH]; simpl; [reflexivity|].
  destruct (is_nul c) eqn:E; simpl; [reflexivity|]. now rewrite E.
Qed.

Lemma cstr_of_nul_free (s : string) : nul_free s = true -> cstr s = s.
Proof.
  induction s as [|c r IH]; simpl; [reflexivity|].
  intros H. apply andb_true_iff in H as [Hc Hr].
  apply negb_true_iff in Hc. rewrite Hc. now rewrite IH.
Qed.

Lemma nul_free_append (a b : string) :
  nul_free (a ++ b) = nul_free a && nul_free b.
Proof.
  induction a as [|c a IH]; simpl; [reflexivity|]. now rewrite IH, andb_assoc.
Qed.

Lemma length_append (a b : string) :
  String.length (a ++ b) = (String.length a + String.length b)%nat.
Proof. induction a as [|c a IH]; simpl; [reflexivity|]. now rewrite IH. Qed.

Lemma split_at_length (c : string) (n : nat) :
  (n <= String.length c)%nat ->
  exists w post, c = (w ++ post)%string /\ String.length w = n.
Proof.
  revert c. induction n as [|n IH]; intros c H.
  - exists EmptyString, c. split; reflexivity.
  - destruct c as [|a c]; simpl in H; [lia|].
    destruct (IH c) as (w & post & -> & Hl); [lia|].
    exists (String a w), post. split; [reflexivity|]. simpl. now rewrite Hl.
Qed.

Lemma strncasecmp_prefix (sym : string) :
  forall w post,
    nul_free w = true ->
    String.length w = String.length sym ->
    pn_strncasecmp (w ++ post) sym (String.length sym) = 0 <-> lower w = lower sym.
Proof.
  induction sym as [|b sym IH]; intros w post Hn Hl.
  - destruct w; [|discriminate]. simpl. tauto.
  - destruct w as [|a w]; [discriminate|].
    simpl in Hn. apply andb_true_iff in Hn as [Ha Hw]. apply negb_true_iff in Ha.
    injection Hl as Hl. simpl.
    destruct (Z.eqb_spec (char_code (tolower a) - char_code (tolower b)) 0) as [E|E];
      simpl.
    + apply char_code_inj in E. rewrite Ha, E.
      rewrite (IH w post Hw Hl). split; [intros ->; reflexivity|].
      intros H. now injection H.
    + split; [intros H; contradiction|].
      intros H. injection H as H _. rewrite H, Z.sub_diag in E. contradiction.
Qed.

Lemma char_at_append (w post : string) :
  char_at (w ++ post) (String.length w) = str_head post.
Proof.
  unfold char_at. induction w as [|a w IH]; simpl; [|exact IH].
  destruct post; reflexivity.
Qed.

Lemma delimiter_word_end (post : string) :
  nul_free post = true ->
  is_sp (str_head post) || is_nul (str_head post) = true <-> word_end post.
Proof.
  unfold word_end. destruct post as [|c r]; simpl; intros Hn.
  - split; auto.
  - apply andb_true_iff in Hn as [Hc _]. apply negb_true_iff in Hc. rewrite Hc.
    rewrite orb_false_r, is_sp_true. split.
    + intros ->. right. eauto.
    + intros [H|[r' H]]; [discriminate|]. now injection H.
Qed.

(** The test the loop makes at one word of the list. *)
Lemma check_here (c sym : string) :
  nul_free c = true ->
  (Nat.ltb (String.length c) (String.length sym) = false
   /\ (pn_strncasecmp c sym (String.length sym) =? 0)
      && (is_sp (char_at c (String.length sym)) || is_nul (char_at c (String.length sym)))
      = true)
  <-> matches_here c sym.
Proof.
  intros Hn. unfold matches_here. split.
  - intros [Hlen Hchk]. apply Nat.ltb_ge in Hlen.
    destruct (split_at_length c _ Hlen) as (w & post & -> & Hl).
    rewrite nul_free_append in Hn. apply andb_true_iff in Hn as [Hw Hpost].
    apply andb_true_iff in Hchk as [Hcmp Hdel]. apply Z.eqb_eq in Hcmp.
    exists w, post. repeat split; try assumption.
    + now apply (strncasecmp_prefix sym w post).
    + rewrite <- Hl, char_at_append in Hdel. now apply delimiter_word_end.
  - intros (w & post & -> & Hl & Hlow & Hend).
    rewrite nul_free_append in Hn. apply andb_true_iff in Hn as [Hw Hpost].
    split.
    + apply Nat.ltb_ge. rewrite length_append. lia.
    + apply andb_true_iff. split.
      * apply Z.eqb_eq. now apply strncasecmp_prefix.
      * rewrite <- Hl, char_at_append. now apply delimiter_word_end.
Qed.

Lemma nul_free_tail (pre : string) (a : ascii) (c : string) :
  nul_free (pre ++ String a c) = true -> nul_free c = true.
Proof.
  rewrite nul_free_append. simpl. intros H.
  apply andb_true_iff in H as [_ H]. now apply andb_true_iff in H as [_ H].
Qed.

(** The words after the first one. *)
Lemma after_first_space_spec (sym : string) (r : string) :
  (forall c1, (String.length c1 < String.length r)%nat -> nul_free c1 = true ->
     pni_included_mech_loop c1 sym = true <-> listed c1 sym) ->
  nul_free r = true ->
  after_first_space sym r = true
  <-> exists c, (exists pre, r = (pre ++ String SP c)%string) /\ matches_here c sym.
Proof.
  induction r as [|ch r IH]; intros Hout Hn.
  - simpl. split; [discriminate|]. intros (c & (pre & H) & _). destruct pre; discriminate.
  - simpl in Hn. apply andb_true_iff in Hn as [_ Hr].
    simpl. destruct (is_sp ch) eqn:Es.
    + apply is_sp_true in Es. subst ch.
      rewrite (Hout r) by (simpl; lia || assumption). unfold listed, word_start_of.
      split.
      * intros (c & [E|(pre & E)] & Hm); exists c; (split; [|assumption]).
        -- exists EmptyString. now rewrite E.
        -- exists (String SP pre). now rewrite E.
      * intros (c & (pre & H) & Hm). exists c. split; [|assumption].
        destruct pre as [|a pre]; simpl in H.
        -- injection H as H. left. now symmetry.
        -- injection H as _ H. right. eauto.
    + rewrite IH; [|intros c1 Hc1; apply Hout; simpl; lia|assumption].
      split.
      * intros (c & (pre & ->) & Hm). exists c. split; [|assumption].
        exists (String ch pre). reflexivity.
      * intros (c & (pre & H) & Hm). exists c. split; [|assumption].
        destruct pre as [|a pre]; simpl in H; injection H as H1 H2.
        -- subst ch. discriminate.
        -- eauto.
Qed.

Lemma included_loop_listed (n : nat) :
  forall c sym,
    (String.length c < n)%nat -> nul_free c = true ->
    pni_included_mech_loop c sym = true <-> listed c sym.
Proof.
  induction n as [|n IH]; intros c sym Hlen Hn; [lia|].
  rewrite included_loop_unfold.
  pose proof (check_here c sym Hn) as Hchk.
  pose proof (after_first_space_spec sym c
                (fun c1 H1 => IH c1 sym ltac:(lia)) Hn) as Hrest.
  unfold listed, word_start_of.
  destruct (Nat.ltb (String.length c) (String.length sym)) eqn:Elt.
  - split; [discriminate|]. intros (c' & Hws & w & post & -> & Hl & _).
    apply Nat.ltb_lt in Elt. exfalso.
    destruct Hws as [<-|(pre & ->)]; rewrite !length_append in Elt; simpl in Elt;
      try rewrite length_append in Elt; lia.
  - destruct ((pn_strncasecmp c sym (String.length sym) =? 0)
              && (is_sp (char_at c (String.length sym))
                  || is_nul (char_at c (String.length sym)))) eqn:Ec.
    + split; [|reflexivity]. intros _. exists c. split; [left; reflexivity|].
      apply Hchk. auto.
    + rewrite Hrest. split.
      * intros (c' & Hpre & Hm). exists c'. auto.
      * intros (c' & [->|Hpre] & Hm).
        -- apply Hchk in Hm as [_ Hm]. congruence.
        -- exists c'. auto.
Qed.

(** A symbol passes the allow-list exactly when the list names it. *)
Lemma pni_included_mech_listed (l sym : string) :
  pni_included_mech (Some l) sym = true <-> listed (cstr l) sym.
Proof.
  simpl. apply (included_loop_listed (S (String.length (cstr l)))); [lia|].
  apply cstr_nul_free.
Qed.

End AllowList.

(** ** The MECHANISMS frame *)

Section DoMechanisms.

Variable state_code : pni_sasl_state -> Z.
Variable pni_init_client : pn_transport_t -> bool * backend_writes.
Variable pni_process_mechanisms : pn_transport_t -> string -> bool * backend_writes.
Variable list_mechs : pn_transport_t -> Z * option string.

Lemma addf_symbol_nul_free (mechs sym : string) :
  nul_free sym = true ->
  addf_symbol mechs sym = (mechs ++ sym ++ String SP EmptyString)%string.
Proof.
  intros H. unfold addf_symbol. rewrite (cstr_of_nul_free sym H), Nat.sub_diag.
  reflexivity.
Qed.

Lemma fold_addf_spaced (keep : string -> bool) (syms : list string) :
  forall acc,
    forallb nul_free syms = true ->
    fold_left (fun mechs sym => if keep sym then addf_symbol mechs sym else mechs) syms acc
    = (acc ++ spaced (filter keep syms))%string.
Proof.
  induction syms as [|x syms IH]; intros acc Hn; simpl.
  - now rewrite append_empty_r.
  - simpl in Hn. apply andb_true_iff in Hn as [Hx Hs].
    rewrite IH by assumption. destruct (keep x); [|reflexivity].
    rewrite addf_symbol_nul_free by assumption. simpl.
    rewrite !append_assoc. reflexivity.
Qed.

Lemma spaced_join (l : list string) :
  l <> [] -> spaced l = (join_sp l ++ String SP EmptyString)%string.
Proof.
  induction l as [|x [|y r] IH]; intros H; [congruence| |].
  - reflexivity.
  - change (spaced (x :: y :: r)) with (x ++ String SP (spaced (y :: r)))%string.
    rewrite IH by discriminate.
    change (join_sp (x :: y :: r)) with (x ++ String SP (join_sp (y :: r)))%string.
    rewrite append_assoc. reflexivity.
Qed.

Lemma nul_last_snoc (x : string) (c : ascii) :
  nul_last (x ++ String c EmptyString) = (x ++ String NUL EmptyString)%string.
Proof.
  induction x as [|a x IH]; [reflexivity|].
  simpl. rewrite IH. destruct x; reflexivity.
Qed.

Lemma cstr_snoc_nul (x : string) :
  nul_free x = true -> cstr (x ++ String NUL EmptyString) = x.
Proof.
  induction x as [|a x IH]; simpl; [reflexivity|].
  intros H. apply andb_true_iff in H as [Ha Hx]. apply negb_true_iff in Ha.
  now rewrite Ha, IH.
Qed.

Lemma nul_free_join (l : list string) :
  forallb nul_free l = true -> nul_free (join_sp l) = true.
Proof.
  induction l as [|x [|y r] IH]; intros H; [reflexivity| |].
  - simpl in *. now rewrite andb_true_r in H.
  - change (join_sp (x :: y :: r)) with (x ++ String SP (join_sp (y :: r)))%string.
    simpl in H. apply andb_true_iff in H as [Hx H].
    rewrite nul_free_append, Hx. simpl. apply IH. exact H.
Qed.

Lemma forallb_filter (f keep : string -> bool) (l : list string) :
  forallb f l = true -> forallb f (filter keep l) = true.
Proof.
  induction l as [|x l IH]; simpl; [reflexivity|]. intros H.
  apply andb_true_iff in H as [Hx Hl]. destruct (keep x); simpl; [rewrite Hx|]; auto.
Qed.

(** The string [pn_do_mechanisms] builds and hands to the backend: the kept
    symbols, space-separated, without the trailing separator. *)
Lemma offered_string (keep : string -> bool) (syms : list string) :
  forallb nul_free syms = true ->
  cstr
    (let mechs :=
       fold_left (fun mechs sym => if keep sym then addf_symbol mechs sym else mechs)
         syms EmptyString in
     if negb (Nat.eqb (String.length mechs) 0) then nul_last mechs else mechs)
  = join_sp (filter keep syms).
Proof.
  intros Hn. cbv zeta. rewrite fold_addf_spaced by assumption. simpl append.
  destruct (filter keep syms) as [|x r] eqn:E; [reflexivity|].
  rewrite spaced_join by discriminate.
  assert (Hj : nul_free (join_sp (x :: r)) = true).
  { apply nul_free_join. rewrite <- E. now apply forallb_filter. }
  generalize dependent (join_sp (x :: r)). intros j Hj.
  rewrite length_append.
  replace (Nat.eqb (String.length j + String.length (String SP EmptyString)) 0) with false
    by (symmetry; apply Nat.eqb_neq; simpl; lia).
  simpl negb. cbv iota. rewrite nul_last_snoc. now apply cstr_snoc_nul.
Qed.

Lemma addf_symbol_printed (mechs sym : string) :
  addf_symbol mechs sym = (mechs ++ printed sym ++ String SP EmptyString)%string.
Proof. unfold addf_symbol, printed. now rewrite !append_assoc. Qed.

Lemma fold_addf_printed (keep : string -> bool) (syms : list string) :
  forall acc,
    fold_left (fun mechs sym => if keep sym then addf_symbol mechs sym else mechs) syms acc
    = (acc ++ spaced (map printed (filter keep syms)))%string.
Proof.
  induction syms as [|x syms IH]; intros acc; simpl.
  - now rewrite append_empty_r.
  - rewrite IH. destruct (keep x); [|reflexivity].
    rewrite addf_symbol_printed. simpl. rewrite !append_assoc. reflexivity.
Qed.

Lemma nul_free_spaces (n : nat) : nul_free (string_of_list_ascii (repeat SP n)) = true.
Proof. induction n as [|n IH]; simpl; [reflexivity|exact IH]. Qed.

Lemma printed_nul_free (sym : string) : nul_free (printed sym) = true.
Proof.
  unfold printed. rewrite nul_free_append, nul_free_spaces, cstr_nul_free. reflexivity.
Qed.

Lemma printed_of_nul_free (sym : string) : nul_free sym = true -> printed sym = sym.
Proof.
  intros H. unfold printed. rewrite (cstr_of_nul_free sym H), Nat.sub_diag. reflexivity.
Qed.

Lemma map_printed_nul_free (syms : list string) :
  forallb nul_free syms = true -> map printed syms = syms.
Proof.
  induction syms as [|x syms IH]; simpl; [reflexivity|]. intros H.
  apply andb_true_iff in H as [Hx Hs]. now rewrite (printed_of_nul_free x Hx), IH.
Qed.

(** The string [pn_do_mechanisms] builds and hands to the backend, for any
    symbols: what is printed for the kept symbols, space-separated, without
    the trailing separator. *)
Lemma offered_string_printed (keep : string -> bool) (syms : list string) :
  cstr
    (let mechs :=
       fold_left (fun mechs sym => if keep sym then addf_symbol mechs sym else mechs)
         syms EmptyString in
     if negb (Nat.eqb (String.length mechs) 0) then nul_last mechs else mechs)
  = join_sp (map printed (filter keep syms)).
Proof.
  cbv zeta. rewrite fold_addf_printed. simpl append.
  destruct (filter keep syms) as [|x r]; [reflexivity|].
  rewrite spaced_join by discriminate.
  assert (Hj : nul_free (join_sp (map printed (x :: r))) = true).
  { apply nul_free_join. clear. induction (x :: r) as [|y l IH]; simpl; [reflexivity|].
    now rewrite printed_nul_free, IH. }
  generalize dependent (join_sp (map printed (x :: r))). intros j Hj.
  rewrite length_append.
  replace (Nat.eqb (String.length j + String.length (String SP EmptyString)) 0) with false
    by (symmetry; apply Nat.eqb_neq; simpl; lia).
  simpl negb. cbv iota. rewrite nul_last_snoc. now apply cstr_snoc_nul.
Qed.

Lemma set_desired_state_summary (t : pn_transport_t) (s : pni_sasl_t) (st : pni_sasl_state) :
  sasl t = Some s ->
  exists t' s',
    pni_sasl_set_desired_state state_code t st = Ok t'
    /\ sasl t' = Some s'
    /\ backend_calls t' = backend_calls t
    /\ client s' = client s
    /\ outcome s' = outcome s
    /\ last_state s' = (if request_applied state_code s st then rewound s st else last_state s)
    /\ desired_state s' = (if request_applied state_code s st then st else desired_state s).
Proof.
  intros Hs. destruct (request_applied state_code s st) eqn:Ha.
  - rewrite (set_desired_state_applied _ _ _ _ Hs Ha). eexists. eexists.
    split; [reflexivity|]. rewrite sasl_emit, calls_emit. repeat split.
  - destruct (set_desired_state_dropped _ _ _ _ Hs Ha) as (fmt & args & E).
    rewrite E. exists (pn_transport_logf t fmt args), s. repeat split. exact Hs.
Qed.

Lemma init_and_process_result (t : pn_transport_t) (s : pni_sasl_t) (mechs : string) :
  sasl t = Some s ->
  init_and_process pni_init_client pni_process_mechanisms t mechs
  = let t1 := after_backend t s Call_init_client (pni_init_client t) in
    if fst (pni_init_client t) then
      Ok (after_backend t1 (with_backend s (snd (pni_init_client t)))
            (Call_process_mechanisms (cstr mechs))
            (pni_process_mechanisms t1 (cstr mechs)),
          fst (pni_process_mechanisms t1 (cstr mechs)))
    else Ok (t1, false).
Proof.
  intros Hs. unfold init_and_process, backend_returns. rewrite Hs. cbn [bind deref].
  fold (after_backend t s Call_init_client (pni_init_client t)).
  destruct (fst (pni_init_client t)); reflexivity.
Qed.

(** What [pn_do_mechanisms] does on any context: the frame is ignored at
    SASL_PRETEND_OUTCOME; otherwise the backend is initialised and offered
    what is printed for the kept symbols, and the outcome of the two calls
    decides the request that goes through [pni_sasl_set_desired_state]. *)
Lemma do_mechanisms_result
    (t : pn_transport_t) (s : pni_sasl_t) (args : mechanisms_args) :
  sasl t = Some s ->
  (last_state s = SASL_PRETEND_OUTCOME ->
   pn_do_mechanisms state_code pni_init_client pni_process_mechanisms t args = Ok (t, 0))
  /\ (last_state s <> SASL_PRETEND_OUTCOME ->
      scan_err args = 0 ->
      let offer :=
        join_sp (map printed
                   (filter (pni_included_mech (included_mechanisms s)) (symbols args))) in
      let t1 := after_backend t s Call_init_client (pni_init_client t) in
      let ok := fst (pni_init_client t) && fst (pni_process_mechanisms t1 offer) in
      exists t' s',
        pn_do_mechanisms state_code pni_init_client pni_process_mechanisms t args
        = Ok (t', 0)
        /\ sasl t' = Some s'
        /\ backend_calls t'
           = backend_calls t
               ++ Call_init_client
                  :: (if fst (pni_init_client t)
                      then [Call_process_mechanisms offer] else [])
        /\ client s' = client s
        /\ last_state s' = last_state s
        /\ if ok
           then outcome s' = outcome s
                /\ desired_state s'
                   = (if request_applied state_code s SASL_POSTED_INIT
                      then SASL_POSTED_INIT else desired_state s)
           else outcome s' = PN_SASL_PERM
                /\ desired_state s'
                   = (if request_applied state_code s SASL_RECVED_OUTCOME
                      then SASL_RECVED_OUTCOME else desired_state s)).
Proof.
  intros Hs. split.
  - intros Hl. unfold pn_do_mechanisms. rewrite Hs. cbn [bind deref]. now rewrite Hl.
  - intros Hl Hscan offer t1 ok.
    unfold pn_do_mechanisms. rewrite Hs. cbn [bind deref].
    destruct (state_eqb (last_state s) SASL_PRETEND_OUTCOME) eqn:E;
      [apply state_eqb_eq in E; contradiction|].
    rewrite Hscan. change (negb (0 =? 0)) with false. cbv iota zeta.
    rewrite (init_and_process_result _ _ _ Hs). cbv zeta.
    pose proof (offered_string_printed (pni_included_mech (included_mechanisms s))
                  (symbols args)) as Hoff.
    cbv zeta in Hoff. rewrite Hoff. fold offer. fold t1.
    subst ok. destruct (fst (pni_init_client t)) eqn:E1; cbn [andb bind].
    + destruct (fst (pni_process_mechanisms t1 offer)) eqn:E2.
      * destruct (set_desired_state_summary
                    (after_backend t1 (with_backend s (snd (pni_init_client t)))
                       (Call_process_mechanisms offer)
                       (pni_process_mechanisms t1 offer))
                    (with_backend (with_backend s (snd (pni_init_client t)))
                       (snd (pni_process_mechanisms t1 offer)))
                    SASL_POSTED_INIT eq_refl)
          as (t' & s' & H1 & H2 & H3 & H4 & H5 & H6 & H7).
        rewrite H1. cbn [bind]. exists t', s'.
        split; [reflexivity|]. split; [exact H2|].
        split; [rewrite H3; simpl; now rewrite <- app_assoc|].
        split; [exact H4|]. split; [|split; [exact H5|exact H7]].
        rewrite H6. unfold rewound. simpl.
        destruct (request_applied state_code _ SASL_POSTED_INIT); [|reflexivity].
        now rewrite !andb_false_r.
      * unfold fail_perm. cbn [sasl after_backend record_call with_sasl bind deref].
        destruct (set_desired_state_summary
                    (with_sasl
                       (after_backend t1 (with_backend s (snd (pni_init_client t)))
                          (Call_process_mechanisms offer)
                          (pni_process_mechanisms t1 offer))
                       (with_outcome
                          (with_backend (with_backend s (snd (pni_init_client t)))
                             (snd (pni_process_mechanisms t1 offer)))
                          PN_SASL_PERM))
                    _ SASL_RECVED_OUTCOME eq_refl)
          as (t' & s' & H1 & H2 & H3 & H4 & H5 & H6 & H7).
        cbn [after_backend record_call with_sasl] in H1. rewrite H1. cbn [bind].
        exists t', s'.
        split; [reflexivity|]. split; [exact H2|].
        split; [rewrite H3; simpl; now rewrite <- app_assoc|].
        split; [exact H4|]. split; [|split; [exact H5|exact H7]].
        rewrite H6. unfold rewound. simpl.
        destruct (request_applied state_code _ SASL_RECVED_OUTCOME); [|reflexivity].
        now rewrite !andb_false_r.
    + unfold fail_perm. subst t1.
      cbn [sasl after_backend record_call with_sasl bind deref].
      destruct (set_desired_state_summary
                  (with_sasl (after_backend t s Call_init_client (pni_init_client t))
                     (with_outcome (with_backend s (snd (pni_init_client t)))
                        PN_SASL_PERM))
                  _ SASL_RECVED_OUTCOME eq_refl)
        as (t' & s' & H1 & H2 & H3 & H4 & H5 & H6 & H7).
      cbn [after_backend record_call with_sasl] in H1. rewrite H1. cbn [bind].
      exists t', s'.
      split; [reflexivity|]. split; [exact H2|].
      split; [rewrite H3; reflexivity|].
      split; [exact H4|]. split; [|split; [exact H5|exact H7]].
      rewrite H6. unfold rewound. simpl.
      destruct (request_applied state_code _ SASL_RECVED_OUTCOME); [|reflexivity].
      now rewrite !andb_false_r.
Qed.

(** In a run a client holds client states, so that a request for
    SASL_POSTED_INIT is applied exactly when it is no downgrade, and a request
    for SASL_RECVED_OUTCOME always, no client state having a greater value. *)
Lemma client_requests_in_a_run (t : pn_transport_t) (s : pni_sasl_t) :
  reachable state_code list_mechs t ->
  sasl t = Some s ->
  client s = true ->
  request_applied state_code s SASL_POSTED_INIT
  = (state_code (last_state s) <=? state_code SASL_POSTED_INIT)
  /\ (recved_outcome_last state_code ->
      request_applied state_code s SASL_RECVED_OUTCOME = true).
Proof.
  intros Hr Hs Hcl.
  destruct (reachable_legal _ _ _ Hr) as (s0 & Hs0 & Hl & _).
  rewrite Hs in Hs0. injection Hs0 as <-.
  unfold request_applied, role_legal in *. rewrite Hcl in *. simpl. split.
  - apply andb_true_r.
  - intros Hlast. rewrite andb_true_r. apply Z.leb_le. apply Hlast. exact Hl.
Qed.

(** C5, as the code has it.  A MECHANISMS frame that arrives when
    [last_state] is SASL_PRETEND_OUTCOME is ignored.  Otherwise a symbol is
    kept exactly when the allow-list is absent or names it (up to case, at the
    start of a word of the list, with a space or the end of the list after
    it); what is printed for the kept symbols, space-separated and without a
    trailing separator, is the string offered to the backend after
    [pni_init_client] succeeded, and for symbols without a NUL byte that is
    the kept symbols themselves.  When both backend calls succeed
    SASL_POSTED_INIT is requested, otherwise the outcome becomes PERM and
    SASL_RECVED_OUTCOME is requested; either request goes through
    [pni_sasl_set_desired_state].  On a client of a run the desired state
    therefore becomes SASL_POSTED_INIT on success unless [last_state] is
    already beyond it, and SASL_RECVED_OUTCOME on failure. *)
Theorem do_mechanisms_filters_and_requests
    (t : pn_transport_t) (s : pni_sasl_t) (args : mechanisms_args) :
  sasl t = Some s ->
  (last_state s = SASL_PRETEND_OUTCOME ->
   pn_do_mechanisms state_code pni_init_client pni_process_mechanisms t args = Ok (t, 0))
  /\ (last_state s <> SASL_PRETEND_OUTCOME ->
      scan_err args = 0 ->
      let kept := filter (pni_included_mech (included_mechanisms s)) (symbols args) in
      let offer := join_sp (map printed kept) in
      let t1 := after_backend t s Call_init_client (pni_init_client t) in
      let ok := fst (pni_init_client t) && fst (pni_process_mechanisms t1 offer) in
      exists t' s',
        pn_do_mechanisms state_code pni_init_client pni_process_mechanisms t args
        = Ok (t', 0)
        /\ sasl t' = Some s'
        /\ backend_calls t'
           = backend_calls t
               ++ Call_init_client
                  :: (if fst (pni_init_client t)
                      then [Call_process_mechanisms offer] else [])
        /\ (forallb nul_free kept = true -> offer = join_sp kept)
        /\ client s' = client s
        /\ last_state s' = last_state s
        /\ (if ok
            then outcome s' = outcome s
                 /\ desired_state s'
                    = (if request_applied state_code s SASL_POSTED_INIT
                       then SASL_POSTED_INIT else desired_state s)
            else outcome s' = PN_SASL_PERM
                 /\ desired_state s'
                    = (if request_applied state_code s SASL_RECVED_OUTCOME
                       then SASL_RECVED_OUTCOME else desired_state s))
        /\ (reachable state_code list_mechs t ->
            client s = true ->
            if ok
            then desired_state s'
                 = (if state_code (last_state s) <=? state_code SASL_POSTED_INIT
                    then SASL_POSTED_INIT else desired_state s)
            else recved_outcome_last state_code ->
                 desired_state s' = SASL_RECVED_OUTCOME))
  /\ (forall sym, pni_included_mech None sym = true)
  /\ (forall l sym, pni_included_mech (Some l) sym = true <-> listed (cstr l) sym).
Proof.
  intros Hs. destruct (do_mechanisms_result t s args Hs) as [Hignore Hrun].
  split; [exact Hignore|]. split; [|split].
  - intros Hl Hscan kept offer t1 ok.
    destruct (Hrun Hl Hscan) as (t' & s' & H1 & H2 & H3 & H4 & H5 & H6).
    fold kept in H1, H3, H6. fold offer in H1, H3, H6. fold t1 in H1, H3, H6.
    fold ok in H6.
    exists t', s'. split; [exact H1|]. split; [exact H2|]. split; [exact H3|].
    split; [intros Hn; subst offer; now rewrite (map_printed_nul_free kept Hn)|].
    split; [exact H4|]. split; [exact H5|]. split; [exact H6|].
    intros Hr Hcl.
    destruct (client_requests_in_a_run t s Hr Hs Hcl) as [Hinit Hrecv].
    destruct ok.
    + destruct H6 as [_ H6]. rewrite H6, Hinit. reflexivity.
    + intros Hlast. destruct H6 as [_ H6]. rewrite H6, (Hrecv Hlast). reflexivity.
  - reflexivity.
  - apply pni_included_mech_listed.
Qed.

End DoMechanisms.

Lemma client_allowing_two_reachable :
  reachable enum_code no_mechs client_allowing_two.
Proof.
  eapply reach_step; [apply (new_client_reachable no_mechs)|].
  eapply step_elsewhere; [reflexivity|reflexivity|]. repeat split.
Qed.

Lemma enum_code_recved_outcome_last : recved_outcome_last enum_code.
Proof. intros st H. destruct st; simpl in *; try discriminate; lia. Qed.

(** A fresh client allowing PLAIN and ANONYMOUS is offered GSSAPI, PLAIN and
    ANONYMOUS.  With a backend that accepts, it sees "PLAIN ANONYMOUS" and
    SASL_POSTED_INIT becomes the desired state; with a backend whose
    initialisation fails, the outcome is PERM and SASL_RECVED_OUTCOME
    becomes the desired state. *)
Lemma do_mechanisms_filters_and_requests_witness :
  (exists t' s',
      pn_do_mechanisms enum_code accepting_init accepting_mechs
        client_allowing_two three_symbols = Ok (t', 0)
      /\ sasl t' = Some s'
      /\ backend_calls t' = [Call_init_client; Call_process_mechanisms "PLAIN ANONYMOUS"]
      /\ desired_state s' = SASL_POSTED_INIT)
  /\ (exists t' s',
         pn_do_mechanisms enum_code refusing_init accepting_mechs
           client_allowing_two three_symbols = Ok (t', 0)
         /\ sasl t' = Some s'
         /\ backend_calls t' = [Call_init_client]
         /\ outcome s' = PN_SASL_PERM
         /\ desired_state s' = SASL_RECVED_OUTCOME).
Proof.
  split.
  - destruct (do_mechanisms_filters_and_requests enum_code accepting_init accepting_mechs
                no_mechs client_allowing_two _ three_symbols eq_refl) as (_ & H & _).
    destruct H as (t' & s' & H1 & H2 & H3 & Hn & _ & _ & _ & H4);
      [discriminate | reflexivity |].
    exists t', s'. split; [exact H1|]. split; [exact H2|].
    split; [rewrite H3, (Hn eq_refl); reflexivity|].
    exact (H4 client_allowing_two_reachable eq_refl).
  - destruct (do_mechanisms_filters_and_requests enum_code refusing_init accepting_mechs
                no_mechs client_allowing_two _ three_symbols eq_refl) as (_ & H & _).
    destruct H as (t' & s' & H1 & H2 & H3 & _ & _ & _ & H4 & H5);
      [discriminate | reflexivity |].
    exists t', s'. split; [exact H1|]. split; [exact H2|]. split; [exact H3|].
    split; [exact (proj1 H4)|].
    exact (H5 client_allowing_two_reachable eq_refl enum_code_recved_outcome_last).
Defined.

(** C5 as stated fails.  A client that has sent its RESPONSE receives a
    MECHANISMS frame and the backend accepts the offer: the request for
    SASL_POSTED_INIT is a downgrade, and the desired state stays
    SASL_POSTED_RESPONSE.  A symbol that holds a NUL byte is kept by a
    client without allow-list, but what the backend is offered is not the
    kept symbols joined by spaces.  And when the initialisation of the
    backend fails, nothing is offered to it. *)
Lemma do_mechanisms_success_without_posted_init :
  (exists t' s',
      pn_do_mechanisms enum_code accepting_init accepting_mechs
        client_after_response three_symbols = Ok (t', 0)
      /\ sasl t' = Some s'
      /\ client s' = true
      /\ backend_calls t'
         = [Call_init_client; Call_process_mechanisms "GSSAPI PLAIN ANONYMOUS"]
      /\ desired_state s' = SASL_POSTED_RESPONSE
      /\ desired_state s' <> SASL_POSTED_INIT)
  /\ (exists t',
         pn_do_mechanisms enum_code accepting_init accepting_mechs
           new_client nul_symbols = Ok (t', 0)
         /\ filter (pni_included_mech None) (symbols nul_symbols) = symbols nul_symbols
         /\ backend_calls t'
            = [Call_init_client; Call_process_mechanisms "    PL GSSAPI"]
         /\ "    PL GSSAPI" <> join_sp (symbols nul_symbols))
  /\ (exists t',
         pn_do_mechanisms enum_code refusing_init accepting_mechs
           client_allowing_two three_symbols = Ok (t', 0)
         /\ backend_calls t' = [Call_init_client]).
Proof.
  split; [|split].
  - eexists. eexists. split; [vm_compute; reflexivity|].
    repeat split. discriminate.
  - eexists. split; [vm_compute; reflexivity|].
    repeat split. discriminate.
  - eexists. split; [vm_compute; reflexivity|]. reflexivity.
Qed.

(** ** The header reader *)

Section HeaderReader.

Variable PN_EOS : Z.
Variable PN_TRACE_FRM : Z.
Variable pn_transport_capacity : pn_transport_t -> Z.
Variable pni_sniff_header : string -> pni_protocol_type_t.
Variable pni_protocol_name : pni_protocol_type_t -> string.
Variable pn_quote_data : nat -> string -> string.
Variable pn_ssl_get_ssf : pn_transport_t -> Z.
Variable pn_ssl_get_remote_subject : pn_transport_t -> option string.

Lemma layers_set_nth (a : list pn_io_layer_t) (i : nat) (v cur : pn_io_layer_t) :
  nth_error a i = Some cur ->
  exists a', layers_set a i v = Ok a' /\ nth_error a' i = Some v
             /\ List.length a' = List.length a.
Proof.
  revert i. induction a as [|x a IH]; intros [|i] H; simpl in *; try discriminate.
  - eexists. repeat split.
  - destruct (IH i H) as (a' & E & Hn & Hl). rewrite E. simpl.
    eexists. split; [reflexivity|]. simpl. auto.
Qed.

Lemma header_mismatch_contains (protocol_name quoted : string) (eos : bool) :
  contains protocol_name (header_mismatch protocol_name quoted eos)
  /\ contains ("'" ++ quoted ++ "'") (header_mismatch protocol_name quoted eos).
Proof.
  unfold contains, header_mismatch. split.
  - exists "SASL header mismatch: ",
      (" ['" ++ quoted ++ "']" ++ (if negb eos then "" else " (connection aborted)"))%string.
    reflexivity.
  - exists ("SASL header mismatch: " ++ protocol_name ++ " [")%string,
      ("]" ++ (if negb eos then "" else " (connection aborted)"))%string.
    generalize (if negb eos then "" else " (connection aborted)") as suffix.
    intros suffix. rewrite ?append_assoc. simpl.
    rewrite ?append_assoc. simpl. reflexivity.
Qed.

(** C4.  [pn_input_read_sasl_header] on any bytes.  Classified AMQP-SASL: it
    returns 8 and the slot of the layer holds [sasl_layer] if it held
    [sasl_read_header_layer], and [sasl_write_header_layer] otherwise.
    Classified insufficient while the transport is not at EOS: it returns 0
    and the transport is as before.  Classified insufficient at EOS, or as
    anything but AMQP-SASL and insufficient: [close_sent] is set, the
    condition is "amqp:connection:framing-error" with a description that
    contains the name of the detected protocol and the quoted bytes, and the
    result is PN_EOS. *)
Theorem read_sasl_header_cases (t : pn_transport_t) (layer : nat) (bytes : string) :
  let read :=
    pn_input_read_sasl_header PN_EOS PN_TRACE_FRM pn_transport_capacity
      pni_sniff_header pni_protocol_name pn_quote_data pn_ssl_get_ssf
      pn_ssl_get_remote_subject in
  let eos := pn_transport_capacity t =? PN_EOS in
  (pni_sniff_header bytes = PNI_PROTOCOL_AMQP_SASL ->
   forall s cur,
     sasl t = Some s -> nth_error (io_layers t) layer = Some cur ->
     exists t',
       read t layer bytes = Ok (t', 8)
       /\ nth_error (io_layers t') layer
          = Some (if layer_eqb cur sasl_read_header_layer
                  then sasl_layer else sasl_write_header_layer)
       /\ close_sent t' = close_sent t
       /\ condition t' = condition t)
  /\ (pni_sniff_header bytes = PNI_PROTOCOL_INSUFFICIENT -> eos = false ->
      read t layer bytes = Ok (t, 0))
  /\ ((pni_sniff_header bytes = PNI_PROTOCOL_INSUFFICIENT /\ eos = true)
      \/ (pni_sniff_header bytes <> PNI_PROTOCOL_INSUFFICIENT
          /\ pni_sniff_header bytes <> PNI_PROTOCOL_AMQP_SASL) ->
      exists t' text,
        read t layer bytes = Ok (t', PN_EOS)
        /\ close_sent t' = true
        /\ condition t' = Some ("amqp:connection:framing-error", text)
        /\ contains (pni_protocol_name (pni_sniff_header bytes)) text
        /\ contains ("'" ++ pn_quote_data 1024 bytes ++ "'") text).
Proof.
  intros read eos. subst read. unfold pn_input_read_sasl_header. fold eos.
  split; [|split].
  - intros Hp s cur Hs Hcur. rewrite Hp. unfold layers_get. rewrite Hcur.
    cbn [bind].
    destruct (layers_set_nth (io_layers t) layer
                (if layer_eqb cur sasl_read_header_layer
                 then sasl_layer else sasl_write_header_layer) cur Hcur)
      as (a' & E & Hn & _).
    rewrite E. cbn [bind]. unfold pni_sasl_set_external_security.
    destruct (negb (Z.land (trace (with_io_layers t a')) PN_TRACE_FRM =? 0));
      simpl; rewrite Hs; simpl; eexists; (split; [reflexivity|]); simpl; auto.
  - intros Hp He. rewrite Hp, He. reflexivity.
  - intros H.
    destruct (header_mismatch_contains (pni_protocol_name (pni_sniff_header bytes))
                (pn_quote_data 1024 bytes) eos) as [C1 C2].
    exists (pn_set_error_layer
              (pn_do_error (with_close_sent t true) framing_error
                 (header_mismatch (pni_protocol_name (pni_sniff_header bytes))
                    (pn_quote_data 1024 bytes) eos))),
      (header_mismatch (pni_protocol_name (pni_sniff_header bytes))
         (pn_quote_data 1024 bytes) eos).
    split; [|split; [reflexivity|split; [reflexivity|split; assumption]]].
    destruct H as [[Hp He]|[Hp1 Hp2]].
    + rewrite Hp, He. reflexivity.
    + destruct (pni_sniff_header bytes) eqn:E; try reflexivity; congruence.
Qed.

End HeaderReader.

(** A server reads "HTTP/1.1" where the SASL header should be. *)
Lemma read_sasl_header_cases_witness :
  exists t' text,
    example_read_sasl_header new_server 0 "HTTP/1.1" = Ok (t', -1)
    /\ close_sent t' = true
    /\ condition t' = Some ("amqp:connection:framing-error", text)
    /\ contains "Unknown protocol" text
    /\ contains "'HTTP/1.1'" text.
Proof.
  destruct (read_sasl_header_cases (-1) 2 (fun _ => 1024) example_sniff
              example_protocol_name example_quote (fun _ => 0) (fun _ => None)
              new_server 0 "HTTP/1.1") as (_ & _ & H).
  destruct H as (t' & text & H1 & H2 & H3 & H4 & H5).
  - right. split; discriminate.
  - exists t', text. repeat split; assumption.
Defined.

(** The same server reads the SASL header, and then four bytes only. *)
Lemma read_sasl_header_examples :
  (exists t',
      example_read_sasl_header new_server 0 SASL_HEADER = Ok (t', 8)
      /\ io_layers t' = [sasl_write_header_layer; other_layer 0])
  /\ example_read_sasl_header new_server 0 "AMQP" = Ok (new_server, 0).
Proof. split; [eexists; split|]; reflexivity. Qed.

(** ** The array of sixteen mechanisms *)

(** C6, on the code.  [pni_split_mechs] stores exactly the admitted tokens,
    in order, while they fit into the array of 16 declared in
    [pni_post_sasl_frame]; nothing bounds the count, so a list with more than
    16 admitted tokens makes it store past the end of the array.  Seventeen
    mechanisms and no allow-list do so, and the drain of a server that
    advertises them fails with this store. *)
Theorem split_mechs_overruns_sixteen :
  (forall mechlist incl,
      (List.length (admitted incl mechlist) <= 16)%nat ->
      pni_split_mechs mechlist incl (uninitialised 16) 0
      = Ok (filled 16 (admitted incl mechlist),
            Z.of_nat (List.length (admitted incl mechlist))))
  /\ (forall mechlist incl,
         (16 < List.length (admitted incl mechlist))%nat ->
         pni_split_mechs mechlist incl (uninitialised 16) 0 = Undefined OutOfBounds)
  /\ List.length (admitted None seventeen_mechs) = 17%nat
  /\ pni_split_mechs seventeen_mechs None (uninitialised 16) 0 = Undefined OutOfBounds
  /\ pni_post_sasl_frame enum_code many_mechs 4
       (at_states new_server SASL_NONE SASL_POSTED_MECHANISMS)
     = Undefined OutOfBounds.
Proof.
  split; [|split; [|split; [|split]]].
  - intros mechlist incl H. rewrite pni_split_mechs_fresh.
    apply Nat.leb_le in H. now rewrite H.
  - intros mechlist incl H. rewrite pni_split_mechs_fresh.
    apply Nat.leb_gt in H. now rewrite H.
  - reflexivity.
  - vm_compute. reflexivity.
  - vm_compute. reflexivity.
Qed.

(** ** The public handle *)

Section PublicHandle.

Variable state_code : pni_sasl_state -> Z.
Variable pni_init_client : pn_transport_t -> bool * backend_writes.
Variable pni_process_mechanisms : pn_transport_t -> string -> bool * backend_writes.

(** C7, on the code.  With a null list [pn_sasl_allowed_mechs] never
    completes: through a handle with a context it clears the allow-list and
    then reads the null pointer in [strcmp].  With a list, the anonymous
    short-circuit runs exactly when the list is "ANONYMOUS"; any other list
    is stored and nothing else happens. *)
Theorem allowed_mechs_null_list_is_undefined :
  (forall (m : heap) (sasl0 : option nat),
      exists f,
        pn_sasl_allowed_mechs state_code pni_init_client pni_process_mechanisms
          m sasl0 None = Undefined f)
  /\ (forall (m : heap) (a : nat) (t : pn_transport_t) (s : pni_sasl_t),
         m a = Some t -> sasl t = Some s ->
         pn_sasl_allowed_mechs state_code pni_init_client pni_process_mechanisms
           m (Some a) None = Undefined NullDeref)
  /\ (forall (m : heap) (a : nat) (t : pn_transport_t) (s : pni_sasl_t) (l : string),
         m a = Some t -> sasl t = Some s ->
         pn_sasl_allowed_mechs state_code pni_init_client pni_process_mechanisms
           m (Some a) (Some l)
         = let t1 := with_sasl t (with_included_mechanisms s (Some (cstr l))) in
           if String.eqb (cstr l) "ANONYMOUS" then
             t2 <- pni_sasl_force_anonymous state_code pni_init_client
                     pni_process_mechanisms t1 ;;
             Ok (store (store m a t1) a t2)
           else Ok (store m a t1)).
Proof.
  split; [|split].
  - intros m [a|]; unfold pn_sasl_allowed_mechs, get_sasl_internal, load; simpl.
    + destruct (m a) as [t|] eqn:Hm; simpl; [|eauto].
      destruct (sasl t) as [s|]; simpl; [rewrite Hm; simpl|]; eauto.
    + eauto.
  - intros m a t s Hm Hs.
    unfold pn_sasl_allowed_mechs, get_sasl_internal, load.
    rewrite Hm. simpl. rewrite Hs. simpl. rewrite Hm. reflexivity.
  - intros m a t s l Hm Hs.
    unfold pn_sasl_allowed_mechs, get_sasl_internal, load.
    rewrite Hm. simpl. rewrite Hs. simpl. rewrite Hm. simpl.
    unfold strcmp_eq, pn_strdup, store at 1.
    change (cstr "ANONYMOUS") with "ANONYMOUS".
    destruct (String.eqb (cstr l) "ANONYMOUS"); [|reflexivity].
    unfold get_transport_internal. simpl. rewrite Nat.eqb_refl. reflexivity.
Qed.

(** C10.  On a null handle [pn_sasl_outcome] returns PN_SASL_NONE and
    [pn_sasl_done] returns with the memory as it was; neither reads through
    the handle. *)
Theorem null_handle_is_harmless (m : heap) (o : pn_sasl_outcome_t) :
  get_sasl_internal m None = Ok None
  /\ pn_sasl_outcome m None = Ok PN_SASL_NONE
  /\ pn_sasl_done m None o = Ok m.
Proof. repeat split. Qed.

End PublicHandle.

(** A fresh client at address 0: the null list, the list "ANONYMOUS", which
    runs the short-circuit, and the list "PLAIN", which does not. *)
Lemma allowed_mechs_on_a_client :
  pn_sasl_allowed_mechs enum_code accepting_init accepting_mechs
    (one_transport new_client) (Some 0%nat) None = Undefined NullDeref
  /\ (exists m' t' s',
         pn_sasl_allowed_mechs enum_code accepting_init accepting_mechs
           (one_transport new_client) (Some 0%nat) (Some "ANONYMOUS") = Ok m'
         /\ m' 0%nat = Some t' /\ sasl t' = Some s'
         /\ included_mechanisms s' = Some "ANONYMOUS"
         /\ desired_state s' = SASL_PRETEND_OUTCOME
         /\ backend_calls t' = [Call_init_client; Call_process_mechanisms "ANONYMOUS"])
  /\ (exists m' t' s',
         pn_sasl_allowed_mechs enum_code accepting_init accepting_mechs
           (one_transport new_client) (Some 0%nat) (Some "PLAIN") = Ok m'
         /\ m' 0%nat = Some t' /\ sasl t' = Some s'
         /\ included_mechanisms s' = Some "PLAIN"
         /\ desired_state s' = SASL_NONE
         /\ backend_calls t' = []).
Proof.
  split; [reflexivity|].
  split; eexists; eexists; eexists; (split; [reflexivity|]); repeat split.
Qed.

(** ** The C++ connection driver *)

Module DriverProperties.

Import ConnectionDriver.

Section Disconnected.

Variable pn_condition_is_set : pn_condition_t -> bool.
Variable set_error_condition : error_condition -> pn_condition_t -> pn_condition_t.
Variable pn_connection_driver_close : pn_connection_driver_t -> pn_connection_driver_t.

(** What the specification says of the three functions: a condition that has
    been set is set, and closing the driver leaves the condition alone and
    is idempotent. *)
Hypothesis set_is_set :
  forall err c, pn_condition_is_set (set_error_condition err c) = true.
Hypothesis close_keeps_condition :
  forall d, transport_condition (pn_connection_driver_close d) = transport_condition d.
Hypothesis close_idempotent :
  forall d, pn_connection_driver_close (pn_connection_driver_close d)
            = pn_connection_driver_close d.

(** C9.  [disconnected] sets the transport condition from its argument only
    when none is set, and then closes the driver; a second call, with
    whatever condition, leaves the driver as the first call left it, so the
    condition recorded is the one of the first call. *)
Theorem disconnected_idempotent (d : pn_connection_driver_t) (err1 err2 : error_condition) :
  let once :=
    disconnected pn_condition_is_set set_error_condition pn_connection_driver_close
      err1 d in
  let twice :=
    disconnected pn_condition_is_set set_error_condition pn_connection_driver_close
      err2 once in
  twice = once
  /\ transport_condition once
     = (if pn_condition_is_set (transport_condition d)
        then transport_condition d
        else set_error_condition err1 (transport_condition d))
  /\ once
     = pn_connection_driver_close
         (if pn_condition_is_set (transport_condition d) then d
          else mk_driver (set_error_condition err1 (transport_condition d))
                 (read_closed d) (write_closed d)).
Proof.
  intros once twice. subst twice once. unfold disconnected.
  assert (Hset : pn_condition_is_set
                   (transport_condition
                      (pn_connection_driver_close
                         (if negb (pn_condition_is_set (transport_condition d))
                          then mk_driver (set_error_condition err1 (transport_condition d))
                                 (read_closed d) (write_closed d)
                          else d))) = true).
  { rewrite close_keeps_condition.
    destruct (pn_condition_is_set (transport_condition d)) eqn:E; simpl;
      [exact E | apply set_is_set]. }
  split; [|split].
  - rewrite Hset. simpl. apply close_idempotent.
  - rewrite close_keeps_condition.
    destruct (pn_condition_is_set (transport_condition d)); reflexivity.
  - destruct (pn_condition_is_set (transport_condition d)); reflexivity.
Qed.

End Disconnected.

(** With the three functions as the specification describes them, two
    disconnects of an open driver record the first condition and close both
    halves. *)
Lemma disconnected_idempotent_witness :
  disconnected condition_is_set set_condition close_driver second_error
    (disconnected condition_is_set set_condition close_driver first_error open_driver)
  = mk_driver (Some first_error) true true.
Proof.
  destruct (disconnected_idempotent condition_is_set set_condition close_driver
              (fun _ _ => eq_refl) (fun _ => eq_refl) (fun _ => eq_refl)
              open_driver first_error second_error) as [H _].
  rewrite H. reflexivity.
Defined.

End DriverProperties.

(** * Further properties of sasl.c *)

(** ** Requests and drains *)

Section RequestsAndDrains.

Variable state_code : pni_sasl_state -> Z.
Variable list_mechs : pn_transport_t -> Z * option string.

Lemma rewound_settled (s : pni_sasl_t) (st : pni_sasl_state) :
  rewound (with_desired_state (with_last_state s (rewound s st)) st) st = rewound s st.
Proof.
  unfold rewound at 1. simpl.
  unfold rewound.
  destruct (state_eqb (last_state s) st) eqn:E; simpl.
  - destruct st; simpl; try reflexivity; rewrite ?E; reflexivity.
  - rewrite E. reflexivity.
Qed.

(** X1.  A request repeated before the drain has run leaves the context as the
    first request left it, whether the request is applied or dropped and
    whatever the numbering of the states. *)
Theorem repeated_request_changes_nothing
    (t : pn_transport_t) (s : pni_sasl_t) (st : pni_sasl_state) :
  sasl t = Some s ->
  exists t1 t2 s1,
    pni_sasl_set_desired_state state_code t st = Ok t1
    /\ pni_sasl_set_desired_state state_code t1 st = Ok t2
    /\ sasl t1 = Some s1
    /\ sasl t2 = Some s1
    /\ frames t2 = frames t
    /\ backend_calls t2 = backend_calls t.
Proof.
  intros Hs. destruct (request_applied state_code s st) eqn:Ha.
  - pose proof (set_desired_state_applied _ _ _ _ Hs Ha) as H1.
    set (s1 := with_desired_state (with_last_state s (rewound s st)) st) in *.
    assert (Hs1 : sasl (pni_emit (with_sasl t s1)) = Some s1)
      by (rewrite sasl_emit; reflexivity).
    exists (pni_emit (with_sasl t s1)).
    destruct (request_applied state_code s1 st) eqn:Ha1.
    + pose proof (set_desired_state_applied _ _ _ _ Hs1 Ha1) as H2.
      eexists. exists s1.
      split; [exact H1|]. split; [exact H2|]. split; [exact Hs1|].
      split.
      * rewrite sasl_emit. simpl. subst s1. rewrite rewound_settled. reflexivity.
      * rewrite frames_emit, calls_emit. simpl. rewrite frames_emit, calls_emit.
        split; reflexivity.
    + destruct (set_desired_state_dropped _ _ _ _ Hs1 Ha1) as (fmt & args & E).
      eexists. exists s1.
      split; [exact H1|]. split; [exact E|]. split; [exact Hs1|].
      split; [exact Hs1|]. simpl. rewrite frames_emit, calls_emit. split; reflexivity.
  - destruct (set_desired_state_dropped _ _ _ _ Hs Ha) as (fmt & args & E).
    assert (Hs1 : sasl (pn_transport_logf t fmt args) = Some s) by exact Hs.
    destruct (set_desired_state_dropped _ _ _ _ Hs1 Ha) as (fmt' & args' & E').
    exists (pn_transport_logf t fmt args),
      (pn_transport_logf (pn_transport_logf t fmt args) fmt' args'), s.
    repeat split; assumption.
Qed.

Lemma events_for_app (t : pn_transport_t) (a b : list sasl_frame) :
  events_for t (a ++ b) = events_for t a ++ events_for t b.
Proof.
  unfold events_for. destruct (has_collector t); [|reflexivity].
  now rewrite length_app, repeat_app.
Qed.

Lemma pass_through_ok (t : pn_transport_t) (s : pni_sasl_t) (target : pni_sasl_state) :
  sasl t = Some s ->
  (target = SASL_POSTED_MECHANISMS -> mechs_fit list_mechs t s) ->
  exists t1,
    pass_through list_mechs t target = Ok t1
    /\ sasl t1 = Some (with_last_state s target)
    /\ frames t1 = frames t ++ declared_frame list_mechs t s target
    /\ events t1 = events t ++ events_for t (declared_frame list_mechs t s target)
    /\ has_collector t1 = has_collector t
    /\ log t1 = log t.
Proof.
  intros Hs Hfit. unfold pass_through. rewrite Hs. cbn [bind deref].
  destruct target; cbn [post_declared_frame declared_frame];
    try rewrite post_mechanisms_fit by auto; cbn [bind];
    eexists; (split; [reflexivity|]); (split; [reflexivity|]); unfold events_for;
    destruct t as [? ? [[[q|]]|] ? ? ? ? ? ? ?]; simpl;
    rewrite ?app_nil_r; repeat split; reflexivity.
Qed.

(** The drain at work: it returns, leaves the desired state as the last
    state, posts the declared frames and hands one event per frame to the
    collector. *)
Lemma drain_ok (t : pn_transport_t) (s : pni_sasl_t) :
  well_numbered state_code ->
  sasl t = Some s ->
  state_code (last_state s) <= state_code (desired_state s) ->
  (In SASL_POSTED_MECHANISMS (drain_plan state_code s) -> mechs_fit list_mechs t s) ->
  exists t',
    drain list_mechs (drain_plan state_code s) t = Ok t'
    /\ sasl t' = Some (with_last_state s (desired_state s))
    /\ frames t'
       = frames t ++ flat_map (declared_frame list_mechs t s) (drain_plan state_code s)
    /\ events t'
       = events t
           ++ events_for t
                (flat_map (declared_frame list_mechs t s) (drain_plan state_code s))
    /\ log t' = log t.
Proof.
  intros Hc Hs Hle Hfit.
  pose proof Hc as (Hnone & Hinj & Hir & Hip & Hio & Hmc & Hmo).
  unfold drain_plan in *.
  destruct (Z.gtb_spec (state_code (desired_state s)) (state_code (last_state s)))
    as [Hgt|Hngt].
  - destruct (prerequisite state_code s (desired_state s)) as [p|] eqn:Hp.
    + destruct (prerequisite_cases _ _ _ _ Hp) as [_ Hcases].
      assert (Hdm : desired_state s <> SASL_POSTED_MECHANISMS).
      { destruct Hcases as [[_ [E|E]] | [_ [E|E]]]; rewrite E; discriminate. }
      destruct (pass_through_ok t s p Hs) as (t1 & H1 & S1 & F1 & E1 & C1 & L1).
      { intros ->. apply Hfit. left. reflexivity. }
      destruct (pass_through_ok t1 (with_last_state s p) (desired_state s) S1)
        as (t2 & H2 & S2 & F2 & E2 & C2 & L2).
      { intros E. congruence. }
      simpl drain. rewrite H1. cbn [bind]. rewrite H2. cbn [bind].
      exists t2. split; [reflexivity|]. split; [exact S2|].
      rewrite (declared_frame_later list_mechs t t1 s p _ Hdm) in F2, E2.
      simpl flat_map. rewrite app_nil_r.
      split; [rewrite F2, F1, app_assoc; reflexivity|].
      split; [|congruence].
      rewrite E2, E1, events_for_app, app_assoc. unfold events_for.
      rewrite C1. reflexivity.
    + destruct (pass_through_ok t s (desired_state s) Hs)
        as (t1 & H1 & S1 & F1 & E1 & C1 & L1).
      { intros E. apply Hfit. left. exact E. }
      simpl drain. rewrite H1. cbn [bind].
      exists t1. simpl flat_map. rewrite app_nil_r. auto.
  - assert (E : last_state s = desired_state s) by (apply Hinj; lia).
    exists t. simpl. unfold events_for. simpl.
    rewrite <- E, with_last_state_same, !app_nil_r.
    destruct (has_collector t); rewrite ?app_nil_r; auto.
Qed.

(** X2.  A second drain finds nothing to do: after [pni_post_sasl_frame] has
    returned, calling it again returns the same transport, for any fuel. *)
Theorem second_drain_changes_nothing
    (t : pn_transport_t) (s : pni_sasl_t) (fuel : nat) :
  well_numbered state_code ->
  sasl t = Some s ->
  state_code (last_state s) <= state_code (desired_state s) ->
  (In SASL_POSTED_MECHANISMS (drain_plan state_code s) -> mechs_fit list_mechs t s) ->
  (4 <= fuel)%nat ->
  exists t',
    pni_post_sasl_frame state_code list_mechs fuel t = Ok t'
    /\ forall fuel', pni_post_sasl_frame state_code list_mechs (S fuel') t' = Ok t'.
Proof.
  intros Hc Hs Hle Hfit Hfuel.
  rewrite (post_sasl_frame_drain _ _ _ _ s Hc Hs Hfuel).
  destruct (drain_ok t s Hc Hs Hle Hfit) as (t' & H & S' & _).
  exists t'. split; [exact H|]. intros fuel'.
  unfold pni_post_sasl_frame. rewrite S'. cbn [bind deref].
  apply (loop_done _ _ _ _ _ _ _ S'). simpl. lia.
Qed.

Lemma mechs_fit_or_not (t : pn_transport_t) (s : pni_sasl_t) :
  mechs_fit list_mechs t s \/ ~ mechs_fit list_mechs t s.
Proof.
  unfold mechs_fit.
  destruct (Z.gtb_spec (fst (list_mechs t)) 0) as [Hpos|Hnp]; [|left; intros H; lia].
  destruct (snd (list_mechs t)) as [mechlist|].
  - destruct (Nat.leb (List.length (admitted (included_mechanisms s) mechlist)) 16)
      eqn:E.
    + left. intros _. exists mechlist. apply Nat.leb_le in E. auto.
    + right. intros H. destruct (H ltac:(lia)) as (l & Hl & Hlen).
      injection Hl as <-. apply Nat.leb_gt in E. lia.
  - right. intros H. destruct (H ltac:(lia)) as (l & Hl & _). discriminate.
Qed.

(** X3.  A drain either fails in its MECHANISMS step, when the backend gives
    no list or a list with more than 16 admitted mechanisms, or it returns,
    for any fuel from 4 on.  When it returns it has posted at most two
    frames, has handed exactly one PN_TRANSPORT event to the collector for
    each frame it posted, none for the states that have no frame, and has
    written nothing to the log. *)
Theorem drain_emits_one_event_per_frame
    (t : pn_transport_t) (s : pni_sasl_t) (fuel : nat) :
  well_numbered state_code ->
  sasl t = Some s ->
  state_code (last_state s) <= state_code (desired_state s) ->
  (4 <= fuel)%nat ->
  (exists t' posted,
      pni_post_sasl_frame state_code list_mechs fuel t = Ok t'
      /\ frames t' = frames t ++ posted
      /\ (List.length posted <= 2)%nat
      /\ events t'
         = events t ++ (if has_collector t
                        then repeat PN_TRANSPORT (List.length posted) else [])
      /\ log t' = log t)
  \/ (In SASL_POSTED_MECHANISMS (drain_plan state_code s)
      /\ ~ mechs_fit list_mechs t s
      /\ exists f, pni_post_sasl_frame state_code list_mechs fuel t = Undefined f).
Proof.
  intros Hc Hs Hle Hfuel.
  assert (Hdec : forall a b : pni_sasl_state, {a = b} + {a <> b})
    by (decide equality).
  assert (Hcases : (In SASL_POSTED_MECHANISMS (drain_plan state_code s) ->
                    mechs_fit list_mechs t s)
                   \/ (In SASL_POSTED_MECHANISMS (drain_plan state_code s)
                       /\ ~ mechs_fit list_mechs t s)).
  { destruct (in_dec Hdec SASL_POSTED_MECHANISMS (drain_plan state_code s)) as [Hin|Hout];
      [|left; intros H; contradiction].
    destruct (mechs_fit_or_not t s) as [Hf|Hn]; [left; auto|right; auto]. }
  destruct Hcases as [Hfit|[Hin Hnot]].
  - left. rewrite (post_sasl_frame_drain _ _ _ _ s Hc Hs Hfuel).
    destruct (drain_ok t s Hc Hs Hle Hfit) as (t' & H & _ & F & E & L).
    exists t', (flat_map (declared_frame list_mechs t s) (drain_plan state_code s)).
    split; [exact H|]. split; [exact F|]. split; [|split; [exact E|exact L]].
    unfold drain_plan.
    destruct (state_code (desired_state s) >? state_code (last_state s)); [|simpl; lia].
    destruct (prerequisite state_code s (desired_state s)) as [p|]; simpl;
      rewrite ?length_app; simpl;
      repeat match goal with
             | |- context [declared_frame _ _ _ ?x] => destruct x; simpl
             end; lia.
  - right. split; [exact Hin|]. split; [exact Hnot|].
    destruct (post_mechanisms_without_fit list_mechs t s Hnot) as (f & Hf).
    exists f. exact (drain_mechanisms_undefined _ _ _ _ _ _ Hc Hs Hfuel Hin Hf).
Qed.

End RequestsAndDrains.

(** ** The order of the posted frames *)

Section FrameOrder.

Variable state_code : pni_sasl_state -> Z.
Variable list_mechs : pn_transport_t -> Z * option string.

Lemma post_mechanisms_frames (t t1 : pn_transport_t) (s : pni_sasl_t) :
  post_mechanisms list_mechs t s = Ok t1 ->
  exists l, frames t1 = frames t ++ [SASL_MECHANISMS l].
Proof.
  unfold post_mechanisms. intros H.
  apply bind_Ok_inv in H as [[m c] [_ H]]. injection H as <-.
  rewrite frames_emit. simpl. eauto.
Qed.

Lemma pass_through_posts (t t1 : pn_transport_t) (s : pni_sasl_t) (target : pni_sasl_state) :
  sasl t = Some s ->
  pass_through list_mechs t target = Ok t1 ->
  sasl t1 = Some (with_last_state s target)
  /\ exists fs, frames t1 = frames t ++ fs /\ posts target fs.
Proof.
  intros Hs H. unfold pass_through in H. rewrite Hs in H. cbn [bind deref] in H.
  apply bind_Ok_inv in H as (t0 & H0 & H). injection H as <-.
  split; [reflexivity|]. simpl frames.
  destruct target; simpl in H0;
    try (injection H0 as <-; rewrite ?frames_emit; simpl;
         eexists; split; [try reflexivity; symmetry; apply app_nil_r|]; simpl; eauto).
  destruct (post_mechanisms_frames _ _ _ H0) as (l & E).
  eexists. split; [exact E|]. simpl. eauto.
Qed.

Lemma mechanisms_first_app (a b : list sasl_frame) :
  forall seen,
    mechanisms_first seen (a ++ b)
    = mechanisms_first seen a && mechanisms_first (seen || existsb is_mechanisms a) b.
Proof.
  induction a as [|f a IH]; intros seen; simpl.
  - now rewrite orb_false_r.
  - rewrite IH, andb_assoc, orb_assoc. reflexivity.
Qed.

(** Passing through a state that is due and legal for the role keeps the
    frames in order. *)
Lemma pass_through_ordered (t t1 : pn_transport_t) (s : pni_sasl_t)
    (target : pni_sasl_state) :
  well_numbered state_code ->
  frames_ordered state_code t ->
  sasl t = Some s ->
  role_legal (client s) target = true ->
  prerequisite state_code s target = None ->
  pass_through list_mechs t target = Ok t1 ->
  frames_ordered state_code t1.
Proof.
  intros Hc (s0 & Hs0 & Hrole & Hfirst & Hseen) Hs Hleg Hdue H.
  rewrite Hs in Hs0. injection Hs0 as <-.
  pose proof Hc as (Hnone & Hinj & Hir & Hip & Hio & Hmc & Hmo).
  destruct (pass_through_posts _ _ _ _ Hs H) as (Hs1 & fs & Hf & Hposts).
  exists (with_last_state s target). split; [exact Hs1|].
  cbn [client last_state with_last_state].
  rewrite Hf, forallb_app, mechanisms_first_app, existsb_app, Hrole, Hfirst.
  cbn [andb orb].
  assert (Hnm : state_code SASL_NONE < state_code SASL_POSTED_MECHANISMS).
  { specialize (Hnone SASL_POSTED_MECHANISMS).
    destruct (Z.eq_dec (state_code SASL_NONE) (state_code SASL_POSTED_MECHANISMS)) as [E|E];
      [apply Hinj in E; discriminate | lia]. }
  unfold role_legal, role_frame in *. unfold prerequisite in Hdue.
  destruct target; simpl in Hposts.
  - subst fs. simpl. rewrite orb_false_r. repeat split; auto. intros _ Hle. lia.
  - destruct Hposts as (m & r & ->). destruct (client s); [|discriminate].
    repeat split; auto. discriminate.
  - destruct Hposts as (l & ->). destruct (client s); [discriminate|].
    simpl. rewrite orb_true_r. repeat split; auto.
  - destruct Hposts as (r & ->). destruct (client s); [|discriminate].
    repeat split; auto. discriminate.
  - destruct Hposts as (c & ->). destruct (client s); [discriminate|].
    destruct (Z.ltb_spec (state_code (last_state s)) (state_code SASL_POSTED_MECHANISMS));
      [discriminate|].
    rewrite (Hseen eq_refl) by lia. simpl. repeat split; auto.
  - subst fs. destruct (client s); [|discriminate].
    simpl. rewrite orb_false_r. repeat split; auto. discriminate.
  - subst fs. destruct (client s); [|discriminate].
    simpl. rewrite orb_false_r. repeat split; auto. discriminate.
  - destruct Hposts as (o & ->). destruct (client s); [discriminate|].
    destruct (Z.ltb_spec (state_code (last_state s)) (state_code SASL_POSTED_MECHANISMS));
      [discriminate|].
    rewrite (Hseen eq_refl) by lia. simpl. repeat split; auto.
Qed.

Lemma drain_ordered (t t' : pn_transport_t) (s : pni_sasl_t) :
  well_numbered state_code ->
  frames_ordered state_code t ->
  sasl t = Some s ->
  role_legal (client s) (desired_state s) = true ->
  drain list_mechs (drain_plan state_code s) t = Ok t' ->
  frames_ordered state_code t'.
Proof.
  intros Hc Hord Hs Hleg H. unfold drain_plan in H.
  destruct (state_code (desired_state s) >? state_code (last_state s)).
  2:{ injection H as <-. exact Hord. }
  destruct (prerequisite state_code s (desired_state s)) as [p|] eqn:Hp.
  - simpl in H. apply bind_Ok_inv in H as (t1 & H1 & H).
    apply bind_Ok_inv in H as (t2 & H2 & H). injection H as <-.
    destruct (prerequisite_cases _ _ _ _ Hp) as [_ Hcases].
    assert (Hlegp : role_legal (client s) p = true).
    { apply (way_station_role_legal _ (desired_state s)); [|exact Hleg].
      exact Hcases. }
    assert (Hduep : prerequisite state_code s p = None).
    { destruct Hcases as [[-> _] | [-> _]]; reflexivity. }
    pose proof (pass_through_ordered _ _ _ _ Hc Hord Hs Hlegp Hduep H1) as Hord1.
    destruct (pass_through_posts _ _ _ _ Hs H1) as (Hs1 & _).
    apply (pass_through_ordered t1 t2 (with_last_state s p) (desired_state s)
             Hc Hord1 Hs1); [exact Hleg| |exact H2].
    apply prerequisite_met. exact Hp.
  - simpl in H. apply bind_Ok_inv in H as (t1 & H1 & H). injection H as <-.
    exact (pass_through_ordered _ _ _ _ Hc Hord Hs Hleg Hp H1).
Qed.

Lemma posting_run_ordered (t : pn_transport_t) :
  well_numbered state_code ->
  posting_run state_code list_mechs t ->
  machine_legal t /\ frames_ordered state_code t.
Proof.
  intros Hc. pose proof Hc as (Hnone & Hinj & Hir & Hip & Hio & Hmc & Hmo).
  assert (Hnm : state_code SASL_NONE < state_code SASL_POSTED_MECHANISMS).
  { specialize (Hnone SASL_POSTED_MECHANISMS).
    destruct (Z.eq_dec (state_code SASL_NONE) (state_code SASL_POSTED_MECHANISMS)) as [E|E];
      [apply Hinj in E; discriminate | lia]. }
  induction 1 as [cfg t Hnone' Hfr | t t' _ [Hleg Hord] Hstep].
  - unfold pn_sasl. rewrite Hnone'. split.
    + eexists. split; [reflexivity|]. simpl. destruct (negb (server t)); split; reflexivity.
    + eexists. split; [reflexivity|]. simpl. rewrite Hfr. simpl.
      repeat split. intros _ Hle. lia.
  - destruct Hstep as [t t' st H | t t' fuel Hfuel H | t t' s1 s' Hs1 Hs' Hsame Hfr].
    + split; [eapply set_desired_state_legal; eassumption|].
      destruct Hleg as (s & Hs & Hl & Hd).
      destruct Hord as (s0 & Hs0 & Hrole & Hfirst & Hseen).
      rewrite Hs in Hs0. injection Hs0 as <-.
      destruct (request_applied state_code s st) eqn:Ha.
      * rewrite (set_desired_state_applied _ _ _ _ Hs Ha) in H. injection H as <-.
        eexists. rewrite sasl_emit, frames_emit. split; [reflexivity|]. simpl.
        repeat split; try assumption. intros Hcl Hle.
        unfold rewound in Hle.
        destruct (state_eqb (last_state s) st) eqn:E; simpl in Hle; [|auto].
        apply state_eqb_eq in E.
        destruct st; simpl in Hle; auto; apply Hseen; auto; rewrite E; lia.
      * destruct (set_desired_state_dropped _ _ _ _ Hs Ha) as (fmt & args & E).
        rewrite E in H. injection H as <-. exists s. simpl. auto.
    + split; [eapply post_sasl_frame_legal; eassumption|].
      destruct Hleg as (s & Hs & Hl & Hd).
      rewrite (post_sasl_frame_drain _ _ _ _ s Hc Hs Hfuel) in H.
      eapply drain_ordered; eassumption.
    + destruct Hsame as (Hcl & Hl & Hd).
      destruct Hleg as (s & Hs & Hl0 & Hd0).
      destruct Hord as (s0 & Hs0 & Hrole & Hfirst & Hseen).
      rewrite Hs in Hs0. injection Hs0 as <-.
      rewrite Hs in Hs1. injection Hs1 as <-.
      split.
      * exists s'. rewrite Hcl, Hl, Hd. auto.
      * exists s'. rewrite Hcl, Hl, Hfr. auto.
Qed.

(** X4.  In every run a client has posted only INIT and RESPONSE frames and a
    server only MECHANISMS, CHALLENGE and OUTCOME frames. *)
Theorem posted_frames_belong_to_role (t : pn_transport_t) (s : pni_sasl_t) :
  well_numbered state_code ->
  posting_run state_code list_mechs t ->
  sasl t = Some s ->
  forallb (role_frame (client s)) (frames t) = true.
Proof.
  intros Hc Hr Hs.
  destruct (posting_run_ordered t Hc Hr) as [_ (s0 & Hs0 & Hrole & _)].
  rewrite Hs in Hs0. injection Hs0 as <-. exact Hrole.
Qed.

(** X5.  In every run each CHALLENGE and each OUTCOME frame has a MECHANISMS
    frame posted before it. *)
Theorem mechanisms_posted_first (t : pn_transport_t) :
  well_numbered state_code ->
  posting_run state_code list_mechs t ->
  mechanisms_first false (frames t) = true.
Proof.
  intros Hc Hr.
  destruct (posting_run_ordered t Hc Hr) as [_ (s0 & _ & _ & Hfirst & _)].
  exact Hfirst.
Qed.

Lemma run_calls_posting (calls : list machine_call) :
  forall t t',
    posting_run state_code list_mechs t ->
    run_calls state_code list_mechs calls t = Ok t' ->
    posting_run state_code list_mechs t'.
Proof.
  induction calls as [|[st|] calls IH]; intros t t' Hr H; simpl in H.
  - now injection H as <-.
  - apply bind_Ok_inv in H as (t1 & H1 & H2).
    eapply IH; [|exact H2]. eapply posting_next; [exact Hr|].
    eapply posting_set_desired_state; exact H1.
  - apply bind_Ok_inv in H as (t1 & H1 & H2).
    eapply IH; [|exact H2]. eapply posting_next; [exact Hr|].
    eapply posting_post_sasl_frame; [|exact H1]. apply le_n.
Qed.

End FrameOrder.

(** ** Mechanism lists *)

Section MechanismLists.

Lemma fields_space_free (s : string) : forallb space_free (fields s) = true.
Proof.
  induction s as [|c r IH]; simpl; [reflexivity|].
  destruct (is_sp c) eqn:E; simpl; [exact IH|].
  destruct (fields r) as [|f fs]; simpl in *; rewrite E; simpl; [reflexivity|exact IH].
Qed.

Lemma fields_nul_free (s : string) :
  nul_free s = true -> forallb nul_free (fields s) = true.
Proof.
  induction s as [|c r IH]; simpl; [reflexivity|].
  intros H. apply andb_true_iff in H as [Hc Hr]. specialize (IH Hr).
  destruct (is_sp c); simpl; [exact IH|].
  destruct (fields r) as [|f fs]; simpl in *; rewrite Hc; simpl; [reflexivity|exact IH].
Qed.

Lemma forallb_filter_keep {A : Type} (f keep : A -> bool) (l : list A) :
  forallb f l = true -> forallb f (filter keep l) = true.
Proof.
  induction l as [|x l IH]; simpl; [reflexivity|]. intros H.
  apply andb_true_iff in H as [Hx Hl]. destruct (keep x); simpl; [rewrite Hx|]; auto.
Qed.

Lemma forallb_filter_self {A : Type} (keep : A -> bool) (l : list A) :
  forallb keep (filter keep l) = true.
Proof.
  induction l as [|x l IH]; simpl; [reflexivity|].
  destruct (keep x) eqn:E; simpl; [rewrite E|]; auto.
Qed.

Lemma forallb_and {A : Type} (f g : A -> bool) (l : list A) :
  forallb f l = true -> forallb g l = true ->
  forallb (fun x => f x && g x) l = true.
Proof.
  induction l as [|x l IH]; simpl; [reflexivity|]. intros Hf Hg.
  apply andb_true_iff in Hf as [Hfx Hfl]. apply andb_true_iff in Hg as [Hgx Hgl].
  rewrite Hfx, Hgx. simpl. auto.
Qed.

(** The tokens of a list are mechanism names: not empty, without space and
    without NUL. *)
Lemma mech_tokens_names (mechlist : string) :
  forallb mech_name (mech_tokens mechlist) = true.
Proof.
  unfold mech_tokens, mech_name.
  apply forallb_and; [apply forallb_and|].
  - apply forallb_filter_self.
  - apply forallb_filter_keep, fields_space_free.
  - apply forallb_filter_keep, fields_nul_free, cstr_nul_free.
Qed.

(** X6.  What [pni_split_mechs] leaves in a fresh array when it returns: the
    counter is the number of slots written, the written slots come first and
    hold, in the order of the list, mechanism names (not empty, no space, no
    NUL) that pass the allow-list, and the other slots are untouched. *)
Theorem split_mechs_stores_names
    (mechlist : string) (incl : option string) (n : nat) (mechs : mech_array) (count : Z) :
  pni_split_mechs mechlist incl (uninitialised n) 0 = Ok (mechs, count) ->
  exists toks,
    mechs = map Some toks ++ repeat None (n - List.length toks)
    /\ count = Z.of_nat (List.length toks)
    /\ (List.length toks <= n)%nat
    /\ List.length mechs = n
    /\ forallb mech_name toks = true
    /\ forallb (pni_included_mech incl) toks = true
    /\ toks = filter (pni_included_mech incl) (mech_tokens mechlist).
Proof.
  rewrite pni_split_mechs_fresh.
  destruct (Nat.leb (List.length (admitted incl mechlist)) n) eqn:E; [|discriminate].
  intros H. injection H as <- <-. apply Nat.leb_le in E.
  exists (admitted incl mechlist). unfold filled, admitted in *.
  repeat split; try assumption.
  - rewrite length_app, length_map, repeat_length. lia.
  - apply forallb_filter_keep, mech_tokens_names.
  - apply forallb_filter_self.
Qed.

Lemma fields_of_name (a : string) :
  space_free a = true -> fields a = [a].
Proof.
  induction a as [|c a IH]; simpl; [reflexivity|]. intros H.
  apply andb_true_iff in H as [Hc Ha]. apply negb_true_iff in Hc.
  rewrite Hc, (IH Ha). reflexivity.
Qed.

Lemma fields_name_then_space (a r : string) :
  space_free a = true -> fields (a ++ String SP r) = a :: fields r.
Proof.
  induction a as [|c a IH]; simpl; [reflexivity|]. intros H.
  apply andb_true_iff in H as [Hc Ha]. apply negb_true_iff in Hc.
  rewrite Hc, (IH Ha). reflexivity.
Qed.

Lemma fields_join (toks : list string) :
  toks <> [] -> forallb space_free toks = true -> fields (join_sp toks) = toks.
Proof.
  induction toks as [|x [|y r] IH]; intros Hne H; [congruence| |].
  - simpl in *. rewrite andb_true_r in H. now apply fields_of_name.
  - change (join_sp (x :: y :: r)) with (x ++ String SP (join_sp (y :: r)))%string.
    simpl in H. apply andb_true_iff in H as [Hx H].
    rewrite fields_name_then_space by assumption.
    rewrite IH; [reflexivity|discriminate|exact H].
Qed.

Lemma forallb_weaken {A : Type} (f g : A -> bool) (l : list A) :
  (forall x, f x = true -> g x = true) -> forallb f l = true -> forallb g l = true.
Proof.
  intros Hfg. induction l as [|x l IH]; simpl; [reflexivity|]. intros H.
  apply andb_true_iff in H as [Hx Hl]. rewrite (Hfg x Hx). simpl. auto.
Qed.

Lemma filter_all {A : Type} (f : A -> bool) (l : list A) :
  forallb f l = true -> filter f l = l.
Proof.
  induction l as [|x l IH]; simpl; [reflexivity|]. intros H.
  apply andb_true_iff in H as [Hx Hl]. rewrite Hx, (IH Hl). reflexivity.
Qed.

Lemma mech_name_parts (x : string) :
  mech_name x = true -> non_empty x = true /\ space_free x = true /\ nul_free x = true.
Proof.
  unfold mech_name. intros H. apply andb_true_iff in H as [H Hn].
  apply andb_true_iff in H as [He Hs]. auto.
Qed.

(** Joining mechanism names with spaces and reading the tokens back gives
    the names. *)
Lemma mech_tokens_join (toks : list string) :
  forallb mech_name toks = true -> mech_tokens (join_sp toks) = toks.
Proof.
  intros H. unfold mech_tokens.
  destruct toks as [|x r]; [reflexivity|].
  rewrite cstr_of_nul_free.
  - rewrite fields_join; [|discriminate|].
    + apply filter_all. revert H. apply forallb_weaken. intros y Hy.
      now apply mech_name_parts in Hy.
    + revert H. apply forallb_weaken. intros y Hy. now apply mech_name_parts in Hy.
  - apply nul_free_join. revert H. apply forallb_weaken. intros y Hy.
    now apply mech_name_parts in Hy.
Qed.

(** X7.  Round trip: the space-separated list of at most [n] mechanism names,
    split with no allow-list into an array of [n] slots, gives back the
    names, in order. *)
Theorem split_mechs_inverts_join (toks : list string) (n : nat) :
  forallb mech_name toks = true ->
  (List.length toks <= n)%nat ->
  pni_split_mechs (join_sp toks) None (uninitialised n) 0
  = Ok (map Some toks ++ repeat None (n - List.length toks),
        Z.of_nat (List.length toks)).
Proof.
  intros H Hn. rewrite pni_split_mechs_fresh. unfold admitted.
  rewrite mech_tokens_join by assumption.
  assert (E : filter (pni_included_mech None) toks = toks)
    by (apply filter_all; clear; induction toks; simpl; auto).
  rewrite E. apply Nat.leb_le in Hn. rewrite Hn. reflexivity.
Qed.

End MechanismLists.

(** Three names are joined and split again. *)
Lemma split_mechs_inverts_join_witness :
  pni_split_mechs (join_sp ["GSSAPI"; "PLAIN"; "ANONYMOUS"]) None (uninitialised 16) 0
  = Ok (map Some ["GSSAPI"; "PLAIN"; "ANONYMOUS"] ++ repeat None 13, 3).
Proof.
  apply (split_mechs_inverts_join ["GSSAPI"; "PLAIN"; "ANONYMOUS"] 16).
  - reflexivity.
  - simpl. lia.
Defined.

(** A list with doubled and trailing separators, filtered by an allow-list. *)
Lemma split_mechs_stores_names_witness :
  exists toks,
    toks = ["PLAIN"; "GSSAPI"]
    /\ forallb mech_name toks = true
    /\ forallb (pni_included_mech (Some "gssapi plain")) toks = true.
Proof.
  destruct (split_mechs_stores_names "PLAIN  ANONYMOUS GSSAPI " (Some "gssapi plain") 3
              [Some "PLAIN"; Some "GSSAPI"; None] 2 eq_refl)
    as (toks & _ & _ & _ & _ & H1 & H2 & H3).
  exists toks. split; [exact H3|]. split; assumption.
Defined.

(** ** The allow-list, word by word *)

Section AllowListWords.

Lemma is_sp_tolower (c : ascii) : is_sp (tolower c) = is_sp c.
Proof. destruct c as [[] [] [] [] [] [] [] []]; reflexivity. Qed.

Lemma is_nul_tolower (c : ascii) : is_nul (tolower c) = is_nul c.
Proof. destruct c as [[] [] [] [] [] [] [] []]; reflexivity. Qed.

Lemma tolower_idempotent (c : ascii) : tolower (tolower c) = tolower c.
Proof. destruct c as [[] [] [] [] [] [] [] []]; reflexivity. Qed.

Lemma lower_idempotent (s : string) : lower (lower s) = lower s.
Proof.
  induction s as [|c r IH]; simpl; [reflexivity|].
  now rewrite tolower_idempotent, IH.
Qed.

Lemma lower_append (a b : string) : lower (a ++ b) = (lower a ++ lower b)%string.
Proof. induction a as [|c a IH]; simpl; [reflexivity|]. now rewrite IH. Qed.

Lemma length_lower (s : string) : String.length (lower s) = String.length s.
Proof. induction s as [|c r IH]; simpl; [reflexivity|]. now rewrite IH. Qed.

Lemma space_free_lower (s : string) : space_free (lower s) = space_free s.
Proof.
  induction s as [|c r IH]; simpl; [reflexivity|]. now rewrite is_sp_tolower, IH.
Qed.

Lemma cstr_lower (s : string) : cstr (lower s) = lower (cstr s).
Proof.
  induction s as [|c r IH]; simpl; [reflexivity|].
  rewrite is_nul_tolower. destruct (is_nul c); simpl; [reflexivity|]. now rewrite IH.
Qed.

Lemma lower_append_inv (s : string) :
  forall a b, lower s = (a ++ b)%string ->
              exists x y, s = (x ++ y)%string /\ lower x = a /\ lower y = b.
Proof.
  induction s as [|c r IH]; intros a b H; simpl in H.
  - destruct a; [|discriminate]. simpl in H. subst b.
    exists EmptyString, EmptyString. auto.
  - destruct a as [|d a]; simpl in H.
    + exists EmptyString, (String c r). subst b. auto.
    + injection H as Hd H. destruct (IH a b H) as (x & y & -> & Hx & Hy).
      exists (String c x), y. simpl. rewrite Hd, Hx. auto.
Qed.

Lemma word_end_lower (post : string) : word_end (lower post) <-> word_end post.
Proof.
  unfold word_end. destruct post as [|c r]; simpl.
  - tauto.
  - split; intros [H|[r' H]]; try discriminate; right; injection H as Hc Hr.
    + apply (f_equal is_sp) in Hc. rewrite is_sp_tolower in Hc.
      apply is_sp_true in Hc. subst c. eauto.
    + subst c. eauto.
Qed.

Lemma matches_here_lower (c sym : string) :
  matches_here (lower c) sym <-> matches_here c sym.
Proof.
  unfold matches_here. split.
  - intros (w' & post' & H & Hl & Hlow & Hend).
    apply lower_append_inv in H as (w & post & -> & <- & <-).
    exists w, post. rewrite length_lower, lower_idempotent in *.
    rewrite word_end_lower in Hend. auto.
  - intros (w & post & -> & Hl & Hlow & Hend).
    exists (lower w), (lower post).
    rewrite lower_append, length_lower, lower_idempotent, word_end_lower. auto.
Qed.

Lemma word_start_of_lower (l c' : string) :
  word_start_of (lower l) c' <-> exists c, word_start_of l c /\ lower c = c'.
Proof.
  unfold word_start_of. split.
  - intros [->|(pre' & H)].
    + exists l. auto.
    + apply lower_append_inv in H as (pre & y & -> & _ & Hy).
      destruct y as [|ch c]; [discriminate|]. simpl in Hy. injection Hy as Hc Hy.
      apply (f_equal is_sp) in Hc. rewrite is_sp_tolower in Hc.
      apply is_sp_true in Hc. subst ch. exists c. eauto.
  - intros (c & [->|(pre & ->)] & <-); [left; reflexivity|].
    right. exists (lower pre). now rewrite lower_append.
Qed.

Lemma listed_lower_list (l sym : string) : listed (lower l) sym <-> listed l sym.
Proof.
  unfold listed. split.
  - intros (c' & Hws & Hm). apply word_start_of_lower in Hws as (c & Hws & <-).
    apply (proj1 (matches_here_lower c sym)) in Hm. exists c. split; assumption.
  - intros (c & Hws & Hm). exists (lower c). split.
    + apply word_start_of_lower. eauto.
    + now apply matches_here_lower.
Qed.

Lemma listed_lower_symbol (l sym sym' : string) :
  lower sym = lower sym' -> listed l sym -> listed l sym'.
Proof.
  intros E (c & Hws & w & post & Hc & Hl & Hlow & Hend).
  exists c. split; [exact Hws|]. exists w, post. repeat split; try assumption.
  - rewrite Hl, <- (length_lower sym), E. apply length_lower.
  - congruence.
Qed.

Lemma bool_iff (a b : bool) : (a = true <-> b = true) -> a = b.
Proof.
  destruct a, b; intros [H1 H2]; try reflexivity.
  - symmetry. now apply H1.
  - now apply H2.
Qed.

(** X8.  The allow-list is matched without regard to case, in the list as in the
    symbol: lists that differ in case only admit the same symbols, and
    symbols that differ in case only are admitted alike. *)
Theorem included_mech_ignores_case (l l' sym sym' : string) :
  lower (cstr l) = lower (cstr l') ->
  lower sym = lower sym' ->
  pni_included_mech (Some l) sym = pni_included_mech (Some l') sym'.
Proof.
  intros El Es. apply bool_iff.
  rewrite !pni_included_mech_listed.
  rewrite <- (listed_lower_list (cstr l)), <- (listed_lower_list (cstr l')), El.
  split; apply listed_lower_symbol; congruence.
Qed.

(** The first field of [c] is [w] exactly when [c] is [w] followed by a
    delimiter. *)
Lemma first_field (c : string) :
  forall w, (exists fs, fields c = w :: fs)
            <-> space_free w = true
                /\ exists post, c = (w ++ post)%string /\ word_end post.
Proof.
  induction c as [|a c IH]; intros w.
  - simpl. split.
    + intros (fs & H). injection H as <- _. split; [reflexivity|].
      exists EmptyString. split; [reflexivity|left; reflexivity].
    + intros (_ & post & H & _). destruct w; [|discriminate]. eauto.
  - simpl. destruct (is_sp a) eqn:Ea.
    + apply is_sp_true in Ea. subst a. split.
      * intros (fs & H). injection H as <- _. split; [reflexivity|].
        exists (String SP c). split; [reflexivity|right; eauto].
      * intros (Hw & post & H & _). destruct w as [|b w]; [eauto|].
        simpl in H. injection H as <- _. simpl in Hw. discriminate.
    + destruct (fields c) as [|f fs] eqn:Ef; [now apply fields_not_nil in Ef|].
      split.
      * intros (fs' & H). injection H as <- <-.
        destruct (proj1 (IH f) (ex_intro _ fs eq_refl)) as (Hf & post & -> & Hend).
        split; [simpl; now rewrite Ea|]. exists post. auto.
      * intros (Hw & post & H & Hend). destruct w as [|b w]; simpl in H.
        -- destruct Hend as [->|(r & ->)]; [discriminate|].
           injection H as -> _. discriminate.
        -- injection H as <- ->. simpl in Hw. apply andb_true_iff in Hw as [_ Hw].
           destruct (proj2 (IH w)) as (fs' & E); [eauto|].
           injection E as <- <-. eauto.
Qed.

(** The fields after the first are the first fields of what follows a
    space. *)
Lemma later_fields (l : string) :
  forall f, In f (tl (fields l))
            <-> exists pre c fs, l = (pre ++ String SP c)%string /\ fields c = f :: fs.
Proof.
  induction l as [|a l IH]; intros f.
  - simpl. split; [contradiction|]. intros (pre & c & fs & H & _).
    destruct pre; discriminate.
  - simpl. destruct (is_sp a) eqn:Ea.
    + apply is_sp_true in Ea. subst a. simpl.
      destruct (fields l) as [|f0 fs0] eqn:Ef; [now apply fields_not_nil in Ef|].
      split.
      * intros [<-|Hin].
        -- exists EmptyString, l, fs0. auto.
        -- apply (proj1 (IH f)) in Hin as (pre & c & fs & -> & Hc).
           exists (String SP pre), c, fs. auto.
      * intros (pre & c & fs & H & Hc). destruct pre as [|b pre]; simpl in H.
        -- injection H as ->. rewrite Ef in Hc. injection Hc as -> _. now left.
        -- injection H as _ ->. right. apply IH. eauto.
    + destruct (fields l) as [|f0 fs0] eqn:Ef; [now apply fields_not_nil in Ef|].
      simpl in *. rewrite IH. split.
      * intros (pre & c & fs & -> & Hc). exists (String a pre), c, fs. auto.
      * intros (pre & c & fs & H & Hc). destruct pre as [|b pre]; simpl in H.
        -- injection H as -> _. discriminate.
        -- injection H as _ ->. eauto.
Qed.

Lemma in_fields (l f : string) :
  In f (fields l) <-> exists c fs, word_start_of l c /\ fields c = f :: fs.
Proof.
  unfold word_start_of.
  destruct (fields l) as [|f0 fs0] eqn:Ef; [now apply fields_not_nil in Ef|].
  pose proof (later_fields l f) as Hl. rewrite Ef in Hl. simpl in *.
  split.
  - intros [<-|Hin].
    + exists l, fs0. auto.
    + apply Hl in Hin as (pre & c & fs & H & Hc). exists c, fs. eauto.
  - intros (c & fs & [->|(pre & H)] & Hc).
    + rewrite Ef in Hc. injection Hc as -> _. now left.
    + right. apply Hl. eauto.
Qed.

(** X9.  For a symbol without space the allow-list works word by word: the symbol
    is admitted exactly when it equals, up to case, one of the
    space-separated fields of the list. *)
Theorem included_mech_word_by_word (l sym : string) :
  space_free sym = true ->
  pni_included_mech (Some l) sym = true
  <-> exists f, In f (fields (cstr l)) /\ lower f = lower sym.
Proof.
  intros Hsf. rewrite pni_included_mech_listed. unfold listed. split.
  - intros (c & Hws & w & post & Hc & Hl & Hlow & Hend).
    exists w. split; [|exact Hlow].
    apply in_fields.
    assert (Hw : space_free w = true).
    { rewrite <- space_free_lower, Hlow, space_free_lower. exact Hsf. }
    destruct (proj2 (first_field c w)) as (fs & E); [eauto|]. eauto.
  - intros (f & Hin & Hlow).
    apply in_fields in Hin as (c & fs & Hws & Hc).
    destruct (proj1 (first_field c f)) as (Hf & post & E & Hend); [eauto|].
    exists c. split; [exact Hws|]. exists f, post. repeat split; try assumption.
    rewrite <- (length_lower f), Hlow. apply length_lower.
Qed.

End AllowListWords.

(** Lists and symbols in different case. *)
Lemma included_mech_ignores_case_witness :
  pni_included_mech (Some "PLAIN anonymous") "Plain"
  = pni_included_mech (Some "plain ANONYMOUS") "PLAIN".
Proof. apply included_mech_ignores_case; reflexivity. Defined.

(** "plain" is a field of the list "GSSAPI PLAIN", up to case. *)
Lemma included_mech_word_by_word_witness :
  pni_included_mech (Some "GSSAPI PLAIN") "plain" = true.
Proof.
  apply (included_mech_word_by_word "GSSAPI PLAIN" "plain"); [reflexivity|].
  exists "PLAIN". split; [right; left; reflexivity|reflexivity].
Defined.

(** ** The runs of the examples *)

Lemma client_after_response_posting :
  posting_run enum_code no_mechs client_after_response.
Proof.
  eapply run_calls_posting;
    [apply (posting_start enum_code no_mechs None (fresh_transport false)); reflexivity|].
  instantiate (1 := [Call_set_desired_state SASL_POSTED_INIT; Call_post_sasl_frame;
                     Call_set_desired_state SASL_POSTED_RESPONSE; Call_post_sasl_frame]).
  vm_compute. reflexivity.
Qed.

Lemma server_after_challenge_posting :
  posting_run enum_code two_mechs server_after_challenge.
Proof.
  eapply run_calls_posting;
    [apply (posting_start enum_code two_mechs None (fresh_transport true)); reflexivity|].
  instantiate (1 := [Call_set_desired_state SASL_POSTED_MECHANISMS; Call_post_sasl_frame;
                     Call_set_desired_state SASL_POSTED_CHALLENGE; Call_post_sasl_frame]).
  vm_compute. reflexivity.
Qed.

(** A server that asks for a CHALLENGE twice before the drain runs. *)
Lemma repeated_request_changes_nothing_witness :
  exists t1 t2 s1,
    pni_sasl_set_desired_state enum_code server_after_challenge SASL_POSTED_CHALLENGE = Ok t1
    /\ pni_sasl_set_desired_state enum_code t1 SASL_POSTED_CHALLENGE = Ok t2
    /\ sasl t1 = Some s1
    /\ sasl t2 = Some s1.
Proof.
  edestruct (repeated_request_changes_nothing enum_code server_after_challenge)
    as (t1 & t2 & s1 & H1 & H2 & H3 & H4 & _).
  - reflexivity.
  - exists t1, t2, s1. repeat split; eassumption.
Defined.

(** A server asked for a CHALLENGE from the start, drained twice. *)
Lemma second_drain_changes_nothing_witness :
  exists t',
    pni_post_sasl_frame enum_code two_mechs 4
      (at_states new_server SASL_NONE SASL_POSTED_CHALLENGE) = Ok t'
    /\ pni_post_sasl_frame enum_code two_mechs 1 t' = Ok t'.
Proof.
  edestruct (second_drain_changes_nothing enum_code two_mechs
               (at_states new_server SASL_NONE SASL_POSTED_CHALLENGE))
    as (t' & H1 & H2).
  - exact enum_code_well_numbered.
  - reflexivity.
  - vm_compute. discriminate.
  - intros _. exists "PLAIN ANONYMOUS". split; [reflexivity|].
    vm_compute. repeat constructor.
  - apply (le_n 4).
  - exists t'. split; [exact H1|apply H2].
Defined.

(** The same drain posts two frames and emits two events. *)
Lemma drain_emits_one_event_per_frame_witness :
  exists t' posted,
    pni_post_sasl_frame enum_code two_mechs 4
      (at_states new_server SASL_NONE SASL_POSTED_CHALLENGE) = Ok t'
    /\ frames t' = posted
    /\ events t' = repeat PN_TRANSPORT (List.length posted).
Proof.
  destruct (drain_emits_one_event_per_frame enum_code two_mechs
              (at_states new_server SASL_NONE SASL_POSTED_CHALLENGE) _ 4
              enum_code_well_numbered eq_refl ltac:(vm_compute; discriminate) (le_n 4))
    as [(t' & posted & H1 & H2 & _ & H3 & _) | (_ & Hnot & _)].
  - exists t', posted. split; [exact H1|]. split; [exact H2|exact H3].
  - exfalso. apply Hnot. intros _. exists "PLAIN ANONYMOUS". split; [reflexivity|].
    vm_compute. repeat constructor.
Defined.

(** The client of the example has posted client frames only. *)
Lemma posted_frames_belong_to_role_witness :
  posting_run enum_code no_mechs client_after_response
  /\ forallb (role_frame true) (frames client_after_response) = true.
Proof.
  split; [exact client_after_response_posting|].
  exact (posted_frames_belong_to_role enum_code no_mechs client_after_response _
           enum_code_well_numbered client_after_response_posting eq_refl).
Defined.

(** The server of the example posted its MECHANISMS before its CHALLENGE. *)
Lemma mechanisms_posted_first_witness :
  posting_run enum_code two_mechs server_after_challenge
  /\ mechanisms_first false (frames server_after_challenge) = true.
Proof.
  split; [exact server_after_challenge_posting|].
  apply (mechanisms_posted_first enum_code two_mechs server_after_challenge).
  - exact enum_code_well_numbered.
  - exact server_after_challenge_posting.
Defined.

(** ** The protocol header *)

Lemma substring_all (r : string) : String.substring 0 (String.length r) r = r.
Proof. induction r as [|c r IH]; simpl; [reflexivity|]. now rewrite IH. Qed.

Lemma memmove_header_split (bytes : string) :
  (8 <= String.length bytes)%nat ->
  exists pre rest,
    bytes = (pre ++ rest)%string
    /\ String.length pre = 8%nat
    /\ memmove_header bytes = (SASL_HEADER ++ rest)%string.
Proof.
  intros H.
  destruct bytes as [|c0 bytes]; [simpl in H; lia|].
  destruct bytes as [|c1 bytes]; [simpl in H; lia|].
  destruct bytes as [|c2 bytes]; [simpl in H; lia|].
  destruct bytes as [|c3 bytes]; [simpl in H; lia|].
  destruct bytes as [|c4 bytes]; [simpl in H; lia|].
  destruct bytes as [|c5 bytes]; [simpl in H; lia|].
  destruct bytes as [|c6 bytes]; [simpl in H; lia|].
  destruct bytes as [|c7 bytes]; [simpl in H; lia|].
  exists (String c0 (String c1 (String c2 (String c3
            (String c4 (String c5 (String c6 (String c7 EmptyString)))))))), bytes.
  split; [reflexivity|]. split; [reflexivity|].
  unfold memmove_header. simpl String.length. simpl Nat.sub.
  rewrite Nat.sub_0_r. simpl String.substring. now rewrite substring_all.
Qed.

Lemma layers_set_others (a : list pn_io_layer_t) (v : pn_io_layer_t) :
  forall i a', layers_set a i v = Ok a' ->
               forall j, j <> i -> nth_error a' j = nth_error a j.
Proof.
  induction a as [|x a IH]; intros [|i] a' H j Hj; simpl in H; try discriminate.
  - injection H as <-. destruct j; [contradiction|reflexivity].
  - apply bind_Ok_inv in H as (r & Hr & H). injection H as <-.
    destruct j; [reflexivity|]. simpl. apply (IH i r Hr). lia.
Qed.

Section ProtocolHeader.

Variable PN_EOS : Z.
Variable PN_TRACE_FRM : Z.
Variable pn_transport_capacity : pn_transport_t -> Z.
Variable pni_sniff_header : string -> pni_protocol_type_t.
Variable pni_protocol_name : pni_protocol_type_t -> string.
Variable pn_quote_data : nat -> string -> string.
Variable pn_ssl_get_ssf : pn_transport_t -> Z.
Variable pn_ssl_get_remote_subject : pn_transport_t -> option string.

Lemma write_sasl_header_passes (t : pn_transport_t) (layer : nat) (cur : pn_io_layer_t)
    (bytes : string) :
  nth_error (io_layers t) layer = Some cur ->
  (8 <= String.length bytes)%nat ->
  exists t',
    pn_output_write_sasl_header PN_TRACE_FRM t layer bytes
    = Passed (Ok (t', memmove_header bytes, 8))
    /\ nth_error (io_layers t') layer
       = Some (if layer_eqb cur sasl_write_header_layer
               then sasl_layer else sasl_read_header_layer)
    /\ (forall j, j <> layer -> nth_error (io_layers t') j = nth_error (io_layers t) j)
    /\ sasl t' = sasl t
    /\ frames t' = frames t
    /\ close_sent t' = close_sent t
    /\ condition t' = condition t
    /\ log t' = log t ++ (if Z.land (trace t) PN_TRACE_FRM =? 0 then []
                          else [Logf log_frame_out [ArgStr "SASL"]]).
Proof.
  intros Hcur Hsize. unfold pn_output_write_sasl_header.
  destruct (Nat.ltb_spec (String.length bytes) 8) as [Hlt|_]; [lia|].
  set (t1 := if negb (Z.land (trace t) PN_TRACE_FRM =? 0)
             then pn_transport_logf t log_frame_out [ArgStr "SASL"] else t).
  assert (Hl : io_layers t1 = io_layers t) by (subst t1; destruct (negb _); reflexivity).
  rewrite Hl. unfold layers_get. rewrite Hcur. cbn [bind].
  destruct (layers_set_nth (io_layers t) layer
              (if layer_eqb cur sasl_write_header_layer
               then sasl_layer else sasl_read_header_layer) cur Hcur)
    as (a' & E & Hn & _).
  rewrite E. cbn [bind]. eexists. split; [reflexivity|].
  split; [exact Hn|]. split; [exact (layers_set_others _ _ _ _ E)|].
  subst t1. destruct (Z.land (trace t) PN_TRACE_FRM =? 0); simpl;
    rewrite ?app_nil_r; auto.
Qed.

Lemma read_sasl_header_accepts (t : pn_transport_t) (s : pni_sasl_t) (layer : nat)
    (cur : pn_io_layer_t) (bytes : string) :
  pni_sniff_header bytes = PNI_PROTOCOL_AMQP_SASL ->
  sasl t = Some s ->
  nth_error (io_layers t) layer = Some cur ->
  exists t' s',
    pn_input_read_sasl_header PN_EOS PN_TRACE_FRM pn_transport_capacity
      pni_sniff_header pni_protocol_name pn_quote_data pn_ssl_get_ssf
      pn_ssl_get_remote_subject t layer bytes = Ok (t', 8)
    /\ nth_error (io_layers t') layer
       = Some (if layer_eqb cur sasl_read_header_layer
               then sasl_layer else sasl_write_header_layer)
    /\ (forall j, j <> layer -> nth_error (io_layers t') j = nth_error (io_layers t) j)
    /\ sasl t' = Some s'
    /\ frames t' = frames t.
Proof.
  intros Hp Hs Hcur. unfold pn_input_read_sasl_header. rewrite Hp.
  unfold layers_get. rewrite Hcur. cbn [bind].
  destruct (layers_set_nth (io_layers t) layer
              (if layer_eqb cur sasl_read_header_layer
               then sasl_layer else sasl_write_header_layer) cur Hcur)
    as (a' & E & Hn & _).
  rewrite E. cbn [bind]. unfold pni_sasl_set_external_security.
  pose proof (layers_set_others _ _ _ _ E) as Ho.
  destruct (negb (Z.land (trace (with_io_layers t a')) PN_TRACE_FRM =? 0));
    simpl; rewrite Hs; simpl; eexists; eexists; (split; [reflexivity|]); simpl; auto.
Qed.

(** X10.  The header writer aborts on a buffer shorter than eight bytes.  On any
    other buffer it returns 8 and leaves the SASL header in the first eight
    bytes and the rest of the buffer as it was; the slot of the layer holds
    [sasl_layer] if it held [sasl_write_header_layer], and
    [sasl_read_header_layer] otherwise; the other slots, the SASL context,
    the posted frames and the condition are as before, and the log has one
    more line exactly when frames are traced. *)
Theorem write_sasl_header_output (t : pn_transport_t) (layer : nat) (bytes : string) :
  ((String.length bytes < 8)%nat ->
   pn_output_write_sasl_header PN_TRACE_FRM t layer bytes = Assertion_failed)
  /\ ((8 <= String.length bytes)%nat ->
      forall cur, nth_error (io_layers t) layer = Some cur ->
      exists t' out pre rest,
        pn_output_write_sasl_header PN_TRACE_FRM t layer bytes = Passed (Ok (t', out, 8))
        /\ bytes = (pre ++ rest)%string
        /\ String.length pre = 8%nat
        /\ out = (SASL_HEADER ++ rest)%string
        /\ nth_error (io_layers t') layer
           = Some (if layer_eqb cur sasl_write_header_layer
                   then sasl_layer else sasl_read_header_layer)
        /\ (forall j, j <> layer -> nth_error (io_layers t') j = nth_error (io_layers t) j)
        /\ sasl t' = sasl t
        /\ frames t' = frames t
        /\ condition t' = condition t
        /\ log t' = log t ++ (if Z.land (trace t) PN_TRACE_FRM =? 0 then []
                              else [Logf log_frame_out [ArgStr "SASL"]])).
Proof.
  split.
  - intros Hlt. unfold pn_output_write_sasl_header.
    destruct (Nat.ltb_spec (String.length bytes) 8) as [_|Hge]; [reflexivity|lia].
  - intros Hsize cur Hcur.
    destruct (write_sasl_header_passes t layer cur bytes Hcur Hsize)
      as (t' & H & Hn & Ho & Hs & Hf & _ & Hc & Hl).
    destruct (memmove_header_split bytes Hsize) as (pre & rest & Hb & Hp & Hm).
    exists t', (memmove_header bytes), pre, rest. repeat split; assumption.
Qed.

(** X11.  Each of the two header functions, called through the table of the layer
    that holds it, puts a layer in the slot that has one more header behind
    it, that does not hold the function again, and that holds for the other
    direction what the layer before held: each header is read once and
    written once, in either order. *)
Theorem header_functions_advance_slot
    (t : pn_transport_t) (s : pni_sasl_t) (layer : nat) (cur : pn_io_layer_t)
    (inb outb : string) :
  sasl t = Some s ->
  nth_error (io_layers t) layer = Some cur ->
  (process_input cur = Some Fn_input_read_sasl_header ->
   pni_sniff_header inb = PNI_PROTOCOL_AMQP_SASL ->
   exists t' next,
     pn_input_read_sasl_header PN_EOS PN_TRACE_FRM pn_transport_capacity
       pni_sniff_header pni_protocol_name pn_quote_data pn_ssl_get_ssf
       pn_ssl_get_remote_subject t layer inb = Ok (t', 8)
     /\ nth_error (io_layers t') layer = Some next
     /\ headers_done next = S (headers_done cur)
     /\ process_input next = Some Fn_input_read_sasl
     /\ process_output next = process_output cur)
  /\ (process_output cur = Some Fn_output_write_sasl_header ->
      (8 <= String.length outb)%nat ->
      exists t' out next,
        pn_output_write_sasl_header PN_TRACE_FRM t layer outb = Passed (Ok (t', out, 8))
        /\ nth_error (io_layers t') layer = Some next
        /\ headers_done next = S (headers_done cur)
        /\ process_output next = Some Fn_output_write_sasl
        /\ process_input next = process_input cur).
Proof.
  intros Hs Hcur. split.
  - intros Hfn Hp.
    destruct (read_sasl_header_accepts t s layer cur inb Hp Hs Hcur)
      as (t' & s' & H & Hn & _).
    exists t'. eexists. split; [exact H|]. split; [exact Hn|].
    destruct cur; simpl in Hfn; try discriminate; repeat split.
  - intros Hfn Hsize.
    destruct (write_sasl_header_passes t layer cur outb Hcur Hsize)
      as (t' & H & Hn & _).
    exists t', (memmove_header outb). eexists. split; [exact H|]. split; [exact Hn|].
    destruct cur; simpl in Hfn; try discriminate; repeat split.
Qed.

(** X12.  From [sasl_header_layer] the two headers may go either way round: the
    peer's header read and then ours written, or ours written and then the
    peer's read, leave [sasl_layer] in the slot and the other slots as they
    were. *)
Theorem header_exchange_installs_sasl_layer
    (t : pn_transport_t) (s : pni_sasl_t) (layer : nat) (inb outb : string) :
  sasl t = Some s ->
  nth_error (io_layers t) layer = Some sasl_header_layer ->
  pni_sniff_header inb = PNI_PROTOCOL_AMQP_SASL ->
  (8 <= String.length outb)%nat ->
  let read :=
    pn_input_read_sasl_header PN_EOS PN_TRACE_FRM pn_transport_capacity
      pni_sniff_header pni_protocol_name pn_quote_data pn_ssl_get_ssf
      pn_ssl_get_remote_subject in
  let write := pn_output_write_sasl_header PN_TRACE_FRM in
  (exists t1 t2 out,
      read t layer inb = Ok (t1, 8)
      /\ nth_error (io_layers t1) layer = Some sasl_write_header_layer
      /\ write t1 layer outb = Passed (Ok (t2, out, 8))
      /\ nth_error (io_layers t2) layer = Some sasl_layer
      /\ forall j, j <> layer -> nth_error (io_layers t2) j = nth_error (io_layers t) j)
  /\ (exists t1 t2 out,
         write t layer outb = Passed (Ok (t1, out, 8))
         /\ nth_error (io_layers t1) layer = Some sasl_read_header_layer
         /\ read t1 layer inb = Ok (t2, 8)
         /\ nth_error (io_layers t2) layer = Some sasl_layer
         /\ forall j, j <> layer -> nth_error (io_layers t2) j = nth_error (io_layers t) j).
Proof.
  intros Hs Hcur Hp Hsize read write. subst read write. split.
  - destruct (read_sasl_header_accepts t s layer _ inb Hp Hs Hcur)
      as (t1 & s1 & H1 & Hn1 & Ho1 & Hs1 & _).
    simpl in Hn1.
    destruct (write_sasl_header_passes t1 layer _ outb Hn1 Hsize)
      as (t2 & H2 & Hn2 & Ho2 & _).
    simpl in Hn2.
    exists t1, t2, (memmove_header outb). repeat split; try assumption.
    intros j Hj. rewrite (Ho2 j Hj). exact (Ho1 j Hj).
  - destruct (write_sasl_header_passes t layer _ outb Hcur Hsize)
      as (t1 & H1 & Hn1 & Ho1 & Hs1 & _).
    simpl in Hn1. rewrite Hs in Hs1.
    destruct (read_sasl_header_accepts t1 s layer _ inb Hp Hs1 Hn1)
      as (t2 & s2 & H2 & Hn2 & Ho2 & _).
    simpl in Hn2.
    exists t1, t2, (memmove_header outb). repeat split; try assumption.
    intros j Hj. rewrite (Ho2 j Hj). exact (Ho1 j Hj).
Qed.

End ProtocolHeader.

(** A traced write into a buffer of ten bytes, and a write into a buffer of
    four. *)
Lemma write_sasl_header_output_witness :
  example_write_sasl_header (tracing new_client) 0 "abcd" = Assertion_failed
  /\ exists t',
       example_write_sasl_header (tracing new_client) 0 "0123456789"
       = Passed (Ok (t', (SASL_HEADER ++ "89")%string, 8))
       /\ nth_error (io_layers t') 0 = Some sasl_read_header_layer
       /\ log t' = [Logf log_frame_out [ArgStr "SASL"]].
Proof.
  split.
  - apply (write_sasl_header_output 2 (tracing new_client) 0 "abcd"). simpl. lia.
  - destruct (write_sasl_header_output 2 (tracing new_client) 0 "0123456789")
      as [_ H].
    destruct (H ltac:(simpl; lia) sasl_header_layer eq_refl)
      as (t' & out & pre & rest & H1 & H2 & H3 & H4 & H5 & _ & _ & _ & _ & H6).
    exists t'. split; [|split; [exact H5|exact H6]].
    unfold example_write_sasl_header. rewrite H1.
    vm_compute in H1. injection H1 as _ E. rewrite <- E. reflexivity.
Defined.

(** A new client whose slot 0 holds [sasl_header_layer]: the peer's header
    read, and our header written into a buffer of eight bytes. *)
Lemma header_functions_advance_slot_witness :
  (exists t', example_read_sasl_header new_client 0 SASL_HEADER = Ok (t', 8)
              /\ nth_error (io_layers t') 0 = Some sasl_write_header_layer)
  /\ (exists t' out, example_write_sasl_header new_client 0 "01234567"
                     = Passed (Ok (t', out, 8))
                     /\ nth_error (io_layers t') 0 = Some sasl_read_header_layer).
Proof.
  destruct (header_functions_advance_slot (-1) 2 (fun _ => 1024) example_sniff
              example_protocol_name example_quote (fun _ => 0) (fun _ => None)
              new_client _ 0 sasl_header_layer SASL_HEADER "01234567" eq_refl eq_refl)
    as [Hr Hw].
  split.
  - destruct (Hr eq_refl eq_refl) as (t' & next & H1 & H2 & H3 & H4 & H5).
    exists t'. split; [exact H1|]. rewrite H2. f_equal.
    destruct next; simpl in H3, H4, H5; try discriminate; reflexivity.
  - destruct (Hw eq_refl ltac:(simpl; lia)) as (t' & out & next & H1 & H2 & H3 & H4 & H5).
    exists t', out. split; [exact H1|]. rewrite H2. f_equal.
    destruct next; simpl in H3, H4, H5; try discriminate; reflexivity.
Defined.

(** The same client, the headers exchanged in both orders. *)
Lemma header_exchange_installs_sasl_layer_witness :
  (exists t1 t2 out,
      example_read_sasl_header new_client 0 SASL_HEADER = Ok (t1, 8)
      /\ example_write_sasl_header t1 0 "01234567" = Passed (Ok (t2, out, 8))
      /\ nth_error (io_layers t2) 0 = Some sasl_layer)
  /\ (exists t1 t2 out,
         example_write_sasl_header new_client 0 "01234567" = Passed (Ok (t1, out, 8))
         /\ example_read_sasl_header t1 0 SASL_HEADER = Ok (t2, 8)
         /\ nth_error (io_layers t2) 0 = Some sasl_layer).
Proof.
  destruct (header_exchange_installs_sasl_layer (-1) 2 (fun _ => 1024) example_sniff
              example_protocol_name example_quote (fun _ => 0) (fun _ => None)
              new_client _ 0 SASL_HEADER "01234567" eq_refl eq_refl eq_refl
              ltac:(simpl; lia))
    as [(t1 & t2 & out & H1 & _ & H2 & H3 & _) (u1 & u2 & out' & G1 & _ & G2 & G3 & _)].
  split.
  - exists t1, t2, out. repeat split; assumption.
  - exists u1, u2, out'. repeat split; assumption.
Defined.

(** ** The anonymous short-circuit, from the request to the drain *)

Section AnonymousShortCircuit.

Variable state_code : pni_sasl_state -> Z.
Variable pni_init_client : pn_transport_t -> bool * backend_writes.
Variable pni_process_mechanisms : pn_transport_t -> string -> bool * backend_writes.
Variable list_mechs : pn_transport_t -> Z * option string.

Lemma none_below (st : pni_sasl_state) :
  well_numbered state_code -> st <> SASL_NONE ->
  state_code SASL_NONE < state_code st.
Proof.
  intros (Hnone & Hinj & _) Hne. specialize (Hnone st).
  destruct (Z.eq_dec (state_code SASL_NONE) (state_code st)) as [E|E]; [|lia].
  apply Hinj in E. congruence.
Qed.

(** What [pni_sasl_force_anonymous] leaves on a client that has posted
    nothing yet. *)
Lemma force_anonymous_result (t : pn_transport_t) (s : pni_sasl_t) :
  well_numbered state_code ->
  sasl t = Some s ->
  client s = true ->
  last_state s = SASL_NONE ->
  let t0 := after_backend t s Call_init_client (pni_init_client t) in
  let ok := fst (pni_init_client t) && fst (pni_process_mechanisms t0 "ANONYMOUS") in
  exists t1 s1,
    pni_sasl_force_anonymous state_code pni_init_client pni_process_mechanisms t = Ok t1
    /\ sasl t1 = Some s1
    /\ frames t1 = frames t
    /\ client s1 = true
    /\ last_state s1 = SASL_NONE
    /\ desired_state s1 = (if ok then SASL_PRETEND_OUTCOME else SASL_RECVED_OUTCOME)
    /\ (ok = false -> outcome s1 = PN_SASL_PERM).
Proof.
  intros Hc Hs Hcl Hl t0 ok.
  pose proof Hc as (Hnone & _).
  assert (Happ : forall (t' : pn_transport_t) (s' : pni_sasl_t) (st : pni_sasl_state),
             sasl t' = Some s' -> client s' = true -> last_state s' = SASL_NONE ->
             frames t' = frames t ->
             pni_sasl_is_client_state st = true ->
             st <> SASL_POSTED_RESPONSE -> st <> SASL_POSTED_CHALLENGE ->
             exists t1 s1,
               pni_sasl_set_desired_state state_code t' st = Ok t1
               /\ sasl t1 = Some s1 /\ frames t1 = frames t
               /\ client s1 = true /\ last_state s1 = SASL_NONE
               /\ desired_state s1 = st /\ outcome s1 = outcome s').
  { intros t' s' st Hs' Hcl' Hl' Hf' Hst Hnr Hnc.
    assert (Ha : request_applied state_code s' st = true).
    { unfold request_applied, role_legal. rewrite Hl', Hcl', Hst.
      rewrite andb_true_r. apply Z.leb_le. apply Hnone. }
    rewrite (set_desired_state_applied _ _ _ _ Hs' Ha).
    eexists. eexists. split; [reflexivity|].
    rewrite sasl_emit, frames_emit. split; [reflexivity|]. simpl.
    split; [exact Hf'|]. split; [exact Hcl'|]. split; [|split; reflexivity].
    unfold rewound. rewrite Hl'.
    destruct st; simpl; try reflexivity; congruence. }
  unfold pni_sasl_force_anonymous. rewrite Hs. cbn [bind deref]. rewrite Hcl.
  rewrite (init_and_process_result _ _ _ _ _ Hs). cbv zeta.
  change (cstr "ANONYMOUS") with "ANONYMOUS". fold t0. subst ok.
  destruct (fst (pni_init_client t)) eqn:E1; cbn [andb bind].
  - destruct (fst (pni_process_mechanisms t0 "ANONYMOUS")) eqn:E2.
    + destruct (Happ (after_backend t0 (with_backend s (snd (pni_init_client t)))
                        (Call_process_mechanisms "ANONYMOUS")
                        (pni_process_mechanisms t0 "ANONYMOUS"))
                     _ SASL_PRETEND_OUTCOME eq_refl Hcl Hl eq_refl eq_refl)
        as (t1 & s1 & H1 & H2 & H3 & H4 & H5 & H6 & _); try discriminate.
      exists t1, s1. repeat split; try assumption. discriminate.
    + unfold fail_perm. cbn [sasl after_backend record_call with_sasl bind deref].
      destruct (Happ (with_sasl
                        (after_backend t0 (with_backend s (snd (pni_init_client t)))
                           (Call_process_mechanisms "ANONYMOUS")
                           (pni_process_mechanisms t0 "ANONYMOUS"))
                        (with_outcome
                           (with_backend (with_backend s (snd (pni_init_client t)))
                              (snd (pni_process_mechanisms t0 "ANONYMOUS")))
                           PN_SASL_PERM))
                     _ SASL_RECVED_OUTCOME eq_refl Hcl Hl eq_refl eq_refl)
        as (t1 & s1 & H1 & H2 & H3 & H4 & H5 & H6 & H7); try discriminate.
      cbn [after_backend record_call with_sasl] in H1. rewrite H1.
      exists t1, s1. repeat split; try assumption. intros _. exact H7.
  - unfold fail_perm. subst t0.
    cbn [sasl after_backend record_call with_sasl bind deref].
    destruct (Happ (with_sasl (after_backend t s Call_init_client (pni_init_client t))
                      (with_outcome (with_backend s (snd (pni_init_client t)))
                         PN_SASL_PERM))
                   _ SASL_RECVED_OUTCOME eq_refl Hcl Hl eq_refl eq_refl)
      as (t1 & s1 & H1 & H2 & H3 & H4 & H5 & H6 & H7); try discriminate.
    cbn [after_backend record_call with_sasl] in H1. rewrite H1.
    exists t1, s1. repeat split; try assumption. intros _. exact H7.
Qed.

(** X13.  The short-circuit from end to end, on a client that has posted nothing.
    When the backend takes ANONYMOUS, the next drain posts the INIT frame and
    nothing else and stops at SASL_PRETEND_OUTCOME, a final output state, and
    a MECHANISMS frame that arrives afterwards changes nothing.  When the
    backend refuses, the outcome is PERM and the drain stops at
    SASL_RECVED_OUTCOME, a final input state, without posting any frame. *)
Theorem anonymous_short_circuit
    (t : pn_transport_t) (s : pni_sasl_t) (fuel : nat) :
  well_numbered state_code ->
  sasl t = Some s ->
  client s = true ->
  last_state s = SASL_NONE ->
  (4 <= fuel)%nat ->
  let t0 := after_backend t s Call_init_client (pni_init_client t) in
  let ok := fst (pni_init_client t) && fst (pni_process_mechanisms t0 "ANONYMOUS") in
  exists t1 s1 t2 s2,
    pni_sasl_force_anonymous state_code pni_init_client pni_process_mechanisms t = Ok t1
    /\ sasl t1 = Some s1
    /\ frames t1 = frames t
    /\ pni_post_sasl_frame state_code list_mechs fuel t1 = Ok t2
    /\ sasl t2 = Some s2
    /\ if ok
       then frames t2 = frames t ++ [SASL_INIT (selected_mechanism s1) (bytes_out s1)]
            /\ last_state s2 = SASL_PRETEND_OUTCOME
            /\ pni_sasl_is_final_output_state s2 = true
            /\ forall args,
                 pn_do_mechanisms state_code pni_init_client pni_process_mechanisms t2 args
                 = Ok (t2, 0)
       else frames t2 = frames t
            /\ outcome s2 = PN_SASL_PERM
            /\ last_state s2 = SASL_RECVED_OUTCOME
            /\ pni_sasl_is_final_input_state s2 = true.
Proof.
  intros Hc Hs Hcl Hl Hfuel t0 ok.
  destruct (force_anonymous_result t s Hc Hs Hcl Hl)
    as (t1 & s1 & H1 & Hs1 & Hf1 & Hc1 & Hl1 & Hd1 & Ho1).
  fold t0 in Hd1, Ho1. fold ok in Hd1, Ho1.
  pose proof Hc as (Hnone & Hinj & Hir & Hip & Hio & Hmc & Hmo).
  pose proof (none_below SASL_POSTED_INIT Hc ltac:(discriminate)) as Hni.
  assert (Hle : state_code (last_state s1) <= state_code (desired_state s1))
    by (rewrite Hl1; apply Hnone).
  assert (Hplan : drain_plan state_code s1
                  = if ok then [SASL_POSTED_INIT; SASL_PRETEND_OUTCOME]
                    else [SASL_RECVED_OUTCOME]).
  { unfold drain_plan, prerequisite. rewrite Hd1, Hl1. destruct ok.
    - destruct (Z.gtb_spec (state_code SASL_PRETEND_OUTCOME) (state_code SASL_NONE));
        [|lia].
      destruct (Z.ltb_spec (state_code SASL_NONE) (state_code SASL_POSTED_INIT));
        [reflexivity|lia].
    - pose proof (none_below SASL_RECVED_OUTCOME Hc ltac:(discriminate)).
      destruct (Z.gtb_spec (state_code SASL_RECVED_OUTCOME) (state_code SASL_NONE));
        [|lia].
      rewrite (Ho1 eq_refl). simpl. now rewrite andb_false_r. }
  assert (Hfit : In SASL_POSTED_MECHANISMS (drain_plan state_code s1) ->
                 mechs_fit list_mechs t1 s1).
  { rewrite Hplan. destruct ok; simpl; intros H; repeat destruct H as [H|H];
      discriminate || contradiction. }
  destruct (drain_ok state_code list_mechs t1 s1 Hc Hs1 Hle Hfit)
    as (t2 & H2 & Hs2 & Hf2 & _).
  exists t1, s1, t2, (with_last_state s1 (desired_state s1)).
  split; [exact H1|]. split; [exact Hs1|]. split; [exact Hf1|].
  split; [rewrite (post_sasl_frame_drain _ _ _ _ s1 Hc Hs1 Hfuel); exact H2|].
  split; [exact Hs2|].
  rewrite Hplan, Hf1 in Hf2. rewrite Hd1. destruct ok.
  - simpl in Hf2. split; [exact Hf2|]. split; [reflexivity|]. split; [reflexivity|].
    intros args. unfold pn_do_mechanisms. rewrite Hs2, Hd1. reflexivity.
  - simpl in Hf2. rewrite app_nil_r in Hf2. split; [exact Hf2|].
    split; [simpl; apply Ho1; reflexivity|]. split; reflexivity.
Qed.

End AnonymousShortCircuit.

(** The short-circuit on a new client whose backend takes ANONYMOUS. *)
Lemma anonymous_short_circuit_witness :
  exists t1 t2 s2,
    pni_sasl_force_anonymous enum_code accepting_init accepting_mechs new_client = Ok t1
    /\ pni_post_sasl_frame enum_code no_mechs 4 t1 = Ok t2
    /\ sasl t2 = Some s2
    /\ frames t2 = [SASL_INIT (Some "PLAIN") ""]
    /\ last_state s2 = SASL_PRETEND_OUTCOME.
Proof.
  destruct (anonymous_short_circuit enum_code accepting_init accepting_mechs no_mechs
              new_client _ 4 enum_code_well_numbered eq_refl eq_refl eq_refl (le_n 4))
    as (t1 & s1 & t2 & s2 & H1 & H2 & H3 & H4 & H5 & H6 & H7 & _).
  exists t1, t2, s2. split; [exact H1|]. split; [exact H4|]. split; [exact H5|].
  split; [|exact H7].
  rewrite H6. vm_compute in H1. injection H1 as <-. simpl in H2. injection H2 as <-.
  reflexivity.
Defined.

(** ** The server's initialisation *)

Section ServerInit.

Variable state_code : pni_sasl_state -> Z.

(** X14.  [pn_sasl_process] does nothing on a client, nor on a server whose
    desired state has reached SASL_POSTED_MECHANISMS, whatever the backend.
    On a server below that state it calls the backend's initialisation: when
    that succeeds SASL_POSTED_MECHANISMS becomes the desired state, one
    event is emitted, and no later call initialises again; when it fails the
    state machine is as before, so that the next call tries again.  No frame
    is posted and nothing is logged either way. *)
Theorem sasl_process_initialises_server_once
    (pni_init_server : pn_transport_t -> bool * backend_writes)
    (t : pn_transport_t) (s : pni_sasl_t) :
  sasl t = Some s ->
  (client s = true
   \/ state_code SASL_POSTED_MECHANISMS <= state_code (desired_state s) ->
   pn_sasl_process state_code pni_init_server t = Ok t)
  /\ (client s = false ->
      state_code (last_state s) <= state_code (desired_state s) ->
      state_code (desired_state s) < state_code SASL_POSTED_MECHANISMS ->
      exists t1 s1,
        pn_sasl_process state_code pni_init_server t = Ok t1
        /\ sasl t1 = Some s1
        /\ client s1 = false
        /\ last_state s1 = last_state s
        /\ desired_state s1
           = (if fst (pni_init_server t) then SASL_POSTED_MECHANISMS else desired_state s)
        /\ frames t1 = frames t
        /\ log t1 = log t
        /\ events t1
           = events t ++ (if fst (pni_init_server t) && has_collector t
                          then [PN_TRANSPORT] else [])
        /\ (fst (pni_init_server t) = true ->
            forall init', pn_sasl_process state_code init' t1 = Ok t1)).
Proof.
  intros Hs. split.
  - intros H. unfold pn_sasl_process. rewrite Hs. cbn [bind deref].
    destruct (client s); [reflexivity|]. destruct H as [H|H]; [discriminate|].
    simpl. destruct (Z.ltb_spec (state_code (desired_state s))
                       (state_code SASL_POSTED_MECHANISMS)); [lia|reflexivity].
  - intros Hcl Hle Hlt. unfold pn_sasl_process. rewrite Hs. cbn [bind deref].
    rewrite Hcl. simpl negb. cbv iota.
    destruct (Z.ltb_spec (state_code (desired_state s))
                (state_code SASL_POSTED_MECHANISMS)) as [_|Hge]; [|lia].
    unfold pni_sasl_server_init, init_server_returns. rewrite Hs. cbn [bind deref].
    destruct (pni_init_server t) as [ok w]. simpl fst. simpl snd.
    destruct ok; simpl negb; cbv iota.
    + assert (Ha : request_applied state_code (with_backend s w) SASL_POSTED_MECHANISMS
                   = true).
      { unfold request_applied, role_legal. simpl. rewrite Hcl. simpl.
        rewrite andb_true_r. apply Z.leb_le. lia. }
      rewrite (set_desired_state_applied state_code (with_sasl t (with_backend s w))
                 (with_backend s w) SASL_POSTED_MECHANISMS eq_refl Ha).
      eexists. eexists. split; [reflexivity|].
      rewrite sasl_emit, frames_emit, log_emit, events_emit.
      split; [reflexivity|]. simpl.
      split; [exact Hcl|].
      split; [unfold rewound; simpl; now rewrite !andb_false_r|].
      split; [reflexivity|]. split; [reflexivity|]. split; [reflexivity|].
      split.
      * destruct t as [? ? [[[q|]]|] ? ? ? ? ? ? ?]; simpl; rewrite ?app_nil_r; reflexivity.
      * intros _ init'. unfold pn_sasl_process. rewrite ?sasl_emit. simpl.
        rewrite Hcl. simpl. now rewrite Z.ltb_irrefl.
    + eexists. eexists. split; [reflexivity|]. simpl.
      rewrite app_nil_r. repeat split; try assumption. discriminate.
Qed.

End ServerInit.

(** A new server whose backend initialises. *)
Lemma sasl_process_initialises_server_once_witness :
  exists t1 s1,
    pn_sasl_process enum_code accepting_server_init new_server = Ok t1
    /\ sasl t1 = Some s1
    /\ desired_state s1 = SASL_POSTED_MECHANISMS
    /\ pn_sasl_process enum_code refusing_init t1 = Ok t1.
Proof.
  destruct (sasl_process_initialises_server_once enum_code accepting_server_init
              new_server _ eq_refl) as [_ H].
  destruct H as (t1 & s1 & H1 & H2 & _ & _ & H3 & _ & _ & _ & H4);
    [reflexivity|vm_compute; discriminate|reflexivity|].
  exists t1, s1. split; [exact H1|]. split; [exact H2|]. split; [exact H3|].
  apply H4. reflexivity.
Defined.

(** ** The application's handle *)

Section Handle.

Lemma store_same (m : heap) (a : nat) (t : pn_transport_t) : store m a t a = Some t.
Proof. unfold store. now rewrite Nat.eqb_refl. Qed.

Lemma store_other (m : heap) (a b : nat) (t : pn_transport_t) :
  b <> a -> store m a t b = m b.
Proof. intros H. unfold store. apply Nat.eqb_neq in H. now rewrite H. Qed.

Lemma get_sasl_internal_at (m : heap) (a : nat) (t : pn_transport_t) :
  m a = Some t ->
  get_sasl_internal m (Some a)
  = Ok (match sasl t with Some s => Some (a, s) | None => None end).
Proof. intros H. unfold get_sasl_internal, load. now rewrite H. Qed.

(** X15.  [pn_sasl_outcome] returns what [pn_sasl_done] stored.  [pn_sasl_done]
    writes the outcome and nothing else: it requests no state, posts no
    frame, emits no event, and leaves the other transports, the user and the
    selected mechanism as they were.  On a transport without a SASL context
    it changes nothing and the outcome reads PN_SASL_NONE. *)
Theorem outcome_returns_what_done_stored
    (m : heap) (a : nat) (t : pn_transport_t) (o : pn_sasl_outcome_t) :
  m a = Some t ->
  (forall s, sasl t = Some s ->
     exists m' t' s',
       pn_sasl_done m (Some a) o = Ok m'
       /\ pn_sasl_outcome m' (Some a) = Ok o
       /\ m' a = Some t'
       /\ sasl t' = Some s'
       /\ same_machine s s'
       /\ frames t' = frames t
       /\ events t' = events t
       /\ log t' = log t
       /\ pn_sasl_get_user m' (Some a) = pn_sasl_get_user m (Some a)
       /\ pn_sasl_get_mech m' (Some a) = pn_sasl_get_mech m (Some a)
       /\ forall b, b <> a -> m' b = m b)
  /\ (sasl t = None ->
      pn_sasl_done m (Some a) o = Ok m
      /\ pn_sasl_outcome m (Some a) = Ok PN_SASL_NONE).
Proof.
  intros Hm. split.
  - intros s Hs.
    exists (store m a (with_sasl t (with_outcome s o))),
           (with_sasl t (with_outcome s o)), (with_outcome s o).
    assert (Hd : pn_sasl_done m (Some a) o
                 = Ok (store m a (with_sasl t (with_outcome s o)))).
    { unfold pn_sasl_done. rewrite (get_sasl_internal_at m a t Hm), Hs.
      cbn [bind]. unfold load. rewrite Hm. reflexivity. }
    split; [exact Hd|].
    unfold pn_sasl_outcome, pn_sasl_get_user, pn_sasl_get_mech.
    rewrite (get_sasl_internal_at _ a _ (store_same m a _)).
    rewrite (get_sasl_internal_at m a t Hm), Hs. simpl.
    repeat split; try reflexivity.
    + apply store_same.
    + intros b Hb. now apply store_other.
  - intros Hs. unfold pn_sasl_done, pn_sasl_outcome.
    rewrite (get_sasl_internal_at m a t Hm), Hs. split; reflexivity.
Qed.

(** X16.  [pn_sasl_get_user] returns the user [pni_sasl_set_user_password] was
    given; the password is kept as a copy of the C string; the selected
    mechanism, the outcome, the state machine and the posted frames are as
    before. *)
Theorem get_user_returns_what_was_set
    (m : heap) (a : nat) (t : pn_transport_t) (s : pni_sasl_t)
    (user pass : option string) :
  m a = Some t ->
  sasl t = Some s ->
  exists t' s',
    pni_sasl_set_user_password t user pass = Ok t'
    /\ sasl t' = Some s'
    /\ pn_sasl_get_user (store m a t') (Some a) = Ok user
    /\ password s' = option_map cstr pass
    /\ pn_sasl_get_mech (store m a t') (Some a) = pn_sasl_get_mech m (Some a)
    /\ pn_sasl_outcome (store m a t') (Some a) = pn_sasl_outcome m (Some a)
    /\ same_machine s s'
    /\ frames t' = frames t.
Proof.
  intros Hm Hs. unfold pni_sasl_set_user_password. rewrite Hs. cbn [bind deref].
  eexists. eexists. split; [reflexivity|]. split; [reflexivity|].
  unfold pn_sasl_get_user, pn_sasl_get_mech, pn_sasl_outcome.
  rewrite (get_sasl_internal_at _ a _ (store_same m a _)).
  rewrite (get_sasl_internal_at m a t Hm), Hs. simpl.
  repeat split; reflexivity.
Qed.

(** X17.  The two inspectors that return strings read through the context
    without a test: on a null handle, and on a transport that has no SASL
    context, they dereference a null pointer, where [pn_sasl_outcome]
    returns PN_SASL_NONE. *)
Theorem string_inspectors_need_a_context (m : heap) :
  pn_sasl_get_user m None = Undefined NullDeref
  /\ pn_sasl_get_mech m None = Undefined NullDeref
  /\ forall a t,
       m a = Some t -> sasl t = None ->
       pn_sasl_get_user m (Some a) = Undefined NullDeref
       /\ pn_sasl_get_mech m (Some a) = Undefined NullDeref
       /\ pn_sasl_outcome m (Some a) = Ok PN_SASL_NONE.
Proof.
  split; [reflexivity|]. split; [reflexivity|].
  intros a t Hm Hs. unfold pn_sasl_get_user, pn_sasl_get_mech, pn_sasl_outcome.
  rewrite (get_sasl_internal_at m a t Hm), Hs. repeat split.
Qed.

End Handle.

(** A server at address 3 that reports the outcome AUTH. *)
Lemma outcome_returns_what_done_stored_witness :
  exists m',
    pn_sasl_done (heap_with 3 new_server) (Some 3%nat) PN_SASL_AUTH = Ok m'
    /\ pn_sasl_outcome m' (Some 3%nat) = Ok PN_SASL_AUTH.
Proof.
  destruct (outcome_returns_what_done_stored (heap_with 3 new_server) 3 new_server
              PN_SASL_AUTH eq_refl) as [H _].
  destruct (H _ eq_refl) as (m' & t' & s' & H1 & H2 & _).
  exists m'. split; assumption.
Defined.

(** A client at address 3 given a user and a password. *)
Lemma get_user_returns_what_was_set_witness :
  exists t',
    pni_sasl_set_user_password new_client (Some "guest") (Some "secret") = Ok t'
    /\ pn_sasl_get_user (store (heap_with 3 new_client) 3 t') (Some 3%nat)
       = Ok (Some "guest").
Proof.
  destruct (get_user_returns_what_was_set (heap_with 3 new_client) 3 new_client _
              (Some "guest") (Some "secret") eq_refl eq_refl)
    as (t' & s' & H1 & _ & H2 & _).
  exists t'. split; assumption.
Defined.

(** A transport before [pn_sasl], at address 3. *)
Lemma string_inspectors_need_a_context_witness :
  pn_sasl_get_user (heap_with 3 (fresh_transport false)) (Some 3%nat)
  = Undefined NullDeref
  /\ pn_sasl_outcome (heap_with 3 (fresh_transport false)) (Some 3%nat)
     = Ok PN_SASL_NONE.
Proof.
  destruct (string_inspectors_need_a_context (heap_with 3 (fresh_transport false)))
    as (_ & _ & H).
  destruct (H 3%nat (fresh_transport false) eq_refl eq_refl) as (H1 & _ & H2).
  split; assumption.
Defined.

(** ** The final output states *)

Section FinalStates.

Variable state_code : pni_sasl_state -> Z.
Variable list_mechs : pn_transport_t -> Z * option string.

Lemma final_plan (s : pni_sasl_t) :
  well_numbered state_code ->
  outcomes_last state_code ->
  role_legal (client s) (last_state s) = true ->
  role_legal (client s) (desired_state s) = true ->
  pni_sasl_is_final_output_state s = true ->
  drain_plan state_code s = []
  \/ (drain_plan state_code s = [desired_state s]
      /\ (desired_state s = SASL_PRETEND_OUTCOME
          \/ desired_state s = SASL_RECVED_OUTCOME)).
Proof.
  intros (Hnone & Hinj & Hir & Hip & Hio & Hmc & Hmo) (Hrp & Hrr & Hco) Hl Hd Hf.
  unfold drain_plan, prerequisite, pni_sasl_is_final_output_state, role_legal in *.
  pose proof (Hnone (last_state s)) as Hn.
  destruct (client s), (last_state s), (desired_state s);
    simpl in Hl, Hd, Hf; try discriminate;
    repeat match goal with
           | |- context [?a >? ?b] => destruct (Z.gtb_spec a b)
           | |- context [?a <? ?b] => destruct (Z.ltb_spec a b)
           end; simpl; auto; try lia.
Qed.

Lemma final_after_request (s : pni_sasl_t) (st : pni_sasl_state) :
  pni_sasl_is_final_output_state s = true ->
  rewound s st = last_state s.
Proof.
  unfold pni_sasl_is_final_output_state, rewound.
  destruct (last_state s), st; simpl; intros H; try discriminate; reflexivity.
Qed.

(** X18.  Once the context is in a final output state no step of a run posts a
    frame, and the context stays in a final output state. *)
Theorem final_output_state_posts_no_more
    (t t' : pn_transport_t) (s : pni_sasl_t) :
  well_numbered state_code ->
  outcomes_last state_code ->
  posting_run state_code list_mechs t ->
  sasl t = Some s ->
  pni_sasl_is_final_output_state s = true ->
  posting_step state_code list_mechs t t' ->
  frames t' = frames t
  /\ exists s', sasl t' = Some s' /\ pni_sasl_is_final_output_state s' = true.
Proof.
  intros Hc Ho Hr Hs Hf Hstep.
  destruct (posting_run_ordered state_code list_mechs t Hc Hr)
    as [(s0 & Hs0 & Hl & Hd) _].
  rewrite Hs in Hs0. injection Hs0 as <-.
  destruct Hstep as [t t' st H | t t' fuel Hfuel H | t t' s1 s' Hs1 Hs' Hsame Hfr].
  - destruct (request_applied state_code s st) eqn:Ha.
    + rewrite (set_desired_state_applied _ _ _ _ Hs Ha) in H. injection H as <-.
      rewrite sasl_emit, frames_emit. split; [reflexivity|].
      eexists. split; [reflexivity|].
      rewrite (final_after_request s st Hf).
      unfold pni_sasl_is_final_output_state in *. simpl. exact Hf.
    + destruct (set_desired_state_dropped _ _ _ _ Hs Ha) as (fmt & args & E).
      rewrite E in H. injection H as <-. split; [reflexivity|]. exists s. auto.
  - rewrite (post_sasl_frame_drain _ _ _ _ s Hc Hs Hfuel) in H.
    destruct (final_plan s Hc Ho Hl Hd Hf) as [E|[E Hout]]; rewrite E in H; simpl in H.
    + injection H as <-. split; [reflexivity|]. exists s. auto.
    + apply bind_Ok_inv in H as (t1 & H1 & H). injection H as <-.
      destruct (pass_through_posts _ _ _ _ _ Hs H1) as (Hs1 & fs & Hfs & Hposts).
      split.
      * rewrite Hfs. destruct Hout as [E'|E']; rewrite E' in Hposts; simpl in Hposts;
          rewrite Hposts; apply app_nil_r.
      * eexists. split; [exact Hs1|].
        unfold pni_sasl_is_final_output_state. simpl.
        destruct Hout as [E'|E']; rewrite E'; reflexivity.
  - rewrite Hs in Hs1. injection Hs1 as <-.
    split; [exact Hfr|]. exists s'. split; [exact Hs'|].
    destruct Hsame as (_ & Hl' & _).
    unfold pni_sasl_is_final_output_state in *. now rewrite Hl'.
Qed.

End FinalStates.

Lemma enum_code_outcomes_last : outcomes_last enum_code.
Proof. unfold outcomes_last. simpl. lia. Qed.

Lemma client_after_pretend_posting :
  posting_run enum_code no_mechs client_after_pretend.
Proof.
  eapply run_calls_posting;
    [apply (posting_start enum_code no_mechs None (fresh_transport false)); reflexivity|].
  instantiate (1 := [Call_set_desired_state SASL_PRETEND_OUTCOME; Call_post_sasl_frame]).
  vm_compute. reflexivity.
Qed.

(** A client past SASL_PRETEND_OUTCOME that asks for a RESPONSE. *)
Lemma final_output_state_posts_no_more_witness :
  exists t',
    pni_sasl_set_desired_state enum_code client_after_pretend SASL_POSTED_RESPONSE = Ok t'
    /\ frames t' = frames client_after_pretend.
Proof.
  destruct (set_desired_state_summary enum_code client_after_pretend _
              SASL_POSTED_RESPONSE eq_refl) as (t' & s' & H & _).
  exists t'. split; [exact H|].
  apply (final_output_state_posts_no_more enum_code no_mechs client_after_pretend t' _
           enum_code_well_numbered enum_code_outcomes_last
           client_after_pretend_posting eq_refl eq_refl).
  apply (posting_set_desired_state enum_code no_mechs _ _ SASL_POSTED_RESPONSE H).
Defined.

(** ** The SASL layer gets out of the way *)

Section SaslLayerProperties.

Variable state_code : pni_sasl_state -> Z.
Variable pni_init_server : pn_transport_t -> bool * backend_writes.
Variable list_mechs : pn_transport_t -> Z * option string.
Variable PN_EOS : Z.
Variable pn_transport_capacity : pn_transport_t -> Z.
Variable available : pn_transport_t -> Z.
Variable pn_dispatcher_input : pn_transport_t -> string -> pn_transport_t * Z.
Variable pn_dispatcher_output : pn_transport_t -> string -> pn_transport_t * string * Z.
Variable pn_transport_close_tail : pn_transport_t -> pn_transport_t.

Lemma sasl_process_idle (t : pn_transport_t) (s : pni_sasl_t) :
  sasl t = Some s ->
  client s = true \/ state_code SASL_POSTED_MECHANISMS <= state_code (desired_state s) ->
  pn_sasl_process state_code pni_init_server t = Ok t.
Proof.
  intros Hs H. unfold pn_sasl_process. rewrite Hs. cbn [bind deref].
  destruct (client s); [reflexivity|]. destruct H as [H|H]; [discriminate|].
  simpl. destruct (Z.ltb_spec (state_code (desired_state s))
                     (state_code SASL_POSTED_MECHANISMS)); [lia|reflexivity].
Qed.

(** [pn_sasl_process] returns on every transport that has a context. *)
Lemma sasl_process_returns (t : pn_transport_t) (s : pni_sasl_t) :
  sasl t = Some s ->
  exists t0, pn_sasl_process state_code pni_init_server t = Ok t0.
Proof.
  intros Hs. unfold pn_sasl_process. rewrite Hs. cbn [bind deref].
  destruct (negb (client s)); [|eauto].
  destruct (state_code (desired_state s) <? state_code SASL_POSTED_MECHANISMS);
    [|eauto].
  unfold pni_sasl_server_init, init_server_returns. rewrite Hs. cbn [bind deref].
  destruct (negb (fst (pni_init_server t))); [eauto|].
  destruct (set_desired_state_summary state_code
              (with_sasl t (with_backend s (snd (pni_init_server t)))) _
              SASL_POSTED_MECHANISMS eq_refl) as (t0 & _ & H & _).
  eauto.
Qed.

Lemma post_sasl_frame_idle (fuel : nat) (t : pn_transport_t) (s : pni_sasl_t) :
  sasl t = Some s ->
  last_state s = desired_state s ->
  pni_post_sasl_frame state_code list_mechs (S fuel) t = Ok t.
Proof.
  intros Hs Hl. unfold pni_post_sasl_frame. rewrite Hs. cbn [bind deref].
  apply (loop_done _ _ _ _ _ _ _ Hs). rewrite Hl. lia.
Qed.

Lemma final_output_past_mechanisms (s : pni_sasl_t) :
  well_numbered state_code ->
  role_legal (client s) (desired_state s) = true ->
  last_state s = desired_state s ->
  pni_sasl_is_final_output_state s = true ->
  client s = true \/ state_code SASL_POSTED_MECHANISMS <= state_code (desired_state s).
Proof.
  intros (_ & _ & _ & _ & _ & _ & Hmo) Hrole Hl Hf.
  unfold pni_sasl_is_final_output_state, role_legal in *. rewrite Hl in Hf.
  destruct (client s); [now left|right].
  destruct (desired_state s); simpl in Hrole, Hf; try discriminate. lia.
Qed.

(** What [pn_sasl_output] does once the state machine has come to rest in a
    final output state and nothing is left to write. *)
Lemma sasl_output_at_rest (fuel : nat) (t : pn_transport_t) (s : pni_sasl_t)
    (bytes : string) :
  well_numbered state_code ->
  sasl t = Some s ->
  role_legal (client s) (desired_state s) = true ->
  last_state s = desired_state s ->
  pni_sasl_is_final_output_state s = true ->
  available t = 0 ->
  pn_sasl_output state_code pni_init_server list_mechs PN_EOS available
    pn_dispatcher_output pn_transport_close_tail (S fuel) t bytes
  = Ok (if negb (outcome_eqb (outcome s) PN_SASL_OK) && pni_sasl_is_final_input_state s
        then pn_transport_close_tail t else t, bytes, PN_EOS).
Proof.
  intros Hc Hs Hrole Hl Hf Hav. unfold pn_sasl_output.
  rewrite (sasl_process_idle t s Hs (final_output_past_mechanisms s Hc Hrole Hl Hf)).
  cbn [bind]. rewrite (post_sasl_frame_idle fuel t s Hs Hl). cbn [bind].
  rewrite Hs. cbn [bind deref]. rewrite Hav, Hf. reflexivity.
Qed.

(** X19.  Once the state machine is at rest in a final output state and nothing
    is left to write, [pn_sasl_output] returns PN_EOS without posting a
    frame and without asking the dispatcher, and it closes the tail of the
    transport exactly when the outcome is not OK and the state is final for
    input as well. *)
Theorem sasl_output_ends_in_final_state
    (fuel : nat) (t : pn_transport_t) (s : pni_sasl_t) (bytes : string) :
  well_numbered state_code ->
  sasl t = Some s ->
  role_legal (client s) (desired_state s) = true ->
  last_state s = desired_state s ->
  pni_sasl_is_final_output_state s = true ->
  available t = 0 ->
  exists t',
    pn_sasl_output state_code pni_init_server list_mechs PN_EOS available
      pn_dispatcher_output pn_transport_close_tail (S fuel) t bytes
    = Ok (t', bytes, PN_EOS)
    /\ (outcome s <> PN_SASL_OK /\ pni_sasl_is_final_input_state s = true ->
        t' = pn_transport_close_tail t)
    /\ (outcome s = PN_SASL_OK \/ pni_sasl_is_final_input_state s = false -> t' = t).
Proof.
  intros Hc Hs Hrole Hl Hf Hav.
  rewrite (sasl_output_at_rest fuel t s bytes Hc Hs Hrole Hl Hf Hav).
  eexists. split; [reflexivity|]. split.
  - intros [Ho Hi]. rewrite Hi.
    destruct (outcome s); try reflexivity. contradiction.
  - intros [Ho|Hi]; [rewrite Ho|rewrite Hi; rewrite andb_false_r]; reflexivity.
Qed.

(** X20.  The output side hands over.  At rest in a final output state, with
    nothing left to write and the handshake not failed, [pn_output_write_sasl]
    posts nothing, puts the output direction into bypass and leaves the call
    to the passthru layer; the slot becomes the passthru layer's exactly when
    the input direction is in bypass already.  From then on the function
    goes straight to the passthru layer. *)
Theorem sasl_layer_output_hands_over
    (fuel : nat) (t : pn_transport_t) (s : pni_sasl_t) (layer : nat)
    (cur : pn_io_layer_t) (bytes : string) :
  well_numbered state_code ->
  sasl t = Some s ->
  role_legal (client s) (desired_state s) = true ->
  last_state s = desired_state s ->
  pni_sasl_is_final_output_state s = true ->
  available t = 0 ->
  outcome s = PN_SASL_OK \/ pni_sasl_is_final_input_state s = false ->
  output_bypass s = false ->
  nth_error (io_layers t) layer = Some cur ->
  let write :=
    pn_output_write_sasl state_code pni_init_server list_mechs PN_EOS available
      pn_dispatcher_output pn_transport_close_tail in
  exists t',
    write (S fuel) t layer bytes = Ok (Return_passthru t' bytes)
    /\ sasl t' = Some (with_output_bypass s true)
    /\ frames t' = frames t
    /\ nth_error (io_layers t') layer
       = Some (if input_bypass s then pni_passthru_layer else cur)
    /\ (forall j, j <> layer -> nth_error (io_layers t') j = nth_error (io_layers t) j)
    /\ forall fuel' bytes', write fuel' t' layer bytes' = Ok (Return_passthru t' bytes').
Proof.
  intros Hc Hs Hrole Hl Hf Hav Hnf Hob Hcur write. subst write.
  unfold pn_output_write_sasl. rewrite Hs. cbn [bind deref]. rewrite Hob. simpl negb.
  cbv iota.
  assert (Hn : (if close_sent t then Ok (t, bytes, PN_EOS)
                else pn_sasl_output state_code pni_init_server list_mechs PN_EOS
                       available pn_dispatcher_output pn_transport_close_tail
                       (S fuel) t bytes)
               = Ok (t, bytes, PN_EOS)).
  { destruct (close_sent t); [reflexivity|].
    rewrite (sasl_output_at_rest fuel t s bytes Hc Hs Hrole Hl Hf Hav).
    destruct Hnf as [Ho|Hi]; [rewrite Ho|rewrite Hi; rewrite andb_false_r];
      reflexivity. }
  rewrite Hn. cbn [bind]. rewrite Z.eqb_refl. simpl negb. cbv iota.
  rewrite Hs. cbn [bind deref sasl with_sasl].
  change (input_bypass (with_output_bypass s true)) with (input_bypass s).
  destruct (input_bypass s) eqn:Hib.
  - destruct (layers_set_nth (io_layers t) layer pni_passthru_layer cur Hcur)
      as (ls & E & Hnth & _).
    change (io_layers (with_sasl t (with_output_bypass s true))) with (io_layers t).
    rewrite E. cbn [bind]. eexists. split; [reflexivity|].
    split; [reflexivity|]. split; [reflexivity|]. split; [exact Hnth|].
    split; [exact (layers_set_others _ _ _ _ E)|].
    intros fuel' bytes'. reflexivity.
  - eexists. split; [reflexivity|]. split; [reflexivity|]. split; [reflexivity|].
    split; [exact Hcur|]. split; [reflexivity|].
    intros fuel' bytes'. reflexivity.
Qed.

(** X21.  The input side.  On a transport whose capacity is PN_EOS
    [pn_input_read_sasl] sets [close_sent], raises the framing error
    "connection aborted", puts the error layer in every slot and returns
    PN_EOS, whether the direction is in bypass or not.  Otherwise, when the
    direction is in bypass it goes straight to the passthru layer; when it is
    not, [pn_sasl_process] runs first and returns (it leaves a client, and a
    server that has asked for its MECHANISMS, as they are), the dispatcher
    runs on the transport it leaves, and the function hands over exactly
    when the dispatcher returned PN_EOS, or consumed nothing while the state
    is final for input: then the input direction goes into bypass and the
    slot becomes the passthru layer's exactly when the output direction is
    in bypass already. *)
Theorem sasl_layer_input_hands_over
    (t : pn_transport_t) (s : pni_sasl_t) (layer : nat) (cur : pn_io_layer_t)
    (bytes : string) :
  sasl t = Some s ->
  let read :=
    pn_input_read_sasl state_code pni_init_server PN_EOS pn_transport_capacity
      pn_dispatcher_input in
  (pn_transport_capacity t = PN_EOS ->
   exists t',
     read t layer bytes = Ok (Return_count t' bytes PN_EOS)
     /\ close_sent t' = true
     /\ condition t' = Some ("amqp:connection:framing-error", "connection aborted")
     /\ Forall (fun l => l = pni_error_layer) (io_layers t')
     /\ sasl t' = sasl t
     /\ frames t' = frames t)
  /\ (pn_transport_capacity t <> PN_EOS -> input_bypass s = true ->
      read t layer bytes = Ok (Return_passthru t bytes))
  /\ (pn_transport_capacity t <> PN_EOS -> input_bypass s = false ->
      exists t0,
        pn_sasl_process state_code pni_init_server t = Ok t0
        /\ (client s = true
            \/ state_code SASL_POSTED_MECHANISMS <= state_code (desired_state s) ->
            t0 = t)
        /\ forall t1 n s1,
             pn_dispatcher_input t0 bytes = (t1, n) ->
             sasl t1 = Some s1 ->
             nth_error (io_layers t1) layer = Some cur ->
             ((n = PN_EOS \/ (n = 0 /\ pni_sasl_is_final_input_state s1 = true) ->
               exists t',
                 read t layer bytes = Ok (Return_passthru t' bytes)
                 /\ sasl t' = Some (with_input_bypass s1 true)
                 /\ frames t' = frames t1
                 /\ nth_error (io_layers t') layer
                    = Some (if output_bypass s1 then pni_passthru_layer else cur)
                 /\ (forall j, j <> layer ->
                       nth_error (io_layers t') j = nth_error (io_layers t1) j))
              /\ (n <> PN_EOS ->
                  n <> 0 \/ pni_sasl_is_final_input_state s1 = false ->
                  read t layer bytes = Ok (Return_count t1 bytes n)))).
Proof.
  intros Hs read. subst read. unfold pn_input_read_sasl. split; [|split].
  - intros Hcap. rewrite Hcap, Z.eqb_refl. eexists. split; [reflexivity|].
    simpl. repeat split; try reflexivity.
    induction (io_layers t); simpl; constructor; auto.
  - intros Hcap Hib. apply Z.eqb_neq in Hcap. rewrite Hcap, Hs. cbn [bind deref].
    rewrite Hib. reflexivity.
  - intros Hcap Hib.
    destruct (sasl_process_returns t s Hs) as (t0 & H0).
    exists t0. split; [exact H0|]. split.
    { intros Hidle. rewrite (sasl_process_idle t s Hs Hidle) in H0.
      now injection H0 as <-. }
    intros t1 n s1 Hd Hs1 Hcur.
    apply Z.eqb_neq in Hcap. rewrite Hcap, Hs. cbn [bind deref].
    rewrite Hib. simpl negb. cbv iota. unfold pn_sasl_input.
    rewrite H0. cbn [bind]. rewrite Hd.
    cbn [fst snd]. rewrite Hs1. cbn [bind deref].
    assert (Hhand :
              bind (Ok (t1, PN_EOS))
                (fun p : pn_transport_t * Z =>
                   let (t2, k) := p in
                   if negb (k =? PN_EOS) then Ok (Return_count t2 bytes k)
                   else
                     s2 <- deref (sasl t2) ;;
                     s3 <- deref (sasl (with_sasl t2 (with_input_bypass s2 true))) ;;
                     if output_bypass s3
                     then
                       ls <- layers_set
                               (io_layers (with_sasl t2 (with_input_bypass s2 true)))
                               layer pni_passthru_layer ;;
                       Ok (Return_passthru
                             (with_io_layers
                                (with_sasl t2 (with_input_bypass s2 true)) ls) bytes)
                     else Ok (Return_passthru
                                (with_sasl t2 (with_input_bypass s2 true)) bytes))
              = Ok (Return_passthru
                      (if output_bypass s1
                       then with_io_layers (with_sasl t1 (with_input_bypass s1 true))
                              (match layers_set (io_layers t1) layer pni_passthru_layer
                               with Ok ls => ls | _ => io_layers t1 end)
                       else with_sasl t1 (with_input_bypass s1 true)) bytes)).
    { cbn [bind]. rewrite Z.eqb_refl. simpl negb. cbv iota. rewrite Hs1.
      cbn [bind deref sasl with_sasl].
      change (output_bypass (with_input_bypass s1 true)) with (output_bypass s1).
      destruct (output_bypass s1); [|reflexivity].
      change (io_layers (with_sasl t1 (with_input_bypass s1 true))) with (io_layers t1).
      destruct (layers_set_nth (io_layers t1) layer pni_passthru_layer cur Hcur)
        as (ls & E & _). rewrite E. reflexivity. }
    split.
    + intros Hn.
      assert (E : (if n =? 0
                   then if pni_sasl_is_final_input_state s1
                        then Ok (t1, PN_EOS) else Ok (t1, n)
                   else Ok (t1, n)) = Ok (t1, PN_EOS)).
      { destruct Hn as [->|[-> Hfin]]; [|simpl; now rewrite Hfin].
        destruct (PN_EOS =? 0); [destruct (pni_sasl_is_final_input_state s1)|];
          reflexivity. }
      rewrite E, Hhand. eexists. split; [reflexivity|].
      destruct (output_bypass s1).
      * destruct (layers_set_nth (io_layers t1) layer pni_passthru_layer cur Hcur)
          as (ls & El & Hnth & _).
        rewrite El. simpl. repeat split; try assumption.
        exact (layers_set_others _ _ _ _ El).
      * simpl. repeat split. exact Hcur.
    + intros Hne Hnot.
      assert (E : (if n =? 0
                   then if pni_sasl_is_final_input_state s1
                        then Ok (t1, PN_EOS) else Ok (t1, n)
                   else Ok (t1, n)) = Ok (t1, n)).
      { destruct (Z.eqb_spec n 0) as [E0|E0]; [|reflexivity].
        destruct Hnot as [Hnot|Hnot]; [contradiction|]. now rewrite Hnot. }
      rewrite E. cbn [bind]. apply Z.eqb_neq in Hne. rewrite Hne. reflexivity.
Qed.

Lemma write_sasl_at_rest (fuel : nat) (t : pn_transport_t) (s : pni_sasl_t)
    (layer : nat) (bytes : string) :
  well_numbered state_code ->
  sasl t = Some s ->
  role_legal (client s) (desired_state s) = true ->
  last_state s = desired_state s ->
  pni_sasl_is_final_output_state s = true ->
  available t = 0 ->
  outcome s = PN_SASL_OK \/ pni_sasl_is_final_input_state s = false ->
  output_bypass s = false ->
  pn_output_write_sasl state_code pni_init_server list_mechs PN_EOS available
    pn_dispatcher_output pn_transport_close_tail (S fuel) t layer bytes
  = if input_bypass s
    then ls <- layers_set (io_layers t) layer pni_passthru_layer ;;
         Ok (Return_passthru
               (with_io_layers (with_sasl t (with_output_bypass s true)) ls) bytes)
    else Ok (Return_passthru (with_sasl t (with_output_bypass s true)) bytes).
Proof.
  intros Hc Hs Hrole Hl Hf Hav Hnf Hob.
  unfold pn_output_write_sasl. rewrite Hs. cbn [bind deref]. rewrite Hob. simpl negb.
  cbv iota.
  assert (Hn : (if close_sent t then Ok (t, bytes, PN_EOS)
                else pn_sasl_output state_code pni_init_server list_mechs PN_EOS
                       available pn_dispatcher_output pn_transport_close_tail
                       (S fuel) t bytes)
               = Ok (t, bytes, PN_EOS)).
  { destruct (close_sent t); [reflexivity|].
    rewrite (sasl_output_at_rest fuel t s bytes Hc Hs Hrole Hl Hf Hav).
    destruct Hnf as [Ho|Hi]; [rewrite Ho|rewrite Hi; rewrite andb_false_r];
      reflexivity. }
  rewrite Hn. cbn [bind]. rewrite Z.eqb_refl. simpl negb. cbv iota.
  rewrite Hs. reflexivity.
Qed.

Lemma read_sasl_at_rest (t : pn_transport_t) (s : pni_sasl_t) (layer : nat)
    (bytes : string) :
  sasl t = Some s ->
  pn_transport_capacity t <> PN_EOS ->
  input_bypass s = false ->
  client s = true \/ state_code SASL_POSTED_MECHANISMS <= state_code (desired_state s) ->
  pn_dispatcher_input t bytes = (t, 0) ->
  pni_sasl_is_final_input_state s = true ->
  pn_input_read_sasl state_code pni_init_server PN_EOS pn_transport_capacity
    pn_dispatcher_input t layer bytes
  = if output_bypass s
    then ls <- layers_set (io_layers t) layer pni_passthru_layer ;;
         Ok (Return_passthru
               (with_io_layers (with_sasl t (with_input_bypass s true)) ls) bytes)
    else Ok (Return_passthru (with_sasl t (with_input_bypass s true)) bytes).
Proof.
  intros Hs Hcap Hib Hidle Hd Hfin.
  unfold pn_input_read_sasl. apply Z.eqb_neq in Hcap. rewrite Hcap, Hs.
  cbn [bind deref]. rewrite Hib. simpl negb. cbv iota. unfold pn_sasl_input.
  rewrite (sasl_process_idle t s Hs Hidle). cbn [bind]. rewrite Hd. cbn [fst snd].
  simpl Z.eqb. cbv iota. rewrite Hs. cbn [bind deref]. rewrite Hfin.
  cbn [bind]. rewrite Z.eqb_refl. simpl negb. cbv iota. rewrite Hs. reflexivity.
Qed.

(** X22.  When both directions have come to their end the slot is the passthru
    layer's, whichever direction ends first.  At rest in a state that is
    final for output and for input, with the outcome OK and an engine that
    has nothing to read and nothing left to write, a write followed by a
    read and a read followed by a write end in the same transport: both
    directions in bypass, the passthru layer in the slot, the other slots
    and the posted frames as before.  After the first of the two calls
    the slot still holds the layer it held. *)
Theorem finished_directions_install_passthru
    (fuel : nat) (t : pn_transport_t) (s : pni_sasl_t) (layer : nat)
    (cur : pn_io_layer_t) (inb outb : string) :
  well_numbered state_code ->
  sasl t = Some s ->
  role_legal (client s) (desired_state s) = true ->
  last_state s = desired_state s ->
  pni_sasl_is_final_output_state s = true ->
  pni_sasl_is_final_input_state s = true ->
  outcome s = PN_SASL_OK ->
  input_bypass s = false ->
  output_bypass s = false ->
  nth_error (io_layers t) layer = Some cur ->
  (forall u, pn_transport_capacity u <> PN_EOS) ->
  (forall u, available u = 0) ->
  (forall u b, pn_dispatcher_input u b = (u, 0)) ->
  let read :=
    pn_input_read_sasl state_code pni_init_server PN_EOS pn_transport_capacity
      pn_dispatcher_input in
  let write :=
    pn_output_write_sasl state_code pni_init_server list_mechs PN_EOS available
      pn_dispatcher_output pn_transport_close_tail (S fuel) in
  exists t_end,
    sasl t_end = Some (with_input_bypass (with_output_bypass s true) true)
    /\ nth_error (io_layers t_end) layer = Some pni_passthru_layer
    /\ (forall j, j <> layer -> nth_error (io_layers t_end) j = nth_error (io_layers t) j)
    /\ frames t_end = frames t
    /\ (exists t1,
          write t layer outb = Ok (Return_passthru t1 outb)
          /\ nth_error (io_layers t1) layer = Some cur
          /\ read t1 layer inb = Ok (Return_passthru t_end inb))
    /\ (exists t1,
          read t layer inb = Ok (Return_passthru t1 inb)
          /\ nth_error (io_layers t1) layer = Some cur
          /\ write t1 layer outb = Ok (Return_passthru t_end outb)).
Proof.
  intros Hc Hs Hrole Hl Hfo Hfi Ho Hib Hob Hcur Hcap Hav Hdis read write.
  subst read write.
  pose proof (final_output_past_mechanisms s Hc Hrole Hl Hfo) as Hidle.
  destruct (layers_set_nth (io_layers t) layer pni_passthru_layer cur Hcur)
    as (ls & E & Hnth & _).
  exists (with_io_layers
            (with_sasl t (with_input_bypass (with_output_bypass s true) true)) ls).
  split; [reflexivity|]. split; [exact Hnth|].
  split; [exact (layers_set_others _ _ _ _ E)|]. split; [reflexivity|]. split.
  - exists (with_sasl t (with_output_bypass s true)).
    rewrite (write_sasl_at_rest fuel t s layer outb Hc Hs Hrole Hl Hfo (Hav t)
               (or_introl Ho) Hob), Hib.
    split; [reflexivity|]. split; [exact Hcur|].
    rewrite (read_sasl_at_rest (with_sasl t (with_output_bypass s true))
               (with_output_bypass s true) layer inb eq_refl (Hcap _) Hib Hidle
               (Hdis _ _) Hfi).
    cbn [output_bypass with_output_bypass io_layers with_sasl]. rewrite E. reflexivity.
  - exists (with_sasl t (with_input_bypass s true)).
    rewrite (read_sasl_at_rest t s layer inb Hs (Hcap _) Hib Hidle (Hdis _ _) Hfi), Hob.
    split; [reflexivity|]. split; [exact Hcur|].
    rewrite (write_sasl_at_rest fuel (with_sasl t (with_input_bypass s true))
               (with_input_bypass s true) layer outb Hc eq_refl Hrole Hl Hfo (Hav _)
               (or_introl Ho) Hob).
    cbn [input_bypass with_input_bypass io_layers with_sasl]. rewrite E. reflexivity.
Qed.

End SaslLayerProperties.

(** The client at SASL_PRETEND_OUTCOME with nothing left to write: the
    output ends, and the tail stays open. *)
Lemma sasl_output_ends_in_final_state_witness :
  pn_sasl_output enum_code refusing_init no_mechs (-1) (fun _ => 0)
    idle_dispatcher_output (fun t => with_close_sent t true) 1 client_after_pretend "buf"
  = Ok (client_after_pretend, "buf", -1).
Proof.
  destruct (sasl_output_ends_in_final_state enum_code refusing_init no_mechs (-1)
              (fun _ => 0) idle_dispatcher_output (fun t => with_close_sent t true)
              0 client_after_pretend _ "buf"
              enum_code_well_numbered eq_refl eq_refl eq_refl eq_refl eq_refl)
    as (t' & H & _ & Hopen).
  rewrite H. rewrite (Hopen (or_intror eq_refl)). reflexivity.
Defined.

(** The same client: the output direction goes into bypass, and the slot
    keeps its layer, the input direction being still at work. *)
Lemma sasl_layer_output_hands_over_witness :
  exists t' s',
    pn_output_write_sasl enum_code refusing_init no_mechs (-1) (fun _ => 0)
      idle_dispatcher_output (fun t => t) 1 client_after_pretend 0 "buf"
    = Ok (Return_passthru t' "buf")
    /\ sasl t' = Some s'
    /\ output_bypass s' = true
    /\ nth_error (io_layers t') 0 = Some sasl_header_layer.
Proof.
  destruct (sasl_layer_output_hands_over enum_code refusing_init no_mechs (-1)
              (fun _ => 0) idle_dispatcher_output (fun t => t)
              0 client_after_pretend _ 0 sasl_header_layer "buf"
              enum_code_well_numbered eq_refl eq_refl eq_refl eq_refl eq_refl
              (or_intror eq_refl) eq_refl eq_refl)
    as (t' & H1 & H2 & _ & H3 & _).
  exists t'. eexists. split; [exact H1|]. split; [exact H2|].
  split; [reflexivity|exact H3].
Defined.

(** The authenticated client with nothing to read: the input direction goes
    into bypass.  A new server with nothing to read: it is initialised, the
    request for its MECHANISMS is made, and the function returns the count
    of the dispatcher. *)
Lemma sasl_layer_input_hands_over_witness :
  (exists t' s',
      pn_input_read_sasl enum_code refusing_init (-1) (fun _ => 1024)
        idle_dispatcher_input client_authenticated 0 ""
      = Ok (Return_passthru t' "")
      /\ sasl t' = Some s'
      /\ input_bypass s' = true)
  /\ (exists t1 s1,
         pn_input_read_sasl enum_code accepting_server_init (-1) (fun _ => 1024)
           idle_dispatcher_input new_server 0 ""
         = Ok (Return_count t1 "" 0)
         /\ sasl t1 = Some s1
         /\ desired_state s1 = SASL_POSTED_MECHANISMS
         /\ input_bypass s1 = false).
Proof.
  split.
  - destruct (sasl_layer_input_hands_over enum_code refusing_init (-1) (fun _ => 1024)
                idle_dispatcher_input client_authenticated _ 0 sasl_header_layer ""
                eq_refl)
      as (_ & _ & H).
    destruct (H ltac:(discriminate) eq_refl) as (t0 & _ & Hsame & Hrun).
    rewrite (Hsame (or_introl eq_refl)) in Hrun.
    destruct (Hrun client_authenticated 0 _ eq_refl eq_refl eq_refl) as [Hover _].
    destruct (Hover (or_intror (conj eq_refl eq_refl))) as (t' & H1 & H2 & _).
    exists t'. eexists. split; [exact H1|]. split; [exact H2|reflexivity].
  - destruct (sasl_layer_input_hands_over enum_code accepting_server_init (-1)
                (fun _ => 1024) idle_dispatcher_input new_server _ 0
                sasl_header_layer "" eq_refl)
      as (_ & _ & H).
    destruct (H ltac:(discriminate) eq_refl) as (t0 & H0 & _ & Hrun).
    vm_compute in H0. injection H0 as <-.
    destruct (Hrun _ 0 _ eq_refl eq_refl eq_refl) as [_ Hcount].
    eexists. eexists. split; [exact (Hcount ltac:(discriminate) (or_intror eq_refl))|].
    split; [reflexivity|]. split; reflexivity.
Defined.

(** The authenticated client: after a write and a read the slot is the
    passthru layer's. *)
Lemma finished_directions_install_passthru_witness :
  exists t1 t2,
    pn_output_write_sasl enum_code refusing_init no_mechs (-1) (fun _ => 0)
      idle_dispatcher_output (fun t => t) 1 client_authenticated 0 "buf"
    = Ok (Return_passthru t1 "buf")
    /\ pn_input_read_sasl enum_code refusing_init (-1) (fun _ => 1024)
         idle_dispatcher_input t1 0 ""
       = Ok (Return_passthru t2 "")
    /\ nth_error (io_layers t2) 0 = Some pni_passthru_layer.
Proof.
  destruct (finished_directions_install_passthru enum_code refusing_init no_mechs (-1)
              (fun _ => 1024) (fun _ => 0) idle_dispatcher_input
              idle_dispatcher_output (fun t => t)
              0 client_authenticated _ 0 sasl_header_layer "" "buf"
              enum_code_well_numbered eq_refl eq_refl eq_refl eq_refl eq_refl eq_refl
              eq_refl eq_refl eq_refl
              ltac:(intros u; discriminate) ltac:(intros u; reflexivity)
              ltac:(intros u b; reflexivity))
    as (t_end & _ & Hslot & _ & _ & (t1 & H1 & _ & H2) & _).
  exists t1, t_end. split; [exact H1|]. split; [exact H2|exact Hslot].
Defined.

(** ** The way of a slot through the layers *)

Section Pipeline.

Variable state_code : pni_sasl_state -> Z.
Variable pni_init_server : pn_transport_t -> bool * backend_writes.
Variable list_mechs : pn_transport_t -> Z * option string.
Variable PN_EOS : Z.
Variable PN_TRACE_FRM : Z.
Variable pn_transport_capacity : pn_transport_t -> Z.
Variable pni_sniff_header : string -> pni_protocol_type_t.
Variable pni_protocol_name : pni_protocol_type_t -> string.
Variable pn_quote_data : nat -> string -> string.
Variable pn_ssl_get_ssf : pn_transport_t -> Z.
Variable pn_ssl_get_remote_subject : pn_transport_t -> option string.
Variable available : pn_transport_t -> Z.
Variable pn_dispatcher_input : pn_transport_t -> string -> pn_transport_t * Z.
Variable pn_dispatcher_output : pn_transport_t -> string -> pn_transport_t * string * Z.
Variable pn_transport_close_tail : pn_transport_t -> pn_transport_t.

Lemma layers_emit (t : pn_transport_t) : io_layers (pni_emit t) = io_layers t.
Proof. destruct t as [? ? [[[q|]]|] ? ? ? ? ? ? ?]; reflexivity. Qed.

Lemma set_desired_state_layers (t t' : pn_transport_t) (st : pni_sasl_state) :
  pni_sasl_set_desired_state state_code t st = Ok t' -> io_layers t' = io_layers t.
Proof.
  intros H. destruct (sasl t) as [s|] eqn:Hs.
  - destruct (request_applied state_code s st) eqn:Ha.
    + rewrite (set_desired_state_applied _ _ _ _ Hs Ha) in H. injection H as <-.
      now rewrite layers_emit.
    + destruct (set_desired_state_dropped _ _ _ _ Hs Ha) as (fmt & args & E).
      rewrite E in H. now injection H as <-.
  - unfold pni_sasl_set_desired_state in H. rewrite Hs in H. discriminate.
Qed.

Lemma sasl_process_layers (t t' : pn_transport_t) :
  pn_sasl_process state_code pni_init_server t = Ok t' -> io_layers t' = io_layers t.
Proof.
  unfold pn_sasl_process. intros H.
  apply bind_Ok_inv in H as (s & Hs & H).
  destruct (negb (client s)); [|now injection H as <-].
  destruct (state_code (desired_state s) <? state_code SASL_POSTED_MECHANISMS);
    [|now injection H as <-].
  unfold pni_sasl_server_init, init_server_returns in H.
  rewrite Hs in H. cbn [bind] in H.
  destruct (negb (fst (pni_init_server t))); [now injection H as <-|].
  apply set_desired_state_layers in H. exact H.
Qed.

Lemma post_mechanisms_layers (t t' : pn_transport_t) (s : pni_sasl_t) :
  post_mechanisms list_mechs t s = Ok t' -> io_layers t' = io_layers t.
Proof.
  unfold post_mechanisms. intros H.
  apply bind_Ok_inv in H as [[m c] [_ H]]. injection H as <-.
  now rewrite layers_emit.
Qed.

Lemma post_sasl_frame_loop_layers (fuel : nat) (out : string) :
  forall t d t',
    pni_post_sasl_frame_loop state_code list_mechs fuel out t d = Ok t' ->
    io_layers t' = io_layers t.
Proof.
  induction fuel as [|fuel IH]; intros t d t' H; [discriminate|].
  simpl in H. apply bind_Ok_inv in H as (s & Hs & H).
  destruct (state_code (desired_state s) >? state_code (last_state s));
    [|now injection H as <-].
  destruct d;
    repeat match type of H with
           | (if ?c then _ else _) = _ => destruct c
           end;
    try (now injection H as <-);
    try (apply IH in H; rewrite H; simpl; rewrite ?layers_emit; reflexivity).
  apply bind_Ok_inv in H as (t1 & H1 & H).
  apply IH in H. rewrite H. simpl. exact (post_mechanisms_layers _ _ _ H1).
Qed.

Lemma post_sasl_frame_layers (fuel : nat) (t t' : pn_transport_t) :
  pni_post_sasl_frame state_code list_mechs fuel t = Ok t' ->
  io_layers t' = io_layers t.
Proof.
  unfold pni_post_sasl_frame. intros H. apply bind_Ok_inv in H as (s & _ & H).
  exact (post_sasl_frame_loop_layers _ _ _ _ _ H).
Qed.

Lemma nth_error_error_layers (l : list pn_io_layer_t) (i : nat) (cur : pn_io_layer_t) :
  nth_error l i = Some cur ->
  nth_error (map (fun _ => pni_error_layer) l) i = Some pni_error_layer.
Proof.
  revert i. induction l as [|x l IH]; intros [|i] H; simpl in *; try discriminate.
  - reflexivity.
  - exact (IH i H).
Qed.

Lemma layer_rank_top (l : pn_io_layer_t) : (layer_rank l <= 4)%nat.
Proof. destruct l; simpl; lia. Qed.

Lemma layers_forward_same (t t' : pn_transport_t) :
  io_layers t' = io_layers t -> layers_forward t t'.
Proof. intros E i l H. exists l. rewrite E. split; [exact H|lia]. Qed.

Lemma layers_forward_trans (t t1 t2 : pn_transport_t) :
  layers_forward t t1 -> layers_forward t1 t2 -> layers_forward t t2.
Proof.
  intros H1 H2 i l H. destruct (H1 i l H) as (l1 & E1 & L1).
  destruct (H2 i l1 E1) as (l2 & E2 & L2). exists l2. split; [exact E2|lia].
Qed.

(** What the theorem asks of the engine outside the sources: the dispatcher
    and [pn_transport_close_tail] move no slot backward (they leave the
    layers alone, or put the error layer in). *)
Hypothesis dispatcher_input_forward :
  forall u b, layers_forward u (fst (pn_dispatcher_input u b)).
Hypothesis dispatcher_output_forward :
  forall u b, layers_forward u (fst (fst (pn_dispatcher_output u b))).
Hypothesis close_tail_forward :
  forall u, layers_forward u (pn_transport_close_tail u).

Lemma sasl_input_forward (t t' : pn_transport_t) (bytes : string) (n : Z) :
  pn_sasl_input state_code pni_init_server PN_EOS pn_dispatcher_input t bytes
  = Ok (t', n) ->
  layers_forward t t'.
Proof.
  unfold pn_sasl_input. intros H. apply bind_Ok_inv in H as (t1 & H1 & H).
  apply sasl_process_layers in H1.
  assert (E : t' = fst (pn_dispatcher_input t1 bytes)).
  { destruct (snd (pn_dispatcher_input t1 bytes) =? 0).
    - apply bind_Ok_inv in H as (s & _ & H).
      destruct (pni_sasl_is_final_input_state s); now injection H as <-.
    - now injection H as <-. }
  rewrite E.
  exact (layers_forward_trans _ _ _ (layers_forward_same _ _ H1)
           (dispatcher_input_forward t1 bytes)).
Qed.

Lemma sasl_output_forward (fuel : nat) (t t' : pn_transport_t) (bytes out : string)
    (n : Z) :
  pn_sasl_output state_code pni_init_server list_mechs PN_EOS available
    pn_dispatcher_output pn_transport_close_tail fuel t bytes = Ok (t', out, n) ->
  layers_forward t t'.
Proof.
  unfold pn_sasl_output. intros H.
  apply bind_Ok_inv in H as (t1 & H1 & H). apply sasl_process_layers in H1.
  apply bind_Ok_inv in H as (t2 & H2 & H). apply post_sasl_frame_layers in H2.
  apply bind_Ok_inv in H as (s & _ & H).
  assert (H12 : layers_forward t t2)
    by (apply layers_forward_same; congruence).
  apply (layers_forward_trans _ _ _ H12).
  destruct ((available t2 =? 0) && pni_sasl_is_final_output_state s).
  - injection H as <- _ _.
    destruct (negb (outcome_eqb (outcome s) PN_SASL_OK)
              && pni_sasl_is_final_input_state s);
      [apply close_tail_forward|now apply layers_forward_same].
  - injection H as H.
    pose proof (dispatcher_output_forward t2 bytes) as Hd. now rewrite H in Hd.
Qed.

(** One call on a slot that holds a SASL layer leaves in the slot a layer
    that is at least as far on the way. *)
Lemma layer_call_forward (layer : nat) (t t' : pn_transport_t) (cur : pn_io_layer_t) :
  layer_call state_code pni_init_server list_mechs PN_EOS PN_TRACE_FRM
    pn_transport_capacity pni_sniff_header pni_protocol_name pn_quote_data
    pn_ssl_get_ssf pn_ssl_get_remote_subject available pn_dispatcher_input
    pn_dispatcher_output pn_transport_close_tail layer t t' ->
  nth_error (io_layers t) layer = Some cur ->
  exists next,
    nth_error (io_layers t') layer = Some next
    /\ (layer_rank cur <= layer_rank next)%nat.
Proof.
  intros Hcall Hcur.
  destruct Hcall as [t t' c bytes n Hc Hfn H | t c bytes r Hc Hfn H
                    | t t' c bytes out n Hc Hfn H | t c bytes fuel r Hc Hfn H];
    rewrite Hcur in Hc; injection Hc as <-.
  - unfold pn_input_read_sasl_header in H.
    assert (Herr : forall u v,
               nth_error (io_layers u) layer = Some cur ->
               exists next,
                 nth_error (io_layers (pn_set_error_layer (pn_do_error (with_close_sent u true) v
                                         (header_mismatch
                                            (pni_protocol_name (pni_sniff_header bytes))
                                            (pn_quote_data 1024 bytes)
                                            (pn_transport_capacity t =? PN_EOS)))))
                   layer = Some next
                 /\ (layer_rank cur <= layer_rank next)%nat).
    { intros u v Hu. exists pni_error_layer. split.
      - simpl. exact (nth_error_error_layers _ _ _ Hu).
      - apply layer_rank_top. }
    destruct (pni_sniff_header bytes).
    + destruct (negb (pn_transport_capacity t =? PN_EOS)).
      * injection H as <- _. eauto.
      * injection H as <- _. apply Herr. exact Hcur.
    + injection H as <- _. apply Herr. exact Hcur.
    + injection H as <- _. apply Herr. exact Hcur.
    + unfold layers_get in H. rewrite Hcur in H. cbn [bind] in H.
      apply bind_Ok_inv in H as (ls & Hls & H).
      apply bind_Ok_inv in H as (t3 & H3 & H). injection H as <- _.
      unfold pni_sasl_set_external_security in H3.
      apply bind_Ok_inv in H3 as (s & _ & H3). injection H3 as <-.
      destruct (layers_set_nth (io_layers t) layer
                  (if layer_eqb cur sasl_read_header_layer
                   then sasl_layer else sasl_write_header_layer) cur Hcur)
        as (ls' & E & Hn & _).
      rewrite E in Hls. injection Hls as <-.
      eexists. split.
      * simpl. destruct (negb (Z.land (trace t) PN_TRACE_FRM =? 0)); exact Hn.
      * destruct cur; simpl in Hfn; try discriminate; simpl; lia.
    + injection H as <- _. apply Herr. exact Hcur.
  - unfold pn_input_read_sasl in H.
    destruct (pn_transport_capacity t =? PN_EOS).
    + injection H as <-. simpl. exists pni_error_layer. split.
      * exact (nth_error_error_layers _ _ _ Hcur).
      * apply layer_rank_top.
    + apply bind_Ok_inv in H as (s & Hs & H).
      destruct (negb (input_bypass s)); [|injection H as <-; simpl; eauto].
      apply bind_Ok_inv in H as ([t1 n] & H1 & H).
      apply sasl_input_forward in H1.
      destruct (H1 layer cur Hcur) as (l1 & Hl1 & Hle1).
      destruct (negb (n =? PN_EOS)).
      * injection H as <-. simpl. eauto.
      * apply bind_Ok_inv in H as (s1 & Hs1 & H).
        apply bind_Ok_inv in H as (s2 & _ & H).
        destruct (output_bypass s2).
        -- apply bind_Ok_inv in H as (ls & Hls & H). injection H as <-. simpl.
           simpl in Hls.
           destruct (layers_set_nth (io_layers t1) layer pni_passthru_layer l1 Hl1)
             as (ls' & E & Hn & _).
           rewrite E in Hls. injection Hls as <-.
           exists pni_passthru_layer. split; [exact Hn|].
           destruct cur; simpl in Hfn; try discriminate; simpl; lia.
        -- injection H as <-. simpl. eauto.
  - assert (Hsize : (8 <= String.length bytes)%nat).
    { unfold pn_output_write_sasl_header in H.
      destruct (Nat.ltb_spec (String.length bytes) 8); [discriminate|assumption]. }
    destruct (write_sasl_header_passes PN_TRACE_FRM t layer cur bytes Hcur Hsize)
      as (t0 & E & Hn & _).
    rewrite E in H. injection H as <- _ _.
    eexists. split; [exact Hn|].
    destruct cur; simpl in Hfn; try discriminate; simpl; lia.
  - unfold pn_output_write_sasl in H.
    apply bind_Ok_inv in H as (s & Hs & H).
    destruct (negb (output_bypass s)); [|injection H as <-; simpl; eauto].
    apply bind_Ok_inv in H as ([[t1 out] n] & H1 & H).
    assert (Hf1 : layers_forward t t1).
    { destruct (close_sent t);
        [injection H1 as <- _ _; now apply layers_forward_same|].
      exact (sasl_output_forward _ _ _ _ _ _ H1). }
    destruct (Hf1 layer cur Hcur) as (l1 & Hl1 & Hle1).
    destruct (negb (n =? PN_EOS)).
    + injection H as <-. simpl. eauto.
    + apply bind_Ok_inv in H as (s1 & Hs1 & H).
      apply bind_Ok_inv in H as (s2 & _ & H).
      destruct (input_bypass s2).
      * apply bind_Ok_inv in H as (ls & Hls & H). injection H as <-. simpl.
        simpl in Hls.
        destruct (layers_set_nth (io_layers t1) layer pni_passthru_layer l1 Hl1)
          as (ls' & E & Hn & _).
        rewrite E in Hls. injection Hls as <-.
        exists pni_passthru_layer. split; [exact Hn|].
        destruct cur; simpl in Hfn; try discriminate; simpl; lia.
      * injection H as <-. simpl. eauto.
Qed.

(** X23.  The slot of a SASL layer never moves backward.  Provided the
    dispatcher and [pn_transport_close_tail] move no slot backward, through
    any sequence of calls made through the tables of the layers the slot
    goes from [sasl_header_layer] by way of [sasl_write_header_layer] or
    [sasl_read_header_layer] and [sasl_layer] towards the passthru layer, or
    to the error layer: the layer it holds afterwards is at least as far
    on this way as the layer it held before. *)
Theorem pipeline_slot_never_moves_backward
    (layer : nat) (t t' : pn_transport_t) (cur : pn_io_layer_t) :
  layer_calls state_code pni_init_server list_mechs PN_EOS PN_TRACE_FRM
    pn_transport_capacity pni_sniff_header pni_protocol_name pn_quote_data
    pn_ssl_get_ssf pn_ssl_get_remote_subject available pn_dispatcher_input
    pn_dispatcher_output pn_transport_close_tail layer t t' ->
  nth_error (io_layers t) layer = Some cur ->
  exists next,
    nth_error (io_layers t') layer = Some next
    /\ (layer_rank cur <= layer_rank next)%nat.
Proof.
  intros Hcalls Hcur. induction Hcalls as [t | t t1 t2 _ IH Hcall].
  - exists cur. split; [exact Hcur|lia].
  - destruct (IH Hcur) as (mid & Hmid & Hle).
    destruct (layer_call_forward layer t1 t2 mid Hcall Hmid) as (next & Hnext & Hle').
    exists next. split; [exact Hnext|lia].
Qed.

End Pipeline.

(** A new client: the peer's header read, then our header written; the
    slot has gone from [sasl_header_layer] to [sasl_layer]. *)
Lemma pipeline_slot_never_moves_backward_witness :
  exists t1 t2,
    example_read_sasl_header new_client 0 SASL_HEADER = Ok (t1, 8)
    /\ example_write_sasl_header t1 0 "01234567" = Passed (Ok (t2, SASL_HEADER, 8))
    /\ exists next,
         nth_error (io_layers t2) 0 = Some next
         /\ (layer_rank sasl_header_layer <= layer_rank next)%nat.
Proof.
  eexists. eexists.
  split; [vm_compute; reflexivity|]. split; [vm_compute; reflexivity|].
  apply (pipeline_slot_never_moves_backward enum_code refusing_init no_mechs (-1) 2
           (fun _ => 1024) example_sniff example_protocol_name example_quote
           (fun _ => 0) (fun _ => None) (fun _ => 0) idle_dispatcher_input
           idle_dispatcher_output (fun u => u)
           ltac:(intros u b; now apply layers_forward_same)
           ltac:(intros u b; now apply layers_forward_same)
           ltac:(intros u; now apply layers_forward_same)
           0%nat new_client); [|reflexivity].
  eapply calls_more; [eapply calls_more; [apply calls_none|]|].
  - eapply (call_read_sasl_header _ _ _ _ _ _ _ _ _ _ _ _ _ _ _ _ _ _
              sasl_header_layer SASL_HEADER 8); [reflexivity|reflexivity|].
    vm_compute. reflexivity.
  - eapply (call_write_sasl_header _ _ _ _ _ _ _ _ _ _ _ _ _ _ _ _ _ _
              sasl_write_header_layer "01234567" SASL_HEADER 8);
      [reflexivity|reflexivity|].
    vm_compute. reflexivity.
Defined.

(** ** The first output of a server *)

Section ServerFirstOutput.

Variable state_code : pni_sasl_state -> Z.
Variable pni_init_server : pn_transport_t -> bool * backend_writes.
Variable list_mechs : pn_transport_t -> Z * option string.
Variable PN_EOS : Z.
Variable available : pn_transport_t -> Z.
Variable pn_dispatcher_output : pn_transport_t -> string -> pn_transport_t * string * Z.
Variable pn_transport_close_tail : pn_transport_t -> pn_transport_t.

(** What [pn_sasl_process] leaves on a new server whose backend
    initialises. *)
Lemma sasl_process_new_server (t : pn_transport_t) (s : pni_sasl_t) :
  well_numbered state_code ->
  sasl t = Some s ->
  client s = false ->
  last_state s = SASL_NONE ->
  desired_state s = SASL_NONE ->
  fst (pni_init_server t) = true ->
  exists t1 s1,
    pn_sasl_process state_code pni_init_server t = Ok t1
    /\ sasl t1 = Some s1
    /\ last_state s1 = SASL_NONE
    /\ desired_state s1 = SASL_POSTED_MECHANISMS
    /\ included_mechanisms s1 = included_mechanisms s
    /\ frames t1 = frames t
    /\ has_collector t1 = has_collector t
    /\ events t1 = events t ++ (if has_collector t then [PN_TRANSPORT] else []).
Proof.
  intros Hc Hs Hcl Hl Hd Hok.
  pose proof (none_below state_code SASL_POSTED_MECHANISMS Hc ltac:(discriminate)) as Hlt.
  unfold pn_sasl_process. rewrite Hs. cbn [bind deref]. rewrite Hcl, Hd.
  simpl negb. cbv iota.
  destruct (Z.ltb_spec (state_code SASL_NONE) (state_code SASL_POSTED_MECHANISMS));
    [|lia].
  unfold pni_sasl_server_init, init_server_returns. rewrite Hs. cbn [bind deref].
  rewrite Hok. simpl negb. cbv iota.
  assert (Ha : request_applied state_code (with_backend s (snd (pni_init_server t)))
                 SASL_POSTED_MECHANISMS = true).
  { unfold request_applied, role_legal. simpl. rewrite Hcl, Hl. simpl.
    rewrite andb_true_r. apply Z.leb_le. lia. }
  rewrite (set_desired_state_applied state_code
             (with_sasl t (with_backend s (snd (pni_init_server t))))
             (with_backend s (snd (pni_init_server t))) SASL_POSTED_MECHANISMS
             eq_refl Ha).
  eexists. eexists. split; [reflexivity|].
  rewrite sasl_emit, frames_emit, has_collector_emit, events_emit.
  split; [reflexivity|]. simpl.
  split; [unfold rewound; simpl; rewrite Hl; reflexivity|].
  split; [reflexivity|]. split; [reflexivity|]. split; [reflexivity|].
  split; [reflexivity|].
  destruct t as [? ? [[[q|]]|] ? ? ? ? ? ? ?]; simpl; rewrite ?app_nil_r; reflexivity.
Qed.

(** X24.  The first output of a new server whose backend initialises and
    advertises the list [L]: [pn_sasl_output] requests and posts one
    MECHANISMS frame whose symbols are the names of [L] that the allow-list
    of the context admits, in the order of [L]; it leaves the state machine
    at SASL_POSTED_MECHANISMS, hands two events to the collector, and
    passes the call on to the dispatcher. *)
Theorem server_first_output_advertises_mechanisms
    (fuel : nat) (t : pn_transport_t) (s : pni_sasl_t) (bytes : string)
    (n : Z) (L : string) :
  well_numbered state_code ->
  sasl t = Some s ->
  client s = false ->
  last_state s = SASL_NONE ->
  desired_state s = SASL_NONE ->
  fst (pni_init_server t) = true ->
  (forall u, list_mechs u = (n, Some L)) ->
  0 < n ->
  (List.length (admitted (included_mechanisms s) L) <= 16)%nat ->
  (4 <= fuel)%nat ->
  exists t2 s2,
    pn_sasl_output state_code pni_init_server list_mechs PN_EOS available
      pn_dispatcher_output pn_transport_close_tail fuel t bytes
    = Ok (pn_dispatcher_output t2 bytes)
    /\ sasl t2 = Some s2
    /\ last_state s2 = SASL_POSTED_MECHANISMS
    /\ desired_state s2 = SASL_POSTED_MECHANISMS
    /\ frames t2
       = frames t ++ [SASL_MECHANISMS (map Some (admitted (included_mechanisms s) L))]
    /\ events t2
       = events t ++ (if has_collector t then [PN_TRANSPORT; PN_TRANSPORT] else []).
Proof.
  intros Hc Hs Hcl Hl Hd Hok Hlist Hn Hlen Hfuel.
  destruct (sasl_process_new_server t s Hc Hs Hcl Hl Hd Hok)
    as (t1 & s1 & H1 & Hs1 & Hl1 & Hd1 & Hi1 & Hf1 & Hc1 & He1).
  pose proof (none_below state_code SASL_POSTED_MECHANISMS Hc ltac:(discriminate)) as Hlt.
  assert (Hplan : drain_plan state_code s1 = [SASL_POSTED_MECHANISMS]).
  { unfold drain_plan, prerequisite. rewrite Hd1, Hl1.
    destruct (Z.gtb_spec (state_code SASL_POSTED_MECHANISMS) (state_code SASL_NONE));
      [reflexivity|lia]. }
  assert (Hfit : mechs_fit list_mechs t1 s1).
  { intros _. exists L. rewrite Hlist, Hi1. split; [reflexivity|exact Hlen]. }
  destruct (pass_through_ok list_mechs t1 s1 SASL_POSTED_MECHANISMS Hs1 (fun _ => Hfit))
    as (t2 & H2 & Hs2 & Hf2 & He2 & _).
  assert (Hadv : advertised list_mechs t1 s1
                 = map Some (admitted (included_mechanisms s) L)).
  { unfold advertised. rewrite Hlist, Hi1. simpl.
    destruct (Z.gtb_spec n 0); [reflexivity|lia]. }
  exists t2, (with_last_state s1 SASL_POSTED_MECHANISMS).
  unfold pn_sasl_output. rewrite H1. cbn [bind].
  rewrite (post_sasl_frame_drain _ _ _ _ s1 Hc Hs1 Hfuel), Hplan.
  cbn [drain]. rewrite H2. cbn [bind]. rewrite Hs2. cbn [bind deref].
  unfold pni_sasl_is_final_output_state at 1. simpl last_state. simpl state_eqb.
  simpl orb. rewrite andb_false_r.
  split; [reflexivity|]. split; [reflexivity|]. split; [reflexivity|].
  split; [exact Hd1|]. split.
  - rewrite Hf2, Hf1. simpl. now rewrite Hadv.
  - rewrite He2, He1. unfold events_for. rewrite Hc1. simpl.
    destruct (has_collector t); [now rewrite <- app_assoc|now rewrite !app_nil_r].
Qed.

End ServerFirstOutput.

(** A new server whose backend advertises PLAIN and ANONYMOUS. *)
Lemma server_first_output_advertises_mechanisms_witness :
  exists t2,
    pn_sasl_output enum_code accepting_server_init two_mechs (-1) (fun _ => 0)
      idle_dispatcher_output (fun u => u) 4 new_server "buf"
    = Ok (idle_dispatcher_output t2 "buf")
    /\ frames t2 = [SASL_MECHANISMS [Some "PLAIN"; Some "ANONYMOUS"]].
Proof.
  destruct (server_first_output_advertises_mechanisms enum_code accepting_server_init
              two_mechs (-1) (fun _ => 0) idle_dispatcher_output (fun u => u)
              4 new_server _ "buf" 2 "PLAIN ANONYMOUS"
              enum_code_well_numbered eq_refl eq_refl eq_refl eq_refl eq_refl
              ltac:(intros u; reflexivity) ltac:(lia)
              ltac:(vm_compute; repeat constructor) (le_n 4))
    as (t2 & s2 & H1 & _ & _ & _ & H2 & _).
  exists t2. split; [exact H1|exact H2].
Defined.

(** ** What the header reader tells the SASL context *)

Section ExternalSecurity.

Variable PN_EOS : Z.
Variable PN_TRACE_FRM : Z.
Variable pn_transport_capacity : pn_transport_t -> Z.
Variable pni_sniff_header : string -> pni_protocol_type_t.
Variable pni_protocol_name : pni_protocol_type_t -> string.
Variable pn_quote_data : nat -> string -> string.
Variable pn_ssl_get_ssf : pn_transport_t -> Z.
Variable pn_ssl_get_remote_subject : pn_transport_t -> option string.

(** X25.  When it accepts the SASL header, [pn_input_read_sasl_header] stores
    in the context what the TLS layer reports for this transport, whether
    TLS is in use or not: the SSF, and a copy of the remote subject, or null
    when there is none.  The TLS layer is asked about the transport as the
    call leaves it, with the context as it was before.  The call changes
    the slot, the log and these two fields of the context and nothing else:
    the state machine, the outcome, the allow-list and the posted frames are
    as before, no event is emitted, and the log has one more line exactly
    when frames are traced. *)
Theorem read_sasl_header_records_external_security
    (t : pn_transport_t) (s : pni_sasl_t) (layer : nat) (cur : pn_io_layer_t)
    (bytes : string) :
  pni_sniff_header bytes = PNI_PROTOCOL_AMQP_SASL ->
  sasl t = Some s ->
  nth_error (io_layers t) layer = Some cur ->
  exists t',
    pn_input_read_sasl_header PN_EOS PN_TRACE_FRM pn_transport_capacity
      pni_sniff_header pni_protocol_name pn_quote_data pn_ssl_get_ssf
      pn_ssl_get_remote_subject t layer bytes = Ok (t', 8)
    /\ sasl t'
       = Some (with_external s
                 (pn_ssl_get_ssf (with_sasl t' s))
                 (option_map cstr (pn_ssl_get_remote_subject (with_sasl t' s))))
    /\ server t' = server t
    /\ connection t' = connection t
    /\ trace t' = trace t
    /\ close_sent t' = close_sent t
    /\ condition t' = condition t
    /\ backend_calls t' = backend_calls t
    /\ frames t' = frames t
    /\ events t' = events t
    /\ log t' = log t ++ (if Z.land (trace t) PN_TRACE_FRM =? 0 then []
                          else [Logf log_frame_in [ArgStr "SASL"]])
    /\ forall s',
         sasl t' = Some s' ->
         external_ssf s' = pn_ssl_get_ssf (with_sasl t' s)
         /\ external_auth s'
            = option_map cstr (pn_ssl_get_remote_subject (with_sasl t' s))
         /\ same_machine s s'
         /\ outcome s' = outcome s
         /\ included_mechanisms s' = included_mechanisms s
         /\ selected_mechanism s' = selected_mechanism s
         /\ username s' = username s.
Proof.
  intros Hp Hs Hcur. unfold pn_input_read_sasl_header. rewrite Hp.
  unfold layers_get. rewrite Hcur. cbn [bind].
  destruct (layers_set_nth (io_layers t) layer
              (if layer_eqb cur sasl_read_header_layer
               then sasl_layer else sasl_write_header_layer) cur Hcur)
    as (a' & E & _).
  rewrite E. cbn [bind]. unfold pni_sasl_set_external_security.
  simpl trace.
  destruct (Z.land (trace t) PN_TRACE_FRM =? 0); simpl negb; cbv iota;
    simpl sasl; rewrite Hs; cbn [bind deref];
    (eexists; split; [reflexivity|]);
    unfold with_sasl, with_io_layers, pn_transport_logf, events; simpl;
    rewrite <- Hs, ?app_nil_r;
    (split; [reflexivity|]); repeat (split; [reflexivity|]);
    intros s' Hs'; injection Hs' as <-; repeat split; reflexivity.
Qed.

End ExternalSecurity.

(** A client on a TLS connection of strength 256 whose peer is known. *)
Lemma read_sasl_header_records_external_security_witness :
  exists t' s',
    pn_input_read_sasl_header (-1) 2 (fun _ => 1024) example_sniff
      example_protocol_name example_quote (fun _ => 256) (fun _ => Some "CN=peer")
      new_client 0 SASL_HEADER = Ok (t', 8)
    /\ sasl t' = Some s'
    /\ external_ssf s' = 256
    /\ external_auth s' = Some "CN=peer".
Proof.
  destruct (read_sasl_header_records_external_security (-1) 2 (fun _ => 1024)
              example_sniff example_protocol_name example_quote
              (fun _ => 256) (fun _ => Some "CN=peer")
              new_client _ 0 sasl_header_layer SASL_HEADER eq_refl eq_refl eq_refl)
    as (t' & H1 & H2 & _).
  exists t'. eexists. split; [exact H1|]. split; [exact H2|]. split; reflexivity.
Defined.
